(** * orgroamtocosma: the Org-roam to Cosma converter, embedded and verified

    The development follows [orgroamtocosma.py].  Python strings are lists of
    Unicode code points; the regular expressions of the script are written as
    terms of a small pattern language and run by a backtracking matcher with
    the priorities of Python's [re] module; [main] is a computation in a
    state-and-exception monad whose state records what the run printed and
    wrote. *)

From Stdlib Require Import String Ascii DecimalString.
From Stdlib Require Import List NArith Arith Bool Lia.
Import ListNotations.

(** ** Python strings *)

Definition char := N.
Definition pystr := list char.

(** An ASCII literal as a Python string. *)
Definition u (s : string) : pystr := map N_of_ascii (list_ascii_of_string s).
Arguments u s%_string.

Module Py.

Definition eqc (a b : char) : bool := N.eqb a b.

Fixpoint eqs (a b : pystr) : bool :=
  match a, b with
  | [], [] => true
  | x :: a', y :: b' => eqc x y && eqs a' b'
  | _, _ => false
  end.

(** [s.startswith(p)] *)
Fixpoint startswith (p s : pystr) : bool :=
  match p, s with
  | [], _ => true
  | x :: p', y :: s' => eqc x y && startswith p' s'
  | _ :: _, [] => false
  end.

(** [s.endswith(p)] *)
Definition endswith (p s : pystr) : bool := startswith (rev p) (rev s).

(** Python's [str.isspace] on one code point, which is also the class [\s]
    of [re] on [str] patterns (CPython's [_PyUnicode_IsWhitespace]). *)
Definition isspace (c : char) : bool :=
  ((9 <=? c) && (c <=? 13) || (28 <=? c) && (c <=? 32)
   || (c =? 133) || (c =? 160) || (c =? 5760)
   || (8192 <=? c) && (c <=? 8202)
   || (c =? 8232) || (c =? 8233) || (c =? 8239) || (c =? 8287)
   || (c =? 12288))%N.

Fixpoint lstrip (s : pystr) : pystr :=
  match s with
  | c :: s' => if isspace c then lstrip s' else s
  | [] => []
  end.

Definition rstrip (s : pystr) : pystr := rev (lstrip (rev s)).

(** [s.strip()] *)
Definition strip (s : pystr) : pystr := lstrip (rstrip s).

(** [s.split(sep)] for a one-character separator. *)
Fixpoint split (sep : char) (s : pystr) : list pystr :=
  match s with
  | [] => [[]]
  | c :: s' =>
      if eqc c sep then [] :: split sep s'
      else match split sep s' with
           | w :: ws => (c :: w) :: ws
           | [] => [[c]]
           end
  end.

(** [sep.join(l)] *)
Fixpoint join (sep : pystr) (l : list pystr) : pystr :=
  match l with
  | [] => []
  | [x] => x
  | x :: l' => x ++ sep ++ join sep l'
  end.

(** [s.replace(old, new)] for a non-empty [old]: the occurrences are taken
    from the left and do not overlap.  [skip] counts the characters of the
    occurrence just replaced that are still to be passed over. *)
Fixpoint replace_from (old new : pystr) (skip : nat) (s : pystr) : pystr :=
  match s with
  | [] => []
  | c :: s' =>
      match skip with
      | S n => replace_from old new n s'
      | O =>
          if startswith old s
          then new ++ replace_from old new (length old - 1) s'
          else c :: replace_from old new 0 s'
      end
  end.

Definition replace (old new s : pystr) : pystr := replace_from old new 0 s.

(** [s.find(pat)], counted from [i]; [None] stands for -1. *)
Fixpoint find_from (pat s : pystr) (i : nat) : option nat :=
  if startswith pat s then Some i
  else match s with
       | [] => None
       | _ :: s' => find_from pat s' (S i)
       end.

Definition find (pat s : pystr) : option nat := find_from pat s 0.

(** Truthiness of a string and Python's [a or b] on an optional string. *)
Definition truthy (s : pystr) : bool :=
  match s with [] => false | _ :: _ => true end.

Definition or_else (a : option pystr) (b : pystr) : pystr :=
  match a with
  | Some (c :: s) => c :: s
  | _ => b
  end.

(** [str(n)] for a natural number. *)
Definition str_of_nat (n : nat) : pystr :=
  u (NilZero.string_of_uint (Nat.to_uint n)).

(** The name of a path in the sense of [pathlib] on POSIX: the last
    component that is neither empty nor a single dot. *)
Definition slash : char := 47%N.
Definition dot : char := 46%N.

Definition path_parts (p : pystr) : list pystr :=
  filter (fun c => truthy c && negb (eqs c [dot])) (split slash p).

Definition path_name (p : pystr) : pystr := last (path_parts p) [].

(** [name.rfind('.')], [None] standing for -1. *)
Fixpoint rfind_dot (s : pystr) (i : nat) (found : option nat) : option nat :=
  match s with
  | [] => found
  | c :: s' => rfind_dot s' (S i) (if eqc c dot then Some i else found)
  end.

(** [Path(p).stem]: the name without its last suffix; a leading or a
    trailing dot does not start a suffix (the rule of [pathlib] up to
    Python 3.13). *)
Definition path_stem (p : pystr) : pystr :=
  let name := path_name p in
  match rfind_dot name 0 None with
  | Some i => if (0 <? i) && (i <? length name - 1) then firstn i name else name
  | None => name
  end.

(** [os.path.basename] and [os.path.join] of [posixpath]. *)
Definition basename (p : pystr) : pystr := last (split slash p) [].

Definition path_join (a b : pystr) : pystr :=
  if startswith [slash] b then b
  else if negb (truthy a) || endswith [slash] a then a ++ b
  else a ++ [slash] ++ b.

End Py.

(** ** Regular expressions

    The fragment of Python's [re] syntax the script uses.  Repetition is
    only ever applied to a character class. *)

Module Re.

Inductive greed := Greedy | Lazy.

Inductive regex :=
| Lit (s : pystr)                       (* literal text *)
| Cls (p : char -> bool)                (* one character of a class *)
| Star (g : greed) (p : char -> bool)   (* [p*] and [p*?] *)
| Seq (r1 r2 : regex)
| Alt (r1 r2 : regex)                   (* [r1|r2] *)
| Opt (r : regex)                       (* [r?] *)
| Grp (n : nat) (r : regex)             (* capturing group number [n] *)
| Bol                                   (* [^] under re.MULTILINE *)
| Eol.                                  (* [$] under re.MULTILINE *)

(** [p+] and [p+?] *)
Definition Plus (g : greed) (p : char -> bool) : regex := Seq (Cls p) (Star g p).

(** Character classes. *)
Definition newline : char := 10%N.
Definition any_but_newline (c : char) : bool := negb (Py.eqc c newline). (* . *)
Definition any_char (c : char) : bool := true.                         (* [\s\S] *)
Definition not_rbracket (c : char) : bool := negb (Py.eqc c 93%N).      (* [^\]] *)

(** Where the matcher stands: the character before the position (for [^]),
    the text ahead, the number of characters consumed since the start of
    the attempt, and the groups captured so far. *)
Record cursor := Cursor {
  prev : option char;
  ahead : pystr;
  pos : nat;
  groups : list (nat * pystr)
}.

Record rmatch := Match { mlen : nat; mgroups : list (nat * pystr) }.

Definition conts := cursor -> option rmatch.

Definition first_of (a : option rmatch) (b : option rmatch) : option rmatch :=
  match a with Some m => Some m | None => b end.

Fixpoint lit (s : pystr) (k : conts) (pv : option char) (a : pystr) (n : nat)
    (g : list (nat * pystr)) : option rmatch :=
  match s with
  | [] => k (Cursor pv a n g)
  | x :: s' =>
      match a with
      | c :: a' => if Py.eqc x c then lit s' k (Some c) a' (S n) g else None
      | [] => None
      end
  end.

Fixpoint star (gr : greed) (p : char -> bool) (k : conts) (pv : option char)
    (a : pystr) (n : nat) (g : list (nat * pystr)) : option rmatch :=
  match a with
  | c :: a' =>
      if p c then
        match gr with
        | Greedy => first_of (star gr p k (Some c) a' (S n) g) (k (Cursor pv a n g))
        | Lazy => first_of (k (Cursor pv a n g)) (star gr p k (Some c) a' (S n) g)
        end
      else k (Cursor pv a n g)
  | [] => k (Cursor pv [] n g)
  end.

(** A line starts at the beginning of the text and after a newline. *)
Definition bolb (pv : option char) : bool :=
  match pv with None => true | Some x => Py.eqc x newline end.

Definition at_bol (c : cursor) : bool := bolb (prev c).

Definition at_eol (c : cursor) : bool :=
  match ahead c with [] => true | x :: _ => Py.eqc x newline end.

(** The backtracking matcher, in continuation-passing style: the
    alternatives are tried in the order of [re], and the first that lets the
    rest of the pattern succeed is taken. *)
Fixpoint run (r : regex) (k : conts) (c : cursor) : option rmatch :=
  match r with
  | Lit s => lit s k (prev c) (ahead c) (pos c) (groups c)
  | Cls p =>
      match ahead c with
      | x :: a' => if p x then k (Cursor (Some x) a' (S (pos c)) (groups c)) else None
      | [] => None
      end
  | Star gr p => star gr p k (prev c) (ahead c) (pos c) (groups c)
  | Seq r1 r2 => run r1 (run r2 k) c
  | Alt r1 r2 => first_of (run r1 k c) (run r2 k c)
  | Opt r1 => first_of (run r1 k c) (k c)
  | Grp i r1 =>
      run r1 (fun c' =>
        k (Cursor (prev c') (ahead c') (pos c')
             ((i, firstn (pos c' - pos c) (ahead c)) :: groups c'))) c
  | Bol => if at_bol c then k c else None
  | Eol => if at_eol c then k c else None
  end.

Definition accept : conts := fun c => Some (Match (pos c) (groups c)).

(** One attempt at a position: [pv] is the character before it. *)
Definition match_at (r : regex) (pv : option char) (s : pystr) : option rmatch :=
  run r accept (Cursor pv s 0 []).

(** [re.match(r, s)] *)
Definition rematch (r : regex) (s : pystr) : option rmatch := match_at r None s.

(** [re.search(r, s, re.MULTILINE)]: the first position with a match. *)
Fixpoint search_from (r : regex) (pv : option char) (s : pystr) : option rmatch :=
  match match_at r pv s with
  | Some m => Some m
  | None =>
      match s with
      | c :: s' => search_from r (Some c) s'
      | [] => None
      end
  end.

Definition search (r : regex) (s : pystr) : option rmatch := search_from r None s.

(** [m.group(i)]: the last capture recorded for the group, if it took part. *)
Fixpoint group_of (g : list (nat * pystr)) (i : nat) : option pystr :=
  match g with
  | [] => None
  | (j, s) :: g' => if Nat.eqb i j then Some s else group_of g' i
  end.

Definition group (m : rmatch) (i : nat) : option pystr := group_of (mgroups m) i.

(** [m.group(i)] for a group that takes part in every match of its
    pattern. *)
Definition group_str (m : rmatch) (i : nat) : pystr :=
  match group m i with Some s => s | None => [] end.

(** [re.sub(r, repl, s)] with no count: every match, from the left, without
    overlap.  [skip] counts the characters of the current match still to be
    passed over.  The patterns of the script never match the empty string;
    for such a match the replacement is inserted and the scan moves on by
    one character. *)
Fixpoint sub_from (r : regex) (repl : rmatch -> pystr) (skip : nat)
    (pv : option char) (s : pystr) : pystr :=
  match s with
  | [] =>
      match skip, match_at r pv [] with
      | O, Some m => repl m
      | _, _ => []
      end
  | c :: s' =>
      match skip with
      | S n => sub_from r repl n (Some c) s'
      | O =>
          match match_at r pv s with
          | Some m =>
              match mlen m with
              | O => repl m ++ c :: sub_from r repl 0 (Some c) s'
              | S n => repl m ++ sub_from r repl n (Some c) s'
              end
          | None => c :: sub_from r repl 0 (Some c) s'
          end
      end
  end.

Definition sub (r : regex) (repl : rmatch -> pystr) (s : pystr) : pystr :=
  sub_from r repl 0 None s.

End Re.

Import Re.

Declare Scope re_scope.
Delimit Scope re_scope with re.
Bind Scope re_scope with regex.
Notation "r1 >> r2" := (Seq r1 r2) (at level 61, right associativity) : re_scope.

(** ** The script *)

(** The command line, as [argparse] leaves it in [args].  [--creationdate]
    and [--zettlr] are only ever tested for truth. *)
Record Args := {
  input_folder : pystr;
  output_folder : pystr;
  tags_filter : option pystr;
  creationdate : bool;
  zettlr : bool;
  verbose : bool
}.

(** A local date and time, as [datetime.fromtimestamp] returns it; the
    year has four digits. *)
Record datetime := {
  year : N; month : N; day : N; hour : N; minute : N; second : N
}.

(** What the run reads from its surroundings: the local time of
    [creation_date(file)], and the local time of the wall clock at each
    successive call of [dt.now()]. *)
Record World := {
  stat_time : pystr -> datetime;
  wall_clock : nat -> datetime
}.

(** One file met by [os.walk]: the directory, the file name, and the text
    that [read()] returns for it. *)
Record file_entry := {
  fe_root : pystr;
  fe_name : pystr;
  fe_text : pystr
}.

(** What the run leaves behind. *)
Inductive file_data :=
| Text (s : pystr)
| Rows (rows : list (pystr * pystr)).

Record state := {
  stdout : list pystr;             (* one entry per call of print *)
  ticks : nat;                     (* calls of dt.now() so far *)
  written : list (pystr * file_data) (* files written, oldest first *)
}.

Inductive exn := KeyError (key : pystr).

(** State and exception: an exception keeps the state reached. *)
Definition M (A : Type) : Type := state -> (exn + A) * state.

Definition ret {A} (a : A) : M A := fun s => (inr a, s).
Definition raise {A} (e : exn) : M A := fun s => (inl e, s).
Definition bind {A B} (m : M A) (f : A -> M B) : M B :=
  fun s => match m s with
           | (inr a, s') => f a s'
           | (inl e, s') => (inl e, s')
           end.

Notation "x <- m ;; k" := (bind m (fun x => k))
  (at level 61, m at next level, right associativity).
Notation "m ;;; k" := (bind m (fun _ => k))
  (at level 61, right associativity).

Definition print (line : pystr) : M unit :=
  fun s => (inr tt, {| stdout := stdout s ++ [line]; ticks := ticks s; written := written s |}).

Definition now (w : World) : M datetime :=
  fun s => (inr (wall_clock w (ticks s)),
            {| stdout := stdout s; ticks := S (ticks s); written := written s |}).

(** [open(path, "w")] followed by [write], on a file system that takes the
    file: the errors of the file system are no part of the model, which
    describes a run as far as its writes are accepted. *)
Definition write_file (path : pystr) (d : file_data) : M unit :=
  fun s => (inr tt, {| stdout := stdout s; ticks := ticks s;
                       written := written s ++ [(path, d)] |}).

(** A [for] loop over a list that threads a local variable. *)
Fixpoint for_each {A B} (l : list A) (body : A -> B -> M B) (b : B) : M B :=
  match l with
  | [] => ret b
  | a :: l' => b' <- body a b ;; for_each l' body b'
  end.

(** A Python [dict] with string keys, in insertion order. *)
Definition dict := list (pystr * pystr).

Fixpoint dict_get (d : dict) (k : pystr) : option pystr :=
  match d with
  | [] => None
  | (k', v) :: d' => if Py.eqs k k' then Some v else dict_get d' k
  end.

Fixpoint dict_set (d : dict) (k v : pystr) : dict :=
  match d with
  | [] => [(k, v)]
  | (k', v') :: d' => if Py.eqs k k' then (k', v) :: d' else (k', v') :: dict_set d' k v
  end.

(** [d[k]] *)
Definition dict_item (d : dict) (k : pystr) : M pystr :=
  match dict_get d k with
  | Some v => ret v
  | None => raise (KeyError k)
  end.

(** A file object opened for reading is the text not read yet; [read()]
    returns all of it and leaves the object at the end of the file. *)
Definition fh_read (h : pystr) : pystr * pystr := (h, []).

(** The patterns of the script. *)
Definition title_re : regex :=
  (Bol >> Lit (u "#+title:") >> Star Greedy Py.isspace >>
   Grp 1 (Plus Greedy any_but_newline) >> Eol)%re.

Definition tags_re : regex :=
  (Bol >> Lit (u "#+filetags:") >> Star Greedy Py.isspace >> Opt (Lit (u ":")) >>
   Grp 1 (Plus Lazy any_but_newline) >> Opt (Lit (u ":")) >> Eol)%re.

Definition id_re : regex :=
  (Bol >> Lit (u ":ID:") >> Star Greedy Py.isspace >>
   Grp 1 (Plus Greedy any_but_newline) >> Eol)%re.

Definition roamkey_re : regex :=
  (Bol >> Lit (u "#+roam_key:") >> Star Greedy Py.isspace >>
   Grp 1 (Plus Greedy any_but_newline) >> Eol)%re.

Definition link_re : regex :=
  (Lit (u "[[") >> Grp 1 (Plus Lazy not_rbracket) >> Lit (u "]") >>
   Opt (Lit (u "[") >> Grp 2 (Plus Greedy not_rbracket) >> Lit (u "]")) >>
   Lit (u "]"))%re.

Definition url_re : regex := (Lit (u "http") >> Opt (Lit (u "s")) >> Lit (u "://"))%re.

Definition image_re : regex :=
  (Lit (u "[[file:") >>
   Grp 1 (Plus Lazy any_but_newline >> Lit (u ".") >>
          Alt (Lit (u "png")) (Alt (Lit (u "jpg")) (Alt (Lit (u "jpeg")) (Lit (u "gif"))))) >>
   Lit (u "]]"))%re.

Definition meta_line_re : regex :=
  (Bol >> Lit (u "#+") >> Star Greedy any_but_newline >> Eol)%re.

Definition properties_re : regex :=
  (Bol >> Lit (u ":PROPERTIES:") >> Star Lazy any_char >> Lit (u ":END:"))%re.

(** [strftime('%Y%m%d%H%M%S')] on a date whose year has four digits, 1000
    to 9999: the four digits of the year, and two digits for each of the
    other fields. *)
Definition digit (n : N) : char := (48 + n mod 10)%N.
Definition pad2 (n : N) : pystr := [digit (n / 10); digit n].
Definition pad4 (n : N) : pystr := [digit (n / 1000); digit (n / 100); digit (n / 10); digit n].

Definition strftime (d : datetime) : pystr :=
  pad4 (year d) ++ pad2 (month d) ++ pad2 (day d)
  ++ pad2 (hour d) ++ pad2 (minute d) ++ pad2 (second d).

Record meta := { m_title : option pystr; m_tags : list pystr; m_id : option pystr }.

Definition parse_org_frontmatter (content : pystr) : meta :=
  let title_match := search title_re content in
  let tags_match := search tags_re content in
  let id_match := search id_re content in
  let roamkey_match := search roamkey_re content in
  let title := option_map (fun m => Py.strip (group_str m 1)) title_match in
  let tags :=
    match tags_match with
    | Some m =>
        map Py.strip
          (filter (fun t => Py.truthy (Py.strip t)) (Py.split 58%N (group_str m 1)))
    | None => []
    end in
  let id_ := option_map (fun m => Py.strip (group_str m 1)) id_match in
  let id_ :=
    match id_, roamkey_match with
    | Some (_ :: _), _ => id_
    | _, Some m => Some (Py.strip (group_str m 1))
    | _, None => id_
    end in
  {| m_title := title; m_tags := tags; m_id := id_ |}.

(** The two substitutions of [main] that remove the Org metadata. *)
Definition strip_meta_lines (content : pystr) : pystr :=
  sub meta_line_re (fun _ => []) content.

Definition strip_properties (content : pystr) : pystr :=
  sub properties_re (fun _ => []) content.

(** [convert_images] *)
Definition image_repl (m : rmatch) : pystr := u "![](" ++ group_str m 1 ++ u ")".

Definition convert_images (content : pystr) : pystr := sub image_re image_repl content.

Section Script.

(** [unicodedata.normalize("NFD", s)], a table of the Unicode database. *)
Variable NFD : pystr -> pystr.

Variable args : Args.
Variable world : World.

Definition printv (text : pystr) : M unit :=
  if verbose args then print text else ret tt.

(** [creation_date] and [create_id]: the time of the file where
    [--creationdate] is set, the wall clock otherwise. *)
Definition create_id (file : pystr) : M pystr :=
  if creationdate args then ret (strftime (stat_time world file))
  else t <- now world ;; ret (strftime t).

(** [encode("ascii", "ignore")] drops what is not ASCII. *)
Definition clean_filename (name : pystr) : pystr :=
  let name := filter (fun c => (c <? 128)%N) (NFD name) in
  Py.replace (u " ") (u "-") name.

Definition link_ref (id_ label : pystr) : pystr :=
  if zettlr args then u "[" ++ label ++ u "]([[" ++ id_ ++ u "]])"
  else u "[[" ++ id_ ++ u "|" ++ label ++ u "]]".

Definition link_repl (title2id : dict) (m : rmatch) : pystr :=
  let target := group_str m 1 in
  let label := Py.or_else (group m 2) (group_str m 1) in
  if Py.startswith (u "id:") target then
    let id_ := Py.replace (u "id:") [] target in
    link_ref id_ label
  else if Py.startswith (u "file:") target then
    let file_ref := Py.path_stem (Py.replace (u "file:") [] target) in
    let file_ref := clean_filename file_ref in
    match dict_get title2id file_ref with
    | Some id_ => link_ref id_ label
    | None => u "[[" ++ label ++ u "]]"
    end
  else match rematch url_re target with
       | Some _ => u "[" ++ label ++ u "](" ++ target ++ u ")"
       | None => u "[[" ++ label ++ u "]]"
       end.

Definition convert_org_links (content : pystr) (title2id : dict) : pystr :=
  sub link_re (link_repl title2id) content.

(** Step 1 of [main]: the paths of the files whose name ends in [.org]. *)
Definition collect (walk : list file_entry) : list (pystr * pystr) :=
  map (fun e => (Py.path_join (fe_root e) (fe_name e), fe_text e))
      (filter (fun e => Py.endswith (u ".org") (fe_name e)) walk).

(** Step 2: the body of the loop.  The file is read twice from the same file
    object, so the text that is parsed is what the second [read()] returns. *)
Definition index_note (f : pystr * pystr) (title2id : dict) : M dict :=
  print (fst f) ;;;
  let infile := snd f in
  let (shown, infile) := fh_read infile in
  print shown ;;;
  let (content, infile) := fh_read infile in
  let meta := parse_org_frontmatter content in
  let title := Py.or_else (m_title meta) (Py.path_stem (fst f)) in
  id_ <- match m_id meta with
         | Some (c :: s) => ret (c :: s)
         | _ => create_id (fst f)
         end ;;
  ret (dict_set title2id (clean_filename title) id_).

Definition frontmatter_of (title id_ : pystr) (tags : list pystr) : pystr :=
  u "---" ++ [newline]
  ++ (u "title: " ++ title ++ [newline])
  ++ (u "id: " ++ id_ ++ [newline])
  ++ (match tags with
      | [] => []
      | _ :: _ => u "tags: [" ++ Py.join (u ", ") tags ++ u "]" ++ [newline]
      end)
  ++ (u "---" ++ [newline; newline]).

(** Step 3: the body of the loop. *)
Definition export_note (title2id : dict) (f : pystr * pystr) (_ : unit) : M unit :=
  let infile := snd f in
  let (content, infile) := fh_read infile in
  let meta := parse_org_frontmatter content in
  let title := Py.or_else (m_title meta) (Py.path_stem (fst f)) in
  id_ <- match m_id meta with
         | Some (c :: s) => ret (c :: s)
         | _ => dict_item title2id (clean_filename title)
         end ;;
  let tags := m_tags meta in
  let content := convert_org_links content title2id in
  let content := convert_images content in
  let content := strip_meta_lines content in
  let content := strip_properties content in
  let content := Py.strip content in
  let frontmatter := frontmatter_of title id_ tags in
  let md_content := frontmatter ++ content ++ [newline] in
  let out_name := clean_filename (Py.path_stem title) ++ u ".md" in
  let out_path := Py.path_join (output_folder args) out_name in
  write_file out_path (Text md_content) ;;;
  printv (u "[OK] " ++ Py.basename (fst f) ++ [32; 8594; 32]%N ++ out_name).

(** [main], on what [os.walk(input_folder)] yields.  Creating the output
    folder leaves no trace in the state. *)
Definition main (walk : list file_entry) : M unit :=
  printv (u "Converting Org-roam notes from " ++ input_folder args
          ++ [32; 8594; 32]%N ++ output_folder args) ;;;
  let org_files := collect walk in
  title2id <- for_each org_files index_note [] ;;
  for_each org_files (export_note title2id) tt ;;;
  write_file (Py.path_join (output_folder args) (u "_title2id.csv")) (Rows title2id) ;;;
  printv ([9989; 32]%N ++ u "Conversion complete! " ++ Py.str_of_nat (length org_files)
          ++ u " notes processed.").

End Script.

(** The state in which a run starts. *)
Definition init : state := {| stdout := []; ticks := 0; written := [] |}.

(** ** Notions used in the statements *)

(** *** Lines *)

(** The character before the position reached after reading [s]. *)
Fixpoint lastc (pv : option char) (s : pystr) : option char :=
  match s with
  | [] => pv
  | c :: s' => lastc (Some c) s'
  end.

(** No line of [s] starts with [key]; [pv] is the character before [s]. *)
Fixpoint no_line_starts_with (key : pystr) (pv : option char) (s : pystr) : bool :=
  match s with
  | [] => true
  | c :: s' => negb (bolb pv && Py.startswith key s) && no_line_starts_with key (Some c) s'
  end.

(** [pre] ends where a line starts; [rest] starts where a line ends. *)
Definition line_start (pre : pystr) : bool := bolb (lastc None pre).

Definition line_end (rest : pystr) : bool :=
  match rest with [] => true | c :: _ => Py.eqc c newline end.

(** Text made of lines, each ended by a newline. *)
Definition text_of (lines : list pystr) : pystr :=
  concat (map (fun l => l ++ [newline]) lines).

(** *** Header lines *)

(** White space that stays on the line. *)
Definition inline_space (c : char) : bool := Py.isspace c && any_but_newline c.

(** A value as it stands on a header line: not empty, on one line, with no
    white space at either end. *)
Definition one_line (v : pystr) : bool := forallb any_but_newline v.

Definition trimmed (v : pystr) : bool :=
  match v with
  | [] => false
  | c :: _ => negb (Py.isspace c) && negb (Py.isspace (last v c))
  end.

(** The first line of [content] that starts with [key] reads [key], white
    space, the value [v], and white space to the end of the line. *)
Definition declares (key content v : pystr) : Prop :=
  exists pre ws ws' rest,
    content = pre ++ key ++ ws ++ v ++ ws' ++ rest
    /\ line_start pre = true
    /\ no_line_starts_with key None pre = true
    /\ forallb inline_space ws = true
    /\ trimmed v = true /\ one_line v = true
    /\ forallb inline_space ws' = true
    /\ line_end rest = true.

(** A tag: not empty, without white space or colon. *)
Definition tag (t : pystr) : bool :=
  Py.truthy t && forallb (fun c => negb (Py.isspace c) && negb (Py.eqc c 58%N)) t.

(** The first line of [content] that starts with [#+filetags:] lists the
    tags [tags] between colons. *)
Definition declares_tags (content : pystr) (tags : list pystr) : Prop :=
  exists pre ws rest,
    content = pre ++ u "#+filetags:" ++ ws ++ u ":" ++ Py.join (u ":") tags ++ u ":" ++ rest
    /\ line_start pre = true
    /\ no_line_starts_with (u "#+filetags:") None pre = true
    /\ forallb inline_space ws = true
    /\ tags <> [] /\ forallb tag tags = true
    /\ line_end rest = true.

(** *** Property blocks *)

(** A property block, and a text in which property blocks alternate with
    other text: each pair is the text before a block and the body of the
    block. *)
Definition block (body : pystr) : pystr := u ":PROPERTIES:" ++ body ++ u ":END:".

Fixpoint with_blocks (l : list (pystr * pystr)) (tail : pystr) : pystr :=
  match l with
  | [] => tail
  | (gap, body) :: l' => gap ++ block body ++ with_blocks l' tail
  end.

(** The end marker of a block is the first one after its start marker. *)
Definition closes (body : pystr) : bool :=
  match Py.find (u ":END:") (body ++ u ":END:") with
  | Some i => i =? length body
  | None => false
  end.

(** The text before a block has no line that starts with the start marker,
    and ends where a line starts; [pv] is the character before it. *)
Definition gap_ok (pv : option char) (gap : pystr) : bool :=
  no_line_starts_with (u ":PROPERTIES:") pv gap && bolb (lastc pv gap).

Fixpoint blocks_ok (pv : option char) (l : list (pystr * pystr)) : bool :=
  match l with
  | [] => true
  | (gap, body) :: l' => gap_ok pv gap && closes body && blocks_ok (Some 58%N) l'
  end.

(** The character before the text that follows the blocks. *)
Definition after_blocks (pv : option char) (l : list (pystr * pystr)) : option char :=
  match l with [] => pv | _ :: _ => Some 58%N end.

(** *** Links, file names and identifiers *)

(** Text without an opening bracket. *)
Definition no_lbracket (s : pystr) : bool := forallb (fun c => negb (Py.eqc c 91%N)) s.

Definition is_ascii (c : char) : bool := (c <? 128)%N.

(** Canonical decomposition leaves text that is all ASCII as it is. *)
Definition preserves_ascii (NFD : pystr -> pystr) : Prop :=
  forall s, forallb is_ascii s = true -> NFD s = s.

(** Canonical decomposition on text that is all ASCII. *)
Definition NFD_ascii (s : pystr) : pystr := s.

(** The generated identifiers: fourteen decimal digits. *)
Definition is_digit (c : char) : bool := ((48 <=? c) && (c <=? 57))%N.

Definition is_token (s : pystr) : bool := (length s =? 14) && forallb is_digit s.

(** An index that holds generated identifiers only. *)
Definition tokens (d : dict) : Prop :=
  forall k v, dict_get d k = Some v -> is_token v = true.

(** The identifier Step 2 enters for a file when the run is in state [st]. *)
Definition generated (args : Args) (world : World) (path : pystr) (st : state) : pystr :=
  strftime (if creationdate args then stat_time world path
            else wall_clock world (ticks st)).

(** *** Step 3 on one note *)

(** What Step 3 makes of a note: its title, its identifier if it has or
    finds one, its rewritten text, the path it is written to, and the
    message of [--verbose]. *)
Definition note_title (path content : pystr) : pystr :=
  Py.or_else (m_title (parse_org_frontmatter content)) (Py.path_stem path).

Definition note_id (NFD : pystr -> pystr) (title2id : dict) (path content : pystr)
    : option pystr :=
  match m_id (parse_org_frontmatter content) with
  | Some (c :: s) => Some (c :: s)
  | _ => dict_get title2id (clean_filename NFD (note_title path content))
  end.

Definition note_body (NFD : pystr -> pystr) (args : Args) (title2id : dict)
    (content : pystr) : pystr :=
  Py.strip (strip_properties (strip_meta_lines
    (convert_images (convert_org_links NFD args content title2id)))).

Definition note_path (NFD : pystr -> pystr) (args : Args) (title : pystr) : pystr :=
  Py.path_join (output_folder args) (clean_filename NFD (Py.path_stem title) ++ u ".md").

Definition note_log (NFD : pystr -> pystr) (args : Args) (path title : pystr)
    : list pystr :=
  if verbose args
  then [u "[OK] " ++ Py.basename path ++ [32; 8594; 32]%N
        ++ (clean_filename NFD (Py.path_stem title) ++ u ".md")]
  else [].

(** The same command line with another value of [--tags]. *)
Definition with_tags (a : Args) (t : option pystr) : Args :=
  {| input_folder := input_folder a; output_folder := output_folder a;
     tags_filter := t; creationdate := creationdate a; zettlr := zettlr a;
     verbose := verbose a |}.

(** *** The matcher *)

(** Where a repetition has to stop. *)
Definition stops (p : char -> bool) (a : pystr) : Prop :=
  match a with [] => True | c :: _ => p c = false end.

(** No attempt started inside [pre] succeeds, [rest] being what follows. *)
Definition dead (r : regex) (pv : option char) (pre rest : pystr) : Prop :=
  forall p1 c p2, pre = p1 ++ c :: p2 ->
    match_at r (lastc pv p1) (c :: p2 ++ rest) = None.

(** Patterns without [^]. *)
Fixpoint anchor_free (r : regex) : bool :=
  match r with
  | Bol => false
  | Seq r1 r2 | Alt r1 r2 => anchor_free r1 && anchor_free r2
  | Opt r1 | Grp _ r1 => anchor_free r1
  | _ => true
  end.

(** Two cursors that differ at most in the character before. *)
Definition same_ahead (c c' : cursor) : Prop :=
  ahead c = ahead c' /\ pos c = pos c' /\ groups c = groups c'.

(** Patterns every match of which takes at least one character. *)
Fixpoint consumes (r : regex) : bool :=
  match r with
  | Lit (_ :: _) | Cls _ => true
  | Seq r1 r2 => consumes r1 || consumes r2
  | Alt r1 r2 => consumes r1 && consumes r2
  | Grp _ r1 => consumes r1
  | _ => false
  end.

(** Patterns every match of which captures group [i]. *)
Fixpoint sets_group (i : nat) (r : regex) : bool :=
  match r with
  | Grp j r1 => Nat.eqb i j || sets_group i r1
  | Seq r1 r2 => sets_group i r1 || sets_group i r2
  | Alt r1 r2 => sets_group i r1 && sets_group i r2
  | _ => false
  end.

(** The cursor [c'] is no earlier than [c] and has the groups of [c]. *)
Definition extends (c c' : cursor) : Prop :=
  pos c <= pos c'
  /\ forall i, group_of (groups c) i <> None -> group_of (groups c') i <> None.

Definition script_patterns : list regex :=
  [title_re; tags_re; id_re; roamkey_re; link_re; url_re; image_re; meta_line_re;
   properties_re].

(** *** File names *)

(** A space becomes a hyphen. *)
Definition hyphenate (c : char) : char := if Py.eqc c 32%N then 45%N else c.

(** *** The index of Step 2 *)

(** The key under which Step 2 enters a file, and the index that it builds
    from the paths of the files alone: [n] counts the readings of the clock
    so far. *)
Definition stem_key (NFD : pystr -> pystr) (path : pystr) : pystr :=
  clean_filename NFD (Py.path_stem path).

Fixpoint index_fold (NFD : pystr -> pystr) (args : Args) (world : World)
    (paths : list pystr) (n : nat) (d : dict) : dict :=
  match paths with
  | [] => d
  | p :: ps =>
      index_fold NFD args world ps (if creationdate args then n else S n)
        (dict_set d (stem_key NFD p)
           (strftime (if creationdate args then stat_time world p else wall_clock world n)))
  end.

(** What Step 2 prints: the path and the text of each file. *)
Definition shown (files : list (pystr * pystr)) : list pystr :=
  concat (map (fun f => [fst f; snd f]) files).

(** *** The run as a whole *)

(** The file that Step 3 writes for a note whose identifier is [id_]. *)
Definition note_file (NFD : pystr -> pystr) (args : Args) (title2id : dict)
    (f : pystr * pystr) (id_ : pystr) : pystr * file_data :=
  (note_path NFD args (note_title (fst f) (snd f)),
   Text (frontmatter_of (note_title (fst f) (snd f)) id_
           (m_tags (parse_org_frontmatter (snd f)))
         ++ note_body NFD args title2id (snd f) ++ [newline])).

(** The files that Step 3 writes, in order, and the messages of
    [--verbose], up to the first note that has no identifier and whose
    cleaned title is no key of the index; the key that is missing, if there
    is such a note. *)
Fixpoint exported (NFD : pystr -> pystr) (args : Args) (title2id : dict)
    (files : list (pystr * pystr))
    : list (pystr * file_data) * list pystr * option pystr :=
  match files with
  | [] => ([], [], None)
  | f :: fs =>
      match note_id NFD title2id (fst f) (snd f) with
      | None => ([], [], Some (clean_filename NFD (note_title (fst f) (snd f))))
      | Some id_ =>
          match exported NFD args title2id fs with
          | (w, o, e) =>
              (note_file NFD args title2id f id_ :: w,
               note_log NFD args (fst f) (note_title (fst f) (snd f)) ++ o, e)
          end
      end
  end.

(** The two messages of [--verbose] that frame the run. *)
Definition banner (args : Args) : list pystr :=
  if verbose args
  then [u "Converting Org-roam notes from " ++ input_folder args
        ++ [32; 8594; 32]%N ++ output_folder args]
  else [].

Definition farewell (args : Args) (n : nat) : list pystr :=
  if verbose args
  then [[9989; 32]%N ++ u "Conversion complete! " ++ Py.str_of_nat n
        ++ u " notes processed."]
  else [].

(** A note whose identifier Step 3 finds whatever the other notes are: it
    declares an identifier, or it has neither title nor identifier line. *)
Definition self_contained (content : pystr) : Prop :=
  (exists v, declares (u ":ID:") content v)
  \/ (no_line_starts_with (u "#+title:") None content = true
      /\ no_line_starts_with (u ":ID:") None content = true
      /\ no_line_starts_with (u "#+roam_key:") None content = true).

(** *** Links of every kind *)

(** A target that is neither an identifier, nor a file, nor a web address. *)
Definition other_target (t : pystr) : bool :=
  negb (Py.startswith (u "id:") t) && negb (Py.startswith (u "file:") t)
  && negb (Py.startswith (u "http://") t) && negb (Py.startswith (u "https://") t).

(** *** Dates and identifiers *)

(** A [datetime] whose year has four digits and whose other fields have at
    most two. *)
Definition valid_datetime (d : datetime) : Prop :=
  (1000 <= year d < 10000 /\ month d < 100 /\ day d < 100 /\ hour d < 100
   /\ minute d < 100 /\ second d < 100)%N.

(** *** Metadata lines *)

(** What is left of a line: nothing where it starts with [#+]. *)
Definition blank_meta (l : pystr) : pystr :=
  if Py.startswith (u "#+") l then [] else l.

(** *** Header values, loosely *)

(** The first line of [content] that starts with [key] is followed by
    white space, line breaks included, and then by the value [v], which
    ends its line. *)
Definition declares_after (key content v : pystr) : Prop :=
  exists pre ws rest,
    content = pre ++ key ++ ws ++ v ++ rest
    /\ line_start pre = true
    /\ no_line_starts_with key None pre = true
    /\ forallb Py.isspace ws = true
    /\ trimmed v = true /\ one_line v = true
    /\ line_end rest = true.

(** *** The files of Step 1 *)

(** A name that Step 1 takes for a note. *)
Definition org_name (e : file_entry) : bool := Py.endswith (u ".org") (fe_name e).

(** *** Image references *)

(** The extensions that image translation knows. *)
Definition image_ext (e : pystr) : bool :=
  Py.eqs e (u "png") || Py.eqs e (u "jpg") || Py.eqs e (u "jpeg") || Py.eqs e (u "gif").

(** An identifier made from a date of the surroundings: the time of one of
    the files [paths] under [--creationdate], a reading of the clock
    otherwise. *)
Definition generated_for (args : Args) (world : World) (paths : list pystr) (v : pystr)
    : Prop :=
  exists p n, In p paths
    /\ v = strftime (if creationdate args then stat_time world p else wall_clock world n).

(** ** Sample runs *)

Definition args0 : Args :=
  {| input_folder := u "notes"; output_folder := u "out"; tags_filter := None;
     creationdate := false; zettlr := false; verbose := false |}.

(** A clock that advances by one second at each reading, from
    2025-11-04 12:00:00. *)
Definition world0 : World :=
  {| stat_time := fun _ => Build_datetime 2020 1 2 3 4 5;
     wall_clock := fun n => Build_datetime 2025 11 4 12 0 (N.of_nat n) |}.

(** An index in which a note called [pic] is known. *)
Definition pic_index : dict := [(u "pic", u "20251104120000")].

(** A note with two property blocks. *)
Definition two_blocks : pystr :=
  text_of [u ":PROPERTIES:"; u ":ID: a"; u ":END:"; u "first";
           u ":PROPERTIES:"; u ":ID: b"; u ":END:"; u "second"].

(** A note that declares an identifier, and a note that links to its file. *)
Definition walk1 : list file_entry :=
  [ {| fe_root := u "notes"; fe_name := u "note.org";
       fe_text := text_of [u ":PROPERTIES:"; u ":ID: abc"; u ":END:";
                           u "#+title: note"; u "body"] |};
    {| fe_root := u "notes"; fe_name := u "other.org";
       fe_text := text_of [u "#+title: other"; u "see [[file:note.org][Label]]"] |} ].

(** A note with a title and no identifier. *)
Definition walk2 : list file_entry :=
  [ {| fe_root := u "notes"; fe_name := u "bar.org";
       fe_text := text_of [u "#+title: Foo"] |} ].


(** A note with a title, the tags [a] and [b], and no identifier. *)
Definition tagged_note : pystr :=
  text_of [u "#+title: Foo"; u "#+filetags: :a:b:"; u "text"].

Definition walk3 : list file_entry :=
  [ {| fe_root := u "notes"; fe_name := u "bar.org"; fe_text := tagged_note |} ].

(** ** The matcher *)

Section Matcher.

Variable k : conts.

Lemma eqc_refl (c : char) : Py.eqc c c = true.
Proof. apply N.eqb_refl. Qed.

Lemma eqc_eq (a b : char) : Py.eqc a b = true -> a = b.
Proof. apply N.eqb_eq. Qed.

Lemma startswith_app (p s : pystr) : Py.startswith p (p ++ s) = true.
Proof. induction p as [|x p IH]; simpl; [reflexivity|]. now rewrite eqc_refl. Qed.

(** A literal that is there is consumed. *)
Lemma lit_app (s a : pystr) (pv : option char) (n : nat) (g : list (nat * pystr)) :
  lit s k pv (s ++ a) n g = k (Cursor (lastc pv s) a (n + length s) g).
Proof.
  revert pv n. induction s as [|x s IH]; intros pv n; simpl.
  - now rewrite Nat.add_0_r.
  - rewrite eqc_refl, IH. now rewrite Nat.add_succ_r.
Qed.

(** A literal that is not there fails. *)
Lemma lit_fail (s a : pystr) (pv : option char) (n : nat) (g : list (nat * pystr)) :
  Py.startswith s a = false -> lit s k pv a n g = None.
Proof.
  revert a pv n. induction s as [|x s IH]; intros a pv n; simpl; [discriminate|].
  destruct a as [|c a]; [reflexivity|].
  destruct (Py.eqc x c); simpl; [apply IH | reflexivity].
Qed.

(** A greedy repetition takes all it can when the rest then succeeds. *)
Lemma star_greedy_all (p : char -> bool) (w a : pystr) (pv : option char) (n : nat)
    (g : list (nat * pystr)) (m : rmatch) :
  forallb p w = true -> stops p a ->
  k (Cursor (lastc pv w) a (n + length w) g) = Some m ->
  star Greedy p k pv (w ++ a) n g = Some m.
Proof.
  revert pv n. induction w as [|x w IH]; intros pv n Hw Ha Hk; simpl in *.
  - rewrite Nat.add_0_r in Hk.
    destruct a as [|c a]; simpl in *; [assumption|]. now rewrite Ha.
  - apply andb_prop in Hw. destruct Hw as [Hx Hw]. rewrite Hx.
    rewrite (IH (Some x) (S n)); [reflexivity | assumption | assumption |].
    now rewrite Nat.add_succ_r in Hk.
Qed.

(** A lazy repetition stops as soon as the rest succeeds. *)
Lemma star_lazy_stop (p : char -> bool) (a : pystr) (pv : option char) (n : nat)
    (g : list (nat * pystr)) (m : rmatch) :
  k (Cursor pv a n g) = Some m -> star Lazy p k pv a n g = Some m.
Proof.
  intros Hk. destruct a as [|c a]; simpl; [assumption|].
  destruct (p c); [now rewrite Hk | assumption].
Qed.

(** A lazy repetition goes on while the rest fails. *)
Lemma star_lazy_skip (p : char -> bool) (w a : pystr) (pv : option char) (n : nat)
    (g : list (nat * pystr)) :
  forallb p w = true ->
  (forall w1 c w2, w = w1 ++ c :: w2 ->
     k (Cursor (lastc pv w1) (c :: w2 ++ a) (n + length w1) g) = None) ->
  star Lazy p k pv (w ++ a) n g = star Lazy p k (lastc pv w) a (n + length w) g.
Proof.
  revert pv n. induction w as [|x w IH]; intros pv n Hw Hk; simpl in *.
  - now rewrite Nat.add_0_r.
  - apply andb_prop in Hw. destruct Hw as [Hx Hw]. rewrite Hx.
    pose proof (Hk [] x w eq_refl) as H0. simpl in H0. rewrite Nat.add_0_r in H0.
    rewrite H0. simpl.
    rewrite IH; [now rewrite Nat.add_succ_r | assumption |].
    intros w1 c w2 E. specialize (Hk (x :: w1) c w2). simpl in Hk.
    rewrite Nat.add_succ_r in Hk. apply Hk. now rewrite E.
Qed.

End Matcher.

(** ** Searching and substituting *)

Lemma lastc_app (pv : option char) (a b : pystr) :
  lastc pv (a ++ b) = lastc (lastc pv a) b.
Proof. revert pv. induction a as [|x a IH]; intros pv; simpl; [reflexivity | apply IH]. Qed.

Lemma lastc_in (c x : char) (s : pystr) : lastc (Some c) s = Some x -> In x (c :: s).
Proof.
  revert c. induction s as [|y s IH]; intros c H; simpl in *.
  - left. congruence.
  - right. apply (IH y H).
Qed.

Lemma dead_nil (r : regex) (pv : option char) (rest : pystr) : dead r pv [] rest.
Proof. intros [|a p1] c p2 E; discriminate. Qed.

Lemma dead_cons (r : regex) (pv : option char) (c : char) (pre rest : pystr) :
  match_at r pv (c :: pre ++ rest) = None -> dead r (Some c) pre rest ->
  dead r pv (c :: pre) rest.
Proof.
  intros H0 H [|x p1] d p2 E; simpl in *.
  - inversion E; subst. assumption.
  - inversion E; subst. now apply H.
Qed.

Lemma dead_head (r : regex) (pv : option char) (c : char) (pre rest : pystr) :
  dead r pv (c :: pre) rest -> match_at r pv (c :: pre ++ rest) = None.
Proof. intros H. apply (H [] c pre eq_refl). Qed.

Lemma dead_tail (r : regex) (pv : option char) (c : char) (pre rest : pystr) :
  dead r pv (c :: pre) rest -> dead r (Some c) pre rest.
Proof. intros H p1 d p2 E. apply (H (c :: p1) d p2). now rewrite E. Qed.

Lemma dead_app (r : regex) (pv : option char) (p q rest : pystr) :
  dead r pv p (q ++ rest) -> dead r (lastc pv p) q rest -> dead r pv (p ++ q) rest.
Proof.
  revert pv. induction p as [|x p IH]; intros pv Hp Hq; simpl in *; [assumption|].
  apply dead_cons.
  - rewrite <- app_assoc. apply (dead_head _ _ _ _ _ Hp).
  - apply IH; [apply (dead_tail _ _ _ _ _ Hp) | assumption].
Qed.

(** A search passes over a prefix in which no attempt succeeds. *)
Lemma search_dead (r : regex) (pre rest : pystr) (pv : option char) :
  dead r pv pre rest ->
  search_from r pv (pre ++ rest) = search_from r (lastc pv pre) rest.
Proof.
  revert pv. induction pre as [|c pre IH]; intros pv H; [reflexivity|].
  simpl app. simpl lastc. rewrite <- (IH (Some c) (dead_tail _ _ _ _ _ H)).
  destruct rest; simpl; now rewrite (dead_head _ _ _ _ _ H).
Qed.

Lemma search_here (r : regex) (s : pystr) (pv : option char) (m : rmatch) :
  match_at r pv s = Some m -> search_from r pv s = Some m.
Proof. intros H. destruct s; simpl; now rewrite H. Qed.

(** A search in which no attempt succeeds finds nothing. *)
Lemma search_none (r : regex) (s : pystr) (pv : option char) :
  dead r pv s [] -> match_at r (lastc pv s) [] = None -> search_from r pv s = None.
Proof.
  intros H H0. rewrite <- (app_nil_r s), (search_dead _ _ _ _ H).
  simpl. now rewrite H0.
Qed.

Section Substitution.

Variable r : regex.
Variable repl : rmatch -> pystr.

(** A substitution copies a prefix in which no attempt succeeds. *)
Lemma sub_dead (pre rest : pystr) (pv : option char) :
  dead r pv pre rest ->
  sub_from r repl 0 pv (pre ++ rest) = pre ++ sub_from r repl 0 (lastc pv pre) rest.
Proof.
  revert pv. induction pre as [|c pre IH]; intros pv H; [reflexivity|].
  simpl. rewrite (dead_head _ _ _ _ _ H). f_equal. apply IH, (dead_tail _ _ _ _ _ H).
Qed.

(** The characters of a match are passed over. *)
Lemma sub_skip (m rest : pystr) (pv : option char) :
  sub_from r repl (length m) pv (m ++ rest) = sub_from r repl 0 (lastc pv m) rest.
Proof.
  revert pv. induction m as [|c m IH]; intros pv; [reflexivity|]. simpl. apply IH.
Qed.

(** A match is replaced, and the substitution goes on after it. *)
Lemma sub_match (m rest : pystr) (pv : option char) (M : rmatch) :
  match_at r pv (m ++ rest) = Some M -> mlen M = length m -> m <> [] ->
  sub_from r repl 0 pv (m ++ rest)
  = repl M ++ sub_from r repl 0 (lastc pv m) rest.
Proof.
  intros H L N. destruct m as [|c m]; [congruence|].
  simpl in *. rewrite H, L. now rewrite sub_skip.
Qed.

End Substitution.

(** Without [^] the character before the position does not matter. *)
Lemma lit_prev (s : pystr) (k k' : conts) (pv pv' : option char) (a : pystr)
    (n : nat) (g : list (nat * pystr)) :
  (forall c c', same_ahead c c' -> k c = k' c') ->
  lit s k pv a n g = lit s k' pv' a n g.
Proof.
  intros Hk. revert pv pv' a n. induction s as [|x s IH]; intros pv pv' a n; simpl.
  - apply Hk. now repeat split.
  - destruct a as [|c a]; [reflexivity|]. destruct (Py.eqc x c); [apply IH | reflexivity].
Qed.

Lemma star_prev (gr : greed) (p : char -> bool) (k k' : conts) (pv pv' : option char)
    (a : pystr) (n : nat) (g : list (nat * pystr)) :
  (forall c c', same_ahead c c' -> k c = k' c') ->
  star gr p k pv a n g = star gr p k' pv' a n g.
Proof.
  intros Hk. revert pv pv' n. induction a as [|c a IH]; intros pv pv' n; simpl.
  - apply Hk. now repeat split.
  - assert (E : k (Cursor pv (c :: a) n g) = k' (Cursor pv' (c :: a) n g))
      by (apply Hk; now repeat split).
    rewrite E, (IH (Some c) (Some c) (S n)). reflexivity.
Qed.

Lemma run_prev (r : regex) :
  anchor_free r = true ->
  forall (k k' : conts), (forall c c', same_ahead c c' -> k c = k' c') ->
  forall c c', same_ahead c c' -> run r k c = run r k' c'.
Proof.
  induction r as [s|p|gr p|r1 IH1 r2 IH2|r1 IH1 r2 IH2|r1 IH1|i r1 IH1| |];
    simpl; intros Hr k k' Hk c c' Hc.
  - destruct Hc as (-> & -> & ->). now apply lit_prev.
  - destruct Hc as (-> & -> & ->). destruct (ahead c') as [|x a]; [reflexivity|].
    destruct (p x); [|reflexivity]. apply Hk. now repeat split.
  - destruct Hc as (-> & -> & ->). now apply star_prev.
  - apply andb_prop in Hr. destruct Hr as [H1 H2].
    apply IH1; [assumption | | assumption]. intros d d' Hd. now apply IH2.
  - apply andb_prop in Hr. destruct Hr as [H1 H2].
    rewrite (IH1 H1 k k' Hk c c' Hc), (IH2 H2 k k' Hk c c' Hc). reflexivity.
  - rewrite (IH1 Hr k k' Hk c c' Hc), (Hk c c' Hc). reflexivity.
  - apply IH1; [assumption | | assumption]. intros d d' Hd.
    destruct Hc as (Ea & Ep & Eg). destruct Hd as (Da & Dp & Dg).
    rewrite Ea, Ep, Dp, Dg. apply Hk. now repeat split.
  - discriminate.
  - unfold at_eol. destruct Hc as (Ea & Ep & Eg). rewrite Ea.
    destruct (match ahead c' with [] => true | x :: _ => Py.eqc x newline end);
      [|reflexivity].
    apply Hk. now repeat split.
Qed.

Lemma match_at_prev (r : regex) (pv pv' : option char) (s : pystr) :
  anchor_free r = true -> match_at r pv s = match_at r pv' s.
Proof.
  intros Hr. unfold match_at. apply run_prev; [assumption | | now repeat split].
  intros c c' (Ea & Ep & Eg). unfold accept. now rewrite Ep, Eg.
Qed.

Lemma sub_from_prev (r : regex) (repl : rmatch -> pystr) (s : pystr) (n : nat)
    (pv pv' : option char) :
  anchor_free r = true -> sub_from r repl n pv s = sub_from r repl n pv' s.
Proof.
  intros Hr. revert n pv pv'. induction s as [|c s IH]; intros n pv pv'; simpl.
  - now rewrite (match_at_prev r pv pv' [] Hr).
  - rewrite (match_at_prev r pv pv' (c :: s) Hr). reflexivity.
Qed.

(** An attempt fails where the literal that opens the pattern is absent. *)
Lemma match_lit_fail (l : pystr) (r' : regex) (pv : option char) (s : pystr) :
  Py.startswith l s = false -> match_at (Seq (Lit l) r') pv s = None.
Proof. intros H. unfold match_at. simpl. now apply lit_fail. Qed.

(** No attempt succeeds where the first character of the pattern is absent. *)
Lemma dead_first_char (x : char) (l : pystr) (r' : regex) (pv : option char)
    (pre rest : pystr) :
  forallb (fun c => negb (Py.eqc c x)) pre = true ->
  dead (Seq (Lit (x :: l)) r') pv pre rest.
Proof.
  revert pv. induction pre as [|c pre IH]; intros pv H; [apply dead_nil|].
  simpl in H. apply andb_prop in H. destruct H as [Hc H].
  apply dead_cons; [|now apply IH].
  unfold match_at. simpl. unfold Py.eqc in *. rewrite N.eqb_sym.
  now destruct (c =? x)%N.
Qed.

(** ** What a match has consumed and captured *)

Lemma extends_refl (c : cursor) : extends c c.
Proof. split; [lia | auto]. Qed.

Lemma extends_trans (a b c : cursor) : extends a b -> extends b c -> extends a c.
Proof. intros [P1 G1] [P2 G2]. split; [lia | auto]. Qed.

Lemma lit_reaches (s : pystr) (k : conts) (pv : option char) (a : pystr) (n : nat)
    (g : list (nat * pystr)) (m : rmatch) :
  lit s k pv a n g = Some m ->
  exists c', pos c' = n + length s /\ groups c' = g /\ k c' = Some m.
Proof.
  revert pv a n. induction s as [|x s IH]; intros pv a n H; simpl in H.
  - eexists. repeat split; [| |exact H]; simpl; [lia | reflexivity].
  - destruct a as [|c a]; [discriminate|]. destruct (Py.eqc x c); [|discriminate].
    destruct (IH _ _ _ H) as (c' & P & G & K). exists c'. simpl. repeat split; [lia | |]; auto.
Qed.

Lemma star_reaches (gr : greed) (p : char -> bool) (k : conts) (pv : option char)
    (a : pystr) (n : nat) (g : list (nat * pystr)) (m : rmatch) :
  star gr p k pv a n g = Some m ->
  exists c', n <= pos c' /\ groups c' = g /\ k c' = Some m.
Proof.
  revert pv n. induction a as [|c a IH]; intros pv n H; simpl in H.
  - eexists. repeat split; [| |exact H]; simpl; [lia | reflexivity].
  - assert (Here : k (Cursor pv (c :: a) n g) = Some m ->
                   exists c', n <= pos c' /\ groups c' = g /\ k c' = Some m).
    { intros K. eexists. repeat split; [| |exact K]; simpl; [lia | reflexivity]. }
    assert (There : star gr p k (Some c) a (S n) g = Some m ->
                    exists c', n <= pos c' /\ groups c' = g /\ k c' = Some m).
    { intros K. destruct (IH _ _ K) as (c' & P & G & K'). exists c'.
      repeat split; [lia | |]; auto. }
    destruct (p c); [|now apply Here].
    destruct gr; unfold first_of in H.
    + destruct (star Greedy p k (Some c) a (S n) g) eqn:E; [apply There; congruence | now apply Here].
    + destruct (k (Cursor pv (c :: a) n g)) eqn:E; [apply Here; congruence | now apply There].
Qed.

Lemma group_of_cons (i j : nat) (s : pystr) (g : list (nat * pystr)) :
  group_of g i <> None -> group_of ((j, s) :: g) i <> None.
Proof. intros H. simpl. now destruct (Nat.eqb i j). Qed.

(** A match goes on from a cursor that is no earlier and has lost no group. *)
Lemma run_reaches (r : regex) (k : conts) (c : cursor) (m : rmatch) :
  run r k c = Some m -> exists c', extends c c' /\ k c' = Some m.
Proof.
  revert k c. induction r as [s|p|gr p|r1 IH1 r2 IH2|r1 IH1 r2 IH2|r1 IH1|i r1 IH1| |];
    intros k c H; simpl in H.
  - destruct (lit_reaches _ _ _ _ _ _ _ H) as (c' & P & G & K).
    exists c'. split; [|exact K]. split; [lia | now rewrite G].
  - destruct (ahead c) as [|x a]; [discriminate|]. destruct (p x); [|discriminate].
    eexists. split; [|exact H]. split; simpl; [lia | auto].
  - destruct (star_reaches _ _ _ _ _ _ _ _ H) as (c' & P & G & K).
    exists c'. split; [|exact K]. split; [lia | now rewrite G].
  - destruct (IH1 _ _ H) as (c1 & E1 & K1). destruct (IH2 _ _ K1) as (c2 & E2 & K2).
    exists c2. split; [now apply (extends_trans c c1 c2) | exact K2].
  - unfold first_of in H. destruct (run r1 k c) eqn:E.
    + apply IH1. congruence.
    + now apply IH2.
  - unfold first_of in H. destruct (run r1 k c) eqn:E.
    + apply IH1. congruence.
    + exists c. split; [apply extends_refl | exact H].
  - destruct (IH1 _ _ H) as (c1 & [P G] & K1). eexists. split; [|exact K1].
    split; simpl; [exact P|]. intros j Hj. apply group_of_cons. now apply G.
  - destruct (at_bol c); [|discriminate]. exists c. split; [apply extends_refl | exact H].
  - destruct (at_eol c); [|discriminate]. exists c. split; [apply extends_refl | exact H].
Qed.

Lemma run_consumes (r : regex) (k : conts) (c : cursor) (m : rmatch) :
  consumes r = true -> run r k c = Some m ->
  exists c', pos c < pos c' /\ k c' = Some m.
Proof.
  revert k c. induction r as [s|p|gr p|r1 IH1 r2 IH2|r1 IH1 r2 IH2|r1 IH1|i r1 IH1| |];
    intros k c C H; simpl in C, H; try discriminate.
  - destruct s as [|x s]; [discriminate|].
    destruct (lit_reaches _ _ _ _ _ _ _ H) as (c' & P & _ & K).
    exists c'. split; [simpl in P; lia | exact K].
  - destruct (ahead c) as [|x a]; [discriminate|]. destruct (p x); [|discriminate].
    eexists. split; [|exact H]. simpl. lia.
  - destruct (consumes r1) eqn:C1.
    + destruct (IH1 _ _ eq_refl H) as (c1 & P1 & K1).
      destruct (run_reaches _ _ _ _ K1) as (c2 & [P2 _] & K2).
      exists c2. split; [lia | exact K2].
    + simpl in C. destruct (run_reaches _ _ _ _ H) as (c1 & [P1 _] & K1).
      destruct (IH2 _ _ C K1) as (c2 & P2 & K2). exists c2. split; [lia | exact K2].
  - apply andb_prop in C. destruct C as [C1 C2].
    unfold first_of in H. destruct (run r1 k c) eqn:E.
    + apply (IH1 k c C1). congruence.
    + now apply (IH2 k c).
  - destruct (IH1 _ _ C H) as (c1 & P & K1). eexists. split; [|exact K1]. exact P.
Qed.

Lemma run_sets_group (i : nat) (r : regex) (k : conts) (c : cursor) (m : rmatch) :
  sets_group i r = true -> run r k c = Some m ->
  exists c', group_of (groups c') i <> None /\ k c' = Some m.
Proof.
  revert k c. induction r as [s|p|gr p|r1 IH1 r2 IH2|r1 IH1 r2 IH2|r1 IH1|j r1 IH1| |];
    intros k c C H; simpl in C, H; try discriminate.
  - destruct (sets_group i r1) eqn:C1.
    + destruct (IH1 _ _ eq_refl H) as (c1 & G1 & K1).
      destruct (run_reaches _ _ _ _ K1) as (c2 & [_ G2] & K2).
      exists c2. split; [now apply G2 | exact K2].
    + simpl in C. destruct (run_reaches _ _ _ _ H) as (c1 & _ & K1).
      now apply (IH2 _ _ C K1).
  - apply andb_prop in C. destruct C as [C1 C2].
    unfold first_of in H. destruct (run r1 k c) eqn:E.
    + apply (IH1 k c C1). congruence.
    + now apply (IH2 k c).
  - destruct (Nat.eqb i j) eqn:E.
    + destruct (run_reaches _ _ _ _ H) as (c1 & _ & K1). eexists. split; [|exact K1].
      simpl. now rewrite E.
    + simpl in C. destruct (IH1 _ _ C H) as (c1 & G1 & K1). eexists. split; [|exact K1].
      simpl. now rewrite E.
Qed.

(** A match of a pattern that consumes is not empty. *)
Lemma match_at_consumes (r : regex) (pv : option char) (s : pystr) (m : rmatch) :
  consumes r = true -> match_at r pv s = Some m -> 1 <= mlen m.
Proof.
  intros C H. destruct (run_consumes _ _ _ _ C H) as (c' & P & K).
  unfold accept in K. injection K as <-. simpl in *. lia.
Qed.

(** A match of a pattern that sets a group has that group. *)
Lemma match_at_group (i : nat) (r : regex) (pv : option char) (s : pystr) (m : rmatch) :
  sets_group i r = true -> match_at r pv s = Some m -> group m i <> None.
Proof.
  intros C H. destruct (run_sets_group _ _ _ _ _ C H) as (c' & G & K).
  unfold accept in K. injection K as <-. exact G.
Qed.

(** No pattern of the script matches the empty string, and group 1 is there
    wherever the script reads it. *)
Lemma script_patterns_consume : forallb consumes script_patterns = true.
Proof. reflexivity. Qed.

Lemma script_patterns_set_group_1 :
  forallb (sets_group 1) [title_re; tags_re; id_re; roamkey_re; link_re; image_re] = true.
Proof. reflexivity. Qed.

(** ** Links and images *)

Ltac literals :=
  repeat match goal with
         | |- context [u ?s] =>
             let v := eval vm_compute in (u s) in change (u s) with v
         end.

Lemma firstn_prefix (n : nat) (a b : pystr) : n = length a -> firstn n (a ++ b) = a.
Proof. intros ->. now rewrite firstn_app, firstn_all, Nat.sub_diag, firstn_0, app_nil_r. Qed.

(** A labeled link whose target and label have no closing bracket is
    matched whole: group 1 is the target, group 2 the label. *)
Lemma match_labelled_link (t l post : pystr) (pv : option char) :
  t <> [] -> forallb not_rbracket t = true ->
  l <> [] -> forallb not_rbracket l = true ->
  match_at link_re pv (u "[[" ++ t ++ u "][" ++ l ++ u "]]" ++ post)
  = Some (Match (length (u "[[" ++ t ++ u "][" ++ l ++ u "]]")) [(2, l); (1, t)]).
Proof.
  intros Ht Ft Hl Fl. destruct t as [|c t]; [congruence|]. destruct l as [|d l]; [congruence|].
  simpl in Ft, Fl. apply andb_prop in Ft, Fl. destruct Ft as [Fc Ft]. destruct Fl as [Fd Fl].
  unfold match_at, link_re, Plus. cbn [run prev ahead pos groups].
  rewrite lit_app. cbn [prev ahead pos groups app]. rewrite Fc.
  literals. cbn [app length lastc].
  change (t ++ 93%N :: 91%N :: d :: l ++ 93%N :: 93%N :: post)
    with (t ++ (93%N :: 91%N :: d :: l ++ 93%N :: 93%N :: post)).
  rewrite star_lazy_skip.
  - apply star_lazy_stop. cbn [prev ahead pos groups lit]. rewrite !eqc_refl.
    cbn [prev ahead pos groups]. rewrite Fd.
    change (l ++ 93%N :: 93%N :: post) with (l ++ (93%N :: 93%N :: post)).
    rewrite star_greedy_all with
      (m := Match (S (S (S (S (S (S (2 + length t + length l))))))) [(2, d :: l); (1, c :: t)]).
    + unfold first_of. f_equal. f_equal. rewrite !length_app. cbn [length]. rewrite !length_app. cbn [length]. lia.
    + exact Fl.
    + reflexivity.
    + cbn [prev ahead pos groups lit]. rewrite !eqc_refl. unfold accept. cbn [pos groups].
      f_equal. f_equal.
      f_equal; [f_equal | f_equal; f_equal].
      * apply (firstn_prefix _ (d :: l)). cbn [length]. lia.
      * apply (firstn_prefix _ (c :: t)). cbn [length]. lia.
  - exact Ft.
  - intros w1 x w2 E. cbn [prev ahead pos groups lit].
    assert (Hx : not_rbracket x = true).
    { rewrite forallb_forall in Ft. apply Ft. rewrite E. apply in_or_app. right. now left. }
    unfold not_rbracket in Hx. apply negb_true_iff in Hx.
    unfold Py.eqc in *. rewrite N.eqb_sym, Hx. reflexivity.
Qed.

(** Replacing what does not occur changes nothing. *)
Lemma replace_none (pat new s : pystr) (i : nat) :
  Py.find_from pat s i = None -> Py.replace_from pat new 0 s = s.
Proof.
  revert i. induction s as [|c s IH]; intros i H; [reflexivity|].
  cbn [Py.find_from] in H. cbn [Py.replace_from].
  destruct (Py.startswith pat (c :: s)); [discriminate|].
  now rewrite (IH (S i) H).
Qed.

Section Links.

Variable NFD : pystr -> pystr.
Hypothesis NFD_ascii_ok : preserves_ascii NFD.
Variable args : Args.
Variable title2id : dict.

(** Neither pattern matches where no opening bracket stands. *)
Lemma link_re_dead (pv : option char) (pre rest : pystr) :
  no_lbracket pre = true -> dead link_re pv pre rest.
Proof. intros H. apply dead_first_char. exact H. Qed.

Lemma image_re_dead (pv : option char) (pre rest : pystr) :
  no_lbracket pre = true -> dead image_re pv pre rest.
Proof. intros H. apply dead_first_char. exact H. Qed.

(** Link translation at a link that stands after text without an opening
    bracket. *)
Lemma convert_org_links_at (pre m post : pystr) (M : rmatch) :
  no_lbracket pre = true ->
  (forall pv, match_at link_re pv (m ++ post) = Some M) ->
  mlen M = length m -> m <> [] ->
  convert_org_links NFD args (pre ++ m ++ post) title2id
  = pre ++ link_repl NFD args title2id M ++ convert_org_links NFD args post title2id.
Proof.
  intros Hpre HM HL Hm. unfold convert_org_links, sub.
  rewrite sub_dead by (apply link_re_dead; exact Hpre).
  rewrite sub_match with (M := M); [| apply HM | exact HL | exact Hm].
  now rewrite (sub_from_prev link_re _ post 0 (lastc (lastc None pre) m) None).
Qed.

(** The matches at the references of the statements. *)
Lemma match_pic_link (pv : option char) (post : pystr) :
  match_at link_re pv (u "[[file:pic.png]]" ++ post)
  = Some (Match 16 [(1, u "file:pic.png")]).
Proof. vm_compute. reflexivity. Qed.

Lemma match_pic_image (pv : option char) (post : pystr) :
  match_at image_re pv (u "[[file:pic.png]]" ++ post)
  = Some (Match 16 [(1, u "pic.png")]).
Proof. vm_compute. reflexivity. Qed.

Lemma clean_filename_pic : clean_filename NFD (u "pic") = u "pic".
Proof.
  unfold clean_filename. rewrite NFD_ascii_ok by (vm_compute; reflexivity).
  vm_compute. reflexivity.
Qed.

Lemma link_repl_id (n : nat) (i l : pystr) :
  l <> [] -> Py.find (u "id:") i = None ->
  link_repl NFD args title2id (Match n [(2, l); (1, u "id:" ++ i)])
  = if zettlr args then u "[" ++ l ++ u "]([[" ++ i ++ u "]])"
    else u "[[" ++ i ++ u "|" ++ l ++ u "]]".
Proof.
  intros Hl Hi. destruct l as [|d l]; [congruence|].
  unfold link_repl, group_str, group. cbn [mgroups group_of Nat.eqb Py.or_else].
  replace (Py.startswith (u "id:") (u "id:" ++ i)) with true
    by (symmetry; apply startswith_app).
  replace (Py.replace (u "id:") [] (u "id:" ++ i)) with i; [reflexivity|].
  symmetry. unfold Py.replace. literals. cbn [app Py.replace_from Py.startswith length Nat.sub].
  rewrite !eqc_refl. cbn [andb app]. now apply (replace_none _ _ _ 0).
Qed.

Lemma link_repl_pic (n : nat) (g : list (nat * pystr)) :
  group_of g 1 = Some (u "file:pic.png") ->
  link_repl NFD args title2id (Match n g)
  = match dict_get title2id (u "pic") with
    | Some id_ => link_ref args id_ (Py.or_else (group_of g 2) (u "file:pic.png"))
    | None => u "[[" ++ Py.or_else (group_of g 2) (u "file:pic.png") ++ u "]]"
    end.
Proof.
  intros G. unfold link_repl, group_str, group. simpl mgroups. rewrite G.
  replace (Py.startswith (u "id:") (u "file:pic.png")) with false by (vm_compute; reflexivity).
  replace (Py.startswith (u "file:") (u "file:pic.png")) with true by (vm_compute; reflexivity).
  replace (Py.path_stem (Py.replace (u "file:") [] (u "file:pic.png"))) with (u "pic")
    by (vm_compute; reflexivity).
  rewrite clean_filename_pic. reflexivity.
Qed.

(** Image translation at a reference that stands after text without an
    opening bracket. *)
Lemma convert_images_at (pre m post : pystr) (M : rmatch) :
  no_lbracket pre = true ->
  (forall pv, match_at image_re pv (m ++ post) = Some M) ->
  mlen M = length m -> m <> [] ->
  convert_images (pre ++ m ++ post) = pre ++ image_repl M ++ convert_images post.
Proof.
  intros Hpre HM HL Hm. unfold convert_images, sub.
  rewrite sub_dead by (apply image_re_dead; exact Hpre).
  rewrite sub_match with (M := M); [| apply HM | exact HL | exact Hm].
  now rewrite (sub_from_prev image_re _ post 0 (lastc (lastc None pre) m) None).
Qed.

(** The image pass copies text in which no image reference starts. *)
Lemma convert_images_dead (x post : pystr) :
  (forall pv, dead image_re pv x post) ->
  convert_images (x ++ post) = x ++ convert_images post.
Proof.
  intros H. unfold convert_images, sub. rewrite sub_dead by apply H.
  now rewrite (sub_from_prev image_re _ post 0 (lastc None x) None).
Qed.

Lemma startswith_cons (x y : char) (p s : pystr) :
  Py.startswith (x :: p) (y :: s) = Py.eqc x y && Py.startswith p s.
Proof. reflexivity. Qed.

Lemma digit_neq (x d : char) :
  is_digit d = true -> is_digit x = false -> Py.eqc x d = false.
Proof.
  intros Hd Hx. unfold Py.eqc. destruct (N.eqb_spec x d); [subst; congruence | reflexivity].
Qed.

Lemma digits_no_lbracket (s : pystr) : forallb is_digit s = true -> no_lbracket s = true.
Proof.
  induction s as [|d s IH]; simpl; [reflexivity|]. intros H.
  apply andb_prop in H. destruct H as [Hd H]. rewrite (IH H), andb_true_r.
  unfold Py.eqc. rewrite N.eqb_sym. fold (Py.eqc 91%N d).
  now rewrite (digit_neq 91%N d Hd).
Qed.

Lemma image_dead_lbracket (pv : option char) (x post : pystr) :
  Py.startswith (u "[file:") (x ++ post) = false -> dead image_re (Some 91%N) x post ->
  dead image_re pv (91%N :: x) post.
Proof.
  intros Hx H. apply dead_cons; [|exact H].
  unfold image_re. apply match_lit_fail.
  revert Hx. literals. intros Hx. simpl app. rewrite !startswith_cons, Hx. reflexivity.
Qed.

(** C6: whatever the index holds, an identifier link [[id:i][l]] is
    rewritten to a reference made of [i] and [l] alone, in the style the
    command line asks for; the index plays no part in it.  So it is for
    [[id:123][Foo]], whether [123] is a key of the index or not.  The link
    stands after text without an opening bracket, and what follows it is
    rewritten on its own. *)
Theorem id_link_uses_its_identifier (pre post i l : pystr) :
  no_lbracket pre = true ->
  forallb not_rbracket i = true -> Py.find (u "id:") i = None ->
  l <> [] -> forallb not_rbracket l = true ->
  convert_org_links NFD args (pre ++ (u "[[id:" ++ i ++ u "][" ++ l ++ u "]]") ++ post)
    title2id
  = pre ++ (if zettlr args then u "[" ++ l ++ u "]([[" ++ i ++ u "]])"
            else u "[[" ++ i ++ u "|" ++ l ++ u "]]")
    ++ convert_org_links NFD args post title2id.
Proof.
  intros Hpre Fi Hi Hl Fl.
  replace (u "[[id:" ++ i ++ u "][" ++ l ++ u "]]")
    with (u "[[" ++ (u "id:" ++ i) ++ u "][" ++ l ++ u "]]") by reflexivity.
  rewrite convert_org_links_at
    with (M := Match (length (u "[[" ++ (u "id:" ++ i) ++ u "][" ++ l ++ u "]]"))
                 [(2, l); (1, u "id:" ++ i)]).
  - now rewrite link_repl_id.
  - exact Hpre.
  - intros pv.
    replace ((u "[[" ++ (u "id:" ++ i) ++ u "][" ++ l ++ u "]]") ++ post)
      with (u "[[" ++ (u "id:" ++ i) ++ u "][" ++ l ++ u "]]" ++ post)
      by (now rewrite <- !app_assoc).
    apply match_labelled_link; [discriminate | | exact Hl | exact Fl].
    rewrite forallb_app, Fi. reflexivity.
  - reflexivity.
  - discriminate.
Qed.

(** C7, as amended: where the index has no entry for [pic], the unlabeled
    image reference [[file:pic.png]] goes through link translation unchanged
    and image translation turns it into the embed [![](pic.png)].  The
    reference stands after text without an opening bracket, and what follows
    it is rewritten on its own. *)
Theorem image_reference_becomes_embed (pre post : pystr) :
  no_lbracket pre = true ->
  dict_get title2id (u "pic") = None ->
  convert_images (convert_org_links NFD args (pre ++ u "[[file:pic.png]]" ++ post) title2id)
  = pre ++ u "![](pic.png)" ++ convert_images (convert_org_links NFD args post title2id).
Proof.
  intros Hpre Hidx.
  rewrite convert_org_links_at with (M := Match 16 [(1, u "file:pic.png")]);
    [ | exact Hpre | intros pv; apply match_pic_link | reflexivity | discriminate ].
  rewrite link_repl_pic by reflexivity. rewrite Hidx.
  change (u "[[" ++ Py.or_else (group_of [(1, u "file:pic.png")] 2) (u "file:pic.png") ++ u "]]")
    with (u "[[file:pic.png]]").
  rewrite convert_images_at with (M := Match 16 [(1, u "pic.png")]);
    [ | exact Hpre | intros pv; apply match_pic_image | reflexivity | discriminate ].
  reflexivity.
Qed.

End Links.

(** ** Patterns anchored at the start of a line *)

Lemma startswith_nil_r (p : pystr) : Py.startswith p [] = true -> p = [].
Proof. destruct p; [reflexivity | discriminate]. Qed.

(** A prefix test looks at no more than the length of the prefix. *)
Lemma startswith_app_long (p s t : pystr) :
  length p <= length s -> Py.startswith p (s ++ t) = Py.startswith p s.
Proof.
  revert s. induction p as [|x p IH]; intros s L; [reflexivity|].
  destruct s as [|y s]; simpl in *; [lia|].
  rewrite IH by lia. reflexivity.
Qed.

(** A prefix that runs over the end of [s] contains every character of [s]. *)
Lemma startswith_over (key s t : pystr) :
  Py.startswith key (s ++ t) = true -> Py.startswith key s = false ->
  forall x, In x s -> In x key.
Proof.
  revert s. induction key as [|k key IH]; intros s H1 H2 x Hx; [discriminate|].
  destruct s as [|y s]; [contradiction|]. simpl in *.
  apply andb_prop in H1. destruct H1 as [E H1]. rewrite E in H2. simpl in H2.
  apply eqc_eq in E. subst y. destruct Hx as [->|Hx]; [now left|].
  right. now apply (IH s).
Qed.

Lemma no_line_starts_at (key : pystr) (pv : option char) (p1 : pystr) (c : char)
    (p2 : pystr) :
  no_line_starts_with key pv (p1 ++ c :: p2) = true ->
  bolb (lastc pv p1) = true -> Py.startswith key (c :: p2) = false.
Proof.
  revert pv. induction p1 as [|x p1 IH]; intros pv H B.
  - simpl in *. apply andb_prop in H. destruct H as [H _]. rewrite B in H.
    simpl in H. now destruct (Py.startswith key (c :: p2)).
  - simpl in H. apply andb_prop in H. destruct H as [_ H]. now apply (IH (Some x)).
Qed.

Lemma newline_free_notin (key : pystr) :
  forallb any_but_newline key = true -> ~ In newline key.
Proof.
  induction key as [|k key IH]; simpl; intros H; [tauto|].
  apply andb_prop in H. destruct H as [Hk H]. intros [->|Hin]; [|now apply IH].
  discriminate.
Qed.

(** No attempt of a pattern that opens with [^key] succeeds in text none of
    whose lines starts with [key], be it the end of the whole text or text
    that ends where a line starts. *)
Lemma dead_line_key (key : pystr) (r' : regex) (pv : option char) (pre rest : pystr) :
  forallb any_but_newline key = true ->
  no_line_starts_with key pv pre = true ->
  rest = [] \/ bolb (lastc pv pre) = true ->
  dead (Seq Bol (Seq (Lit key) r')) pv pre rest.
Proof.
  intros Hkey Hpre Hend p1 c p2 E. subst pre.
  unfold match_at. simpl. unfold at_bol. simpl.
  destruct (bolb (lastc pv p1)) eqn:B; [|reflexivity].
  apply lit_fail. pose proof (no_line_starts_at _ _ _ _ _ Hpre B) as F.
  destruct Hend as [->|L]; [now rewrite app_nil_r|].
  destruct (Py.startswith key (c :: p2 ++ rest)) eqn:Hs; [|reflexivity].
  exfalso. rewrite lastc_app in L. simpl in L.
  destruct (lastc (Some c) p2) as [x|] eqn:X; simpl in L.
  - apply eqc_eq in L. subst x. apply lastc_in in X.
    apply (newline_free_notin key Hkey).
    apply (startswith_over key (c :: p2) rest Hs F). exact X.
  - clear -X. revert c X. induction p2 as [|y p2 IH]; intros c X; simpl in X;
      [discriminate | now apply (IH y)].
Qed.

(** ** Property blocks *)

Lemma find_from_split (pat b t : pystr) (i : nat) :
  Py.find_from pat (b ++ t) i = Some (i + length b) ->
  forall w1 c w2, b = w1 ++ c :: w2 -> Py.startswith pat (c :: w2 ++ t) = false.
Proof.
  revert i. induction b as [|x b IH]; intros i H w1 c w2 E.
  - destruct w1; discriminate.
  - simpl app in H. cbn [Py.find_from] in H.
    destruct (Py.startswith pat (x :: b ++ t)) eqn:Hs.
    + injection H as H. simpl in H. lia.
    + destruct w1 as [|y w1]; simpl in E; injection E as -> E.
      * subst b. exact Hs.
      * apply (IH (S i)) with (w1 := w1); [|exact E].
        rewrite H. f_equal. simpl. lia.
Qed.

Lemma closes_split (body : pystr) :
  closes body = true ->
  forall w1 c w2 rest, body = w1 ++ c :: w2 ->
    Py.startswith (u ":END:") (c :: w2 ++ u ":END:" ++ rest) = false.
Proof.
  unfold closes, Py.find. intros H w1 c w2 rest E.
  destruct (Py.find_from (u ":END:") (body ++ u ":END:") 0) as [i|] eqn:F; [|discriminate].
  apply Nat.eqb_eq in H. subst i.
  pose proof (find_from_split _ _ _ 0 F w1 c w2 E) as X.
  change (c :: w2 ++ u ":END:" ++ rest) with ((c :: w2) ++ u ":END:" ++ rest).
  rewrite app_assoc, startswith_app_long; [exact X|].
  rewrite length_app. simpl. lia.
Qed.

(** A block at the start of a line is matched up to its end marker. *)
Lemma match_block (body rest : pystr) (pv : option char) :
  bolb pv = true -> closes body = true ->
  match_at properties_re pv (block body ++ rest)
  = Some (Match (length (block body)) []).
Proof.
  intros B C. unfold match_at, properties_re, block. cbn [run prev ahead pos groups].
  unfold at_bol. simpl prev. rewrite B.
  rewrite <- !app_assoc. rewrite lit_app. cbn [prev ahead pos groups].
  rewrite star_lazy_skip.
  - apply star_lazy_stop. cbn [prev ahead pos groups].
    rewrite lit_app. unfold accept. cbn [pos groups]. f_equal. f_equal.
    rewrite !length_app. lia.
  - clear. induction body; [reflexivity | assumption].
  - intros w1 c w2 E. cbn [prev ahead pos groups]. apply lit_fail.
    now apply (closes_split body C w1).
Qed.

Lemma lastc_block (body : pystr) (pv : option char) : lastc pv (block body) = Some 58%N.
Proof. unfold block. now rewrite !lastc_app. Qed.

Lemma block_not_nil (body : pystr) : block body <> [].
Proof. unfold block. literals. discriminate. Qed.

(** Every block is deleted, whatever their number. *)
Lemma strip_blocks (l : list (pystr * pystr)) (tail : pystr) (pv : option char) :
  blocks_ok pv l = true ->
  no_line_starts_with (u ":PROPERTIES:") (after_blocks pv l) tail = true ->
  sub_from properties_re (fun _ => []) 0 pv (with_blocks l tail)
  = concat (map fst l) ++ tail.
Proof.
  revert pv. induction l as [|[gap body] l IH]; intros pv Hl Ht;
    cbn [with_blocks blocks_ok after_blocks map concat fst] in *.
  - rewrite <- (app_nil_r tail) at 1. rewrite sub_dead.
    + simpl. destruct (match_at properties_re (lastc pv tail) []); apply app_nil_r.
    + apply dead_line_key; [reflexivity | exact Ht | now left].
  - apply andb_prop in Hl. destruct Hl as [Hl Hl'].
    apply andb_prop in Hl. destruct Hl as [Hg Hc].
    unfold gap_ok in Hg. apply andb_prop in Hg. destruct Hg as [Hg Hb].
    rewrite sub_dead by (apply dead_line_key; [reflexivity | exact Hg | now right]).
    rewrite sub_match with (M := Match (length (block body)) []);
      [ | now apply match_block | reflexivity | apply block_not_nil ].
    rewrite lastc_block. cbn [app]. rewrite <- app_assoc. f_equal.
    apply IH; [exact Hl'|]. now destruct l.
Qed.

(** C4, as amended: the substitution deletes every property block whose
    start marker opens a line, each from its start marker to the first end
    marker after it (the match is not greedy); of two or more disjoint
    blocks none remains, and the text between and after them is kept. *)
Theorem every_property_block_is_deleted (l : list (pystr * pystr)) (tail : pystr) :
  blocks_ok None l = true ->
  no_line_starts_with (u ":PROPERTIES:") (after_blocks None l) tail = true ->
  strip_properties (with_blocks l tail) = concat (map fst l) ++ tail.
Proof. intros Hl Ht. unfold strip_properties, sub. now apply strip_blocks. Qed.

(** C4, as stated, fails: of the two blocks of [two_blocks] the second does
    not remain either. *)
Lemma second_block_is_deleted_too :
  strip_properties two_blocks = text_of [u ""; u "first"; u ""; u "second"]
  /\ Py.find (u ":PROPERTIES:") (strip_properties two_blocks) = None.
Proof. split; vm_compute; reflexivity. Qed.

(** ** Header fields *)

(** The pattern of a header field whose value runs to the end of the line. *)
Lemma match_field (key ws v rest : pystr) (pv : option char) :
  bolb pv = true -> forallb Py.isspace ws = true ->
  trimmed v = true -> one_line v = true -> line_end rest = true ->
  match_at (Seq Bol (Seq (Lit key) (Seq (Star Greedy Py.isspace)
              (Seq (Grp 1 (Plus Greedy any_but_newline)) Eol))))
           pv (key ++ ws ++ v ++ rest)
  = Some (Match (length key + length ws + length v) [(1, v)]).
Proof.
  intros B Hws Hv Hl Hr. unfold match_at, Plus. cbn [run prev ahead pos groups].
  unfold at_bol. cbn [prev]. rewrite B. rewrite lit_app. cbn [prev ahead pos groups].
  destruct v as [|c v]; [discriminate|].
  unfold trimmed in Hv. apply andb_prop in Hv. destruct Hv as [Hc _].
  apply negb_true_iff in Hc.
  unfold one_line in Hl. simpl in Hl. apply andb_prop in Hl. destruct Hl as [Hcl Hl].
  apply star_greedy_all; [exact Hws | exact Hc |].
  cbn [prev ahead pos groups app]. rewrite Hcl.
  apply star_greedy_all; [exact Hl | |].
  - destruct rest as [|x rest]; [exact I|]. unfold line_end in Hr.
    unfold stops, any_but_newline. now rewrite Hr.
  - cbn [prev ahead pos groups]. unfold at_eol. cbn [ahead]. 
    replace (match rest with [] => true | x :: _ => Py.eqc x newline end) with true
      by (symmetry; exact Hr).
    unfold accept. cbn [pos groups]. f_equal. f_equal.
    + simpl. lia.
    + f_equal. f_equal.
      replace (S (0 + length key + length ws) + length v - (0 + length key + length ws))
        with (length (c :: v)) by (cbn [length]; lia).
      change (c :: v ++ rest) with ((c :: v) ++ rest).
      now rewrite firstn_app, firstn_all, Nat.sub_diag, firstn_0, app_nil_r.
Qed.

Lemma inline_space_isspace (ws : pystr) :
  forallb inline_space ws = true -> forallb Py.isspace ws = true.
Proof.
  induction ws as [|c ws IH]; simpl; [reflexivity|]. intros H.
  apply andb_prop in H. destruct H as [Hc H]. unfold inline_space in Hc.
  apply andb_prop in Hc. destruct Hc as [Hc _]. now rewrite Hc, IH.
Qed.

Lemma lstrip_id (c : char) (v : pystr) : Py.isspace c = false -> Py.lstrip (c :: v) = c :: v.
Proof. intros H. simpl. now rewrite H. Qed.

(** Stripping leaves a trimmed value as it is. *)
Lemma strip_trimmed (v : pystr) : trimmed v = true -> Py.strip v = v.
Proof.
  destruct v as [|c v]; [discriminate|]. unfold trimmed. intros H.
  apply andb_prop in H. destruct H as [Hc Hl]. apply negb_true_iff in Hc, Hl.
  unfold Py.strip, Py.rstrip.
  assert (E : exists w, rev (c :: v) = last (c :: v) c :: w).
  { destruct (@exists_last _ (c :: v)) as (w & x & E); [discriminate|].
    rewrite E. rewrite last_last, rev_unit. now exists (rev w). }
  destruct E as [w E]. rewrite E, (lstrip_id _ _ Hl), <- E, rev_involutive.
  now apply lstrip_id.
Qed.

Lemma match_at_end (key : pystr) (r' : regex) (pv : option char) :
  key <> [] -> match_at (Seq Bol (Seq (Lit key) r')) pv [] = None.
Proof.
  intros H. unfold match_at. cbn [run prev ahead pos groups]. unfold at_bol. cbn [prev].
  destruct (bolb pv); [|reflexivity]. destruct key; [congruence | reflexivity].
Qed.

(** A pattern that opens with [^key] finds nothing where no line starts
    with [key]. *)
Lemma search_no_line (key : pystr) (r' : regex) (content : pystr) :
  key <> [] -> forallb any_but_newline key = true ->
  no_line_starts_with key None content = true ->
  search (Seq Bol (Seq (Lit key) r')) content = None.
Proof.
  intros Hk Hn H. unfold search. apply search_none.
  - apply dead_line_key; [exact Hn | exact H | now left].
  - now apply match_at_end.
Qed.

Lemma trimmed_cons (v : pystr) : trimmed v = true -> exists c s, v = c :: s.
Proof. destruct v as [|c s]; [discriminate | now exists c, s]. Qed.

(** The pattern of a header field on a line whose value starts with a
    character that is not white space: the group is the rest of the line. *)
Lemma match_field_line (key ws : pystr) (c : char) (v rest : pystr) (pv : option char) :
  bolb pv = true -> forallb Py.isspace ws = true ->
  Py.isspace c = false -> one_line (c :: v) = true -> line_end rest = true ->
  match_at (Seq Bol (Seq (Lit key) (Seq (Star Greedy Py.isspace)
              (Seq (Grp 1 (Plus Greedy any_but_newline)) Eol))))
           pv (key ++ ws ++ (c :: v) ++ rest)
  = Some (Match (length key + length ws + length (c :: v)) [(1, c :: v)]).
Proof.
  intros B Hws Hc Hl Hr. unfold match_at, Plus. cbn [run prev ahead pos groups].
  unfold at_bol. cbn [prev]. rewrite B. rewrite lit_app. cbn [prev ahead pos groups].
  unfold one_line in Hl. simpl in Hl. apply andb_prop in Hl. destruct Hl as [Hcl Hl].
  apply star_greedy_all; [exact Hws | exact Hc |].
  cbn [prev ahead pos groups app]. rewrite Hcl.
  apply star_greedy_all; [exact Hl | |].
  - destruct rest as [|x rest]; [exact I|]. unfold line_end in Hr.
    unfold stops, any_but_newline. now rewrite Hr.
  - cbn [prev ahead pos groups]. unfold at_eol. cbn [ahead].
    replace (match rest with [] => true | x :: _ => Py.eqc x newline end) with true
      by (symmetry; exact Hr).
    unfold accept. cbn [pos groups]. f_equal. f_equal.
    + simpl. lia.
    + f_equal. f_equal.
      replace (S (0 + length key + length ws) + length v - (0 + length key + length ws))
        with (length (c :: v)) by (cbn [length]; lia).
      change (c :: v ++ rest) with ((c :: v) ++ rest).
      now rewrite firstn_app, firstn_all, Nat.sub_diag, firstn_0, app_nil_r.
Qed.

Lemma lstrip_spaces (ws s : pystr) :
  forallb Py.isspace ws = true -> Py.lstrip (ws ++ s) = Py.lstrip s.
Proof.
  induction ws as [|c ws IH]; [reflexivity|]. cbn [forallb app Py.lstrip]. intros H.
  apply andb_prop in H. destruct H as [Hc H]. rewrite Hc. now apply IH.
Qed.

(** Stripping takes the white space after a trimmed value away. *)
Lemma strip_padded (v ws : pystr) :
  trimmed v = true -> forallb Py.isspace ws = true -> Py.strip (v ++ ws) = v.
Proof.
  intros Hv Hws. rewrite <- (strip_trimmed v Hv) at 2.
  unfold Py.strip, Py.rstrip. rewrite rev_app_distr, lstrip_spaces; [reflexivity|].
  rewrite forallb_forall in *. intros x Hx. apply Hws. now apply in_rev.
Qed.

Lemma one_line_app (a b : pystr) :
  one_line a = true -> forallb inline_space b = true -> one_line (a ++ b) = true.
Proof.
  intros Ha Hb. unfold one_line in *. rewrite forallb_app, Ha. cbn [andb].
  rewrite forallb_forall in *. intros x Hx. apply Hb in Hx. unfold inline_space in Hx.
  apply andb_prop in Hx. tauto.
Qed.

(** The search for a header field finds the first line that starts with the
    key; the group is the value with the white space that follows it. *)
Lemma search_field (key content v : pystr) :
  forallb any_but_newline key = true ->
  declares key content v ->
  exists n ws',
    forallb Py.isspace ws' = true
    /\ search (Seq Bol (Seq (Lit key) (Seq (Star Greedy Py.isspace)
                 (Seq (Grp 1 (Plus Greedy any_but_newline)) Eol)))) content
       = Some (Match n [(1, v ++ ws')]).
Proof.
  intros Hk (pre & ws & ws' & rest & -> & Hs & Hp & Hws & Hv & Hl & Hws' & Hr).
  destruct (trimmed_cons v Hv) as (c & s & ->).
  exists (length key + length ws + length ((c :: s) ++ ws')), ws'.
  split; [now apply inline_space_isspace|]. unfold search.
  rewrite search_dead by (apply dead_line_key; [exact Hk | exact Hp | now right]).
  apply search_here.
  replace (key ++ ws ++ (c :: s) ++ ws' ++ rest)
    with (key ++ ws ++ (c :: s ++ ws') ++ rest)
    by (cbn [app]; now rewrite <- app_assoc).
  apply match_field_line.
  - exact Hs.
  - now apply inline_space_isspace.
  - unfold trimmed in Hv. apply andb_prop in Hv. destruct Hv as [Hc _].
    now apply negb_true_iff in Hc.
  - now apply (one_line_app (c :: s) ws').
  - exact Hr.
Qed.

Lemma parse_id (content v : pystr) :
  declares (u ":ID:") content v -> m_id (parse_org_frontmatter content) = Some v.
Proof.
  intros D. destruct (search_field (u ":ID:") content v eq_refl D) as (n & ws' & Hw & E).
  destruct D as (pre & ws & ws0 & rest & _ & _ & _ & _ & Hv & _).
  unfold parse_org_frontmatter. cbn [m_id].
  change (search id_re content) with
    (search (Seq Bol (Seq (Lit (u ":ID:")) (Seq (Star Greedy Py.isspace)
              (Seq (Grp 1 (Plus Greedy any_but_newline)) Eol)))) content).
  rewrite E. cbn [option_map]. unfold group_str, group. cbn [mgroups group_of Nat.eqb].
  rewrite (strip_padded v ws' Hv Hw). destruct (trimmed_cons v Hv) as (c & s & ->).
  reflexivity.
Qed.


(** ** Step 3 on one note *)

(** What the body of the loop of Step 3 does: it raises [KeyError] where
    the note has no identifier of its own and its cleaned title is no key
    of the index, and writes the note otherwise. *)
Lemma export_note_spec (NFD : pystr -> pystr) (args : Args) (title2id : dict)
    (path content : pystr) (st : state) :
  export_note NFD args title2id (path, content) tt st
  = match note_id NFD title2id path content with
    | Some id_ =>
        (inr tt,
         {| stdout := stdout st ++ note_log NFD args path (note_title path content);
            ticks := ticks st;
            written := written st
              ++ [(note_path NFD args (note_title path content),
                   Text (frontmatter_of (note_title path content) id_
                           (m_tags (parse_org_frontmatter content))
                         ++ note_body NFD args title2id content ++ [newline]))] |})
    | None => (inl (KeyError (clean_filename NFD (note_title path content))), st)
    end.
Proof.
  unfold export_note, note_id, note_log, note_path, note_body, note_title.
  cbn [fst snd fh_read].
  destruct (m_id (parse_org_frontmatter content)) as [[|c s]|];
    unfold bind, ret, dict_item, write_file, printv, print, raise;
    try destruct (dict_get title2id _); destruct (verbose args); cbn;
    rewrite ?app_nil_r; reflexivity.
Qed.



(** ** Tags *)

Lemma split_nosep (sep : char) (t : pystr) :
  forallb (fun c => negb (Py.eqc c sep)) t = true -> Py.split sep t = [t].
Proof.
  induction t as [|c t IH]; simpl; [reflexivity|]. intros H.
  apply andb_prop in H. destruct H as [Hc H]. apply negb_true_iff in Hc.
  now rewrite Hc, (IH H).
Qed.

Lemma split_app_sep (sep : char) (t s : pystr) :
  forallb (fun c => negb (Py.eqc c sep)) t = true ->
  Py.split sep (t ++ sep :: s) = t :: Py.split sep s.
Proof.
  induction t as [|c t IH]; simpl; intros H.
  - now rewrite eqc_refl.
  - apply andb_prop in H. destruct H as [Hc H]. apply negb_true_iff in Hc.
    now rewrite Hc, (IH H).
Qed.

Lemma tag_parts (t : pystr) :
  tag t = true ->
  t <> [] /\ forallb (fun c => negb (Py.isspace c)) t = true
  /\ forallb (fun c => negb (Py.eqc c 58%N)) t = true.
Proof.
  unfold tag. intros H. apply andb_prop in H. destruct H as [Ht H]. split.
  - destruct t; [discriminate | discriminate].
  - clear Ht. induction t as [|c t IH]; simpl in *; [now split|].
    apply andb_prop in H. destruct H as [Hc H]. apply andb_prop in Hc.
    destruct Hc as [H1 H2]. destruct (IH H) as [I1 I2]. now rewrite H1, H2, I1, I2.
Qed.

Lemma nospace_last (t : pystr) (d : char) :
  forallb (fun c => negb (Py.isspace c)) (d :: t) = true ->
  Py.isspace (last (d :: t) d) = false.
Proof.
  intros H. destruct (@exists_last _ (d :: t)) as (w & x & E); [discriminate|].
  rewrite E, last_last. rewrite forallb_forall in H.
  apply negb_true_iff, H. rewrite E. apply in_or_app. right. now left.
Qed.

Lemma tag_trimmed (t : pystr) : tag t = true -> trimmed t = true.
Proof.
  intros H. destruct (tag_parts t H) as (Hn & Hs & _).
  destruct t as [|d t]; [congruence|]. unfold trimmed.
  rewrite (nospace_last t d Hs). simpl in Hs. apply andb_prop in Hs.
  destruct Hs as [Hd _]. now rewrite Hd.
Qed.

Lemma nospace_one_line (t : pystr) :
  forallb (fun c => negb (Py.isspace c)) t = true -> one_line t = true.
Proof.
  unfold one_line. induction t as [|c t IH]; simpl; [reflexivity|]. intros H.
  apply andb_prop in H. destruct H as [Hc H]. rewrite (IH H), andb_true_r.
  unfold any_but_newline. destruct (Py.eqc c newline) eqn:E; [|reflexivity].
  apply eqc_eq in E. subst c. discriminate.
Qed.

(** The tags listed between colons are what splitting at the colons gives. *)
Lemma split_join_tags (tags : list pystr) :
  tags <> [] -> forallb tag tags = true ->
  Py.split 58%N (Py.join (u ":") tags) = tags.
Proof.
  induction tags as [|t tags IH]; [congruence|]. intros _ H.
  simpl in H. apply andb_prop in H. destruct H as [Ht H].
  destruct (tag_parts t Ht) as (_ & _ & Hc).
  destruct tags as [|t2 tags].
  - simpl. now apply split_nosep.
  - change (Py.join (u ":") (t :: t2 :: tags))
      with (t ++ 58%N :: Py.join (u ":") (t2 :: tags)).
    rewrite split_app_sep by exact Hc. f_equal. apply IH; [discriminate | exact H].
Qed.

Lemma join_tags_one_line (tags : list pystr) :
  forallb tag tags = true -> one_line (Py.join (u ":") tags) = true.
Proof.
  induction tags as [|t tags IH]; [reflexivity|]. intros H.
  simpl in H. apply andb_prop in H. destruct H as [Ht H].
  destruct (tag_parts t Ht) as (_ & Hs & _). apply nospace_one_line in Hs.
  destruct tags as [|t2 tags]; [exact Hs|].
  change (Py.join (u ":") (t :: t2 :: tags))
    with (t ++ 58%N :: Py.join (u ":") (t2 :: tags)).
  unfold one_line in *. rewrite forallb_app, Hs. simpl. now apply IH.
Qed.

Lemma join_tags_cons (tags : list pystr) :
  tags <> [] -> forallb tag tags = true ->
  exists c w, Py.join (u ":") tags = c :: w.
Proof.
  destruct tags as [|t tags]; [congruence|]. intros _ H.
  simpl in H. apply andb_prop in H. destruct H as [Ht _].
  destruct (tag_parts t Ht) as (Hn & _). destruct t as [|c t]; [congruence|].
  destruct tags as [|t2 tags]; [now exists c, t|].
  now exists c, (t ++ u ":" ++ Py.join (u ":") (t2 :: tags)).
Qed.

Lemma tags_kept (tags : list pystr) :
  forallb tag tags = true ->
  map Py.strip (filter (fun t => Py.truthy (Py.strip t)) tags) = tags.
Proof.
  induction tags as [|t tags IH]; [reflexivity|]. intros H.
  simpl in H. apply andb_prop in H. destruct H as [Ht H].
  pose proof (strip_trimmed t (tag_trimmed t Ht)) as E.
  destruct (tag_parts t Ht) as (Hn & _).
  simpl. rewrite E. destruct t as [|c t]; [congruence|]. simpl.
  now rewrite E, (IH H).
Qed.

(** The pattern of the tag line, on a line that lists its tags between
    colons: the group is what stands between the outer colons. *)
Lemma match_tags (ws g rest : pystr) (pv : option char) :
  bolb pv = true -> forallb Py.isspace ws = true ->
  g <> [] -> one_line g = true -> line_end rest = true ->
  exists n,
    match_at tags_re pv (u "#+filetags:" ++ ws ++ u ":" ++ g ++ u ":" ++ rest)
    = Some (Match n [(1, g)]).
Proof.
  intros B Hws Hg Hl Hr. destruct g as [|c w]; [congruence|].
  unfold one_line in Hl. simpl in Hl. apply andb_prop in Hl. destruct Hl as [Hc Hw].
  eexists. unfold match_at, tags_re, Plus. cbn [run prev ahead pos groups].
  unfold at_bol. cbn [prev]. rewrite B. rewrite lit_app. cbn [prev ahead pos groups].
  apply star_greedy_all; [exact Hws | reflexivity |].
  cbn [prev ahead pos groups]. literals. cbn [app lit]. rewrite eqc_refl.
  cbn [prev ahead pos groups]. rewrite Hc.
  match goal with |- first_of ?a _ = _ => assert (X : a = Some (Match (S (S (0 + 11 + length ws + length (c :: w)))) [(1, c :: w)])) end.
  2:{ rewrite X. reflexivity. }
  rewrite star_lazy_skip with (w := w) (a := 58%N :: rest).
  - apply star_lazy_stop. cbn [prev ahead pos groups lit]. rewrite eqc_refl.
    unfold at_eol. cbn [ahead]. unfold line_end in Hr. rewrite Hr.
    unfold first_of, accept. cbn [pos groups length]. f_equal. f_equal.
    + lia.
    + f_equal. f_equal.
      match goal with |- firstn ?n _ = _ =>
        replace n with (length (c :: w)) by (cbn [length]; lia) end.
      change (c :: w ++ 58%N :: rest) with ((c :: w) ++ 58%N :: rest).
      now rewrite firstn_app, firstn_all, Nat.sub_diag, firstn_0, app_nil_r.
  - exact Hw.
  - intros w1 x w2 E. cbn [prev ahead pos groups lit].
    assert (Hx : Py.eqc x newline = false).
    { rewrite forallb_forall in Hw. apply negb_true_iff.
      apply (Hw x). rewrite E. apply in_or_app. right. now left. }
    assert (Hn : at_eol (Cursor (Some x) (w2 ++ 58%N :: rest) 0 []) = false).
    { unfold at_eol. cbn [ahead]. destruct w2 as [|y w2]; [reflexivity|].
      rewrite forallb_forall in Hw. apply negb_true_iff.
      apply (Hw y). rewrite E. apply in_or_app. right. right. now left. }
    unfold at_eol in *. cbn [ahead] in *. rewrite Hx, Hn.
    now destruct (Py.eqc 58%N x).
Qed.

Lemma parse_tags (content : pystr) (tags : list pystr) :
  declares_tags content tags -> m_tags (parse_org_frontmatter content) = tags.
Proof.
  intros (pre & ws & rest & -> & Hs & Hp & Hws & Hn & Ht & Hr).
  destruct (join_tags_cons tags Hn Ht) as (c & w & Ej).
  destruct (match_tags ws (Py.join (u ":") tags) rest (lastc None pre)) as [n E];
    [ exact Hs | now apply inline_space_isspace | rewrite Ej; discriminate
    | now apply join_tags_one_line | exact Hr | ].
  unfold parse_org_frontmatter. cbn [m_tags]. unfold search.
  rewrite search_dead by (apply dead_line_key; [reflexivity | exact Hp | now right]).
  rewrite (search_here _ _ _ _ E).
  unfold group_str, group. cbn [mgroups group_of Nat.eqb].
  rewrite (split_join_tags tags Hn Ht). now apply tags_kept.
Qed.

Lemma parse_no_tags (content : pystr) :
  no_line_starts_with (u "#+filetags:") None content = true ->
  m_tags (parse_org_frontmatter content) = [].
Proof.
  intros H. unfold parse_org_frontmatter. cbn [m_tags].
  replace (search tags_re content) with (@None rmatch); [reflexivity|].
  symmetry. apply search_no_line; [discriminate | reflexivity | exact H].
Qed.

(** A note that has an identifier of its own or finds one in the index is
    written with the line [tags: [a, b]] in its front matter where its tag
    line declares the tags [a] and [b], in that order, and with a front
    matter of the [title] and [id] lines alone where it has no tag line, or
    one that yields no tag. *)
Lemma tags_line_when_written (NFD : pystr -> pystr) (args : Args) (title2id : dict)
    (path content id_ : pystr) (st : state) :
  note_id NFD title2id path content = Some id_ ->
  (forall a b, declares_tags content [a; b] ->
     export_note NFD args title2id (path, content) tt st
     = (inr tt,
        {| stdout := stdout st ++ note_log NFD args path (note_title path content);
           ticks := ticks st;
           written := written st
             ++ [(note_path NFD args (note_title path content),
                  Text (u "---" ++ [newline]
                        ++ (u "title: " ++ note_title path content ++ [newline])
                        ++ (u "id: " ++ id_ ++ [newline])
                        ++ (u "tags: [" ++ (a ++ u ", " ++ b) ++ u "]" ++ [newline])
                        ++ (u "---" ++ [newline; newline])
                        ++ note_body NFD args title2id content ++ [newline]))] |}))
  /\ (no_line_starts_with (u "#+filetags:") None content = true
      \/ m_tags (parse_org_frontmatter content) = [] ->
      export_note NFD args title2id (path, content) tt st
      = (inr tt,
         {| stdout := stdout st ++ note_log NFD args path (note_title path content);
            ticks := ticks st;
            written := written st
              ++ [(note_path NFD args (note_title path content),
                   Text (u "---" ++ [newline]
                         ++ (u "title: " ++ note_title path content ++ [newline])
                         ++ (u "id: " ++ id_ ++ [newline])
                         ++ (u "---" ++ [newline; newline])
                         ++ note_body NFD args title2id content ++ [newline]))] |})).
Proof.
  intros Hid. split.
  - intros a b D. rewrite export_note_spec, Hid, (parse_tags content [a; b] D).
    unfold frontmatter_of. cbn [Py.join]. rewrite <- !app_assoc. reflexivity.
  - intros H. assert (E : m_tags (parse_org_frontmatter content) = []).
    { destruct H as [H|H]; [now apply parse_no_tags | exact H]. }
    rewrite export_note_spec, Hid, E. unfold frontmatter_of.
    rewrite <- !app_assoc. reflexivity.
Qed.

(** ** The index *)

Lemma eqs_refl (s : pystr) : Py.eqs s s = true.
Proof. induction s as [|c s IH]; simpl; [reflexivity|]. now rewrite eqc_refl. Qed.

Lemma eqs_eq (a b : pystr) : Py.eqs a b = true -> a = b.
Proof.
  revert b. induction a as [|x a IH]; intros [|y b] H; simpl in H; try discriminate.
  - reflexivity.
  - apply andb_prop in H. destruct H as [E H]. apply eqc_eq in E. subst y.
    now rewrite (IH b H).
Qed.

Lemma dict_get_set (d : dict) (k v k' : pystr) :
  dict_get (dict_set d k v) k' = if Py.eqs k' k then Some v else dict_get d k'.
Proof.
  induction d as [|[k0 v0] d IH]; simpl.
  - reflexivity.
  - destruct (Py.eqs k k0) eqn:E; simpl.
    + apply eqs_eq in E. subst k0. now destruct (Py.eqs k' k).
    + rewrite IH. destruct (Py.eqs k' k0) eqn:E'; [|reflexivity].
      apply eqs_eq in E'. subst k0. destruct (Py.eqs k' k) eqn:E2; [|reflexivity].
      apply eqs_eq in E2. subst k'. now rewrite eqs_refl in E.
Qed.

Lemma digit_is_digit (n : N) : is_digit (digit n) = true.
Proof.
  unfold is_digit, digit. assert (H : (n mod 10 < 10)%N) by now apply N.mod_lt.
  apply andb_true_intro. split; apply N.leb_le; revert H; generalize (n mod 10)%N; intros m Hm; lia.
Qed.

(** The generated identifier is made of fourteen decimal digits. *)
Lemma strftime_token (d : datetime) : is_token (strftime d) = true.
Proof.
  unfold is_token, strftime, pad4, pad2. cbn [app length forallb Nat.eqb].
  now rewrite !digit_is_digit.
Qed.

Section Index.

Variable NFD : pystr -> pystr.
Variable args : Args.
Variable world : World.

(** What the body of the loop of Step 2 does: the text that it parses is
    empty, so the key is the cleaned stem of the file name and the value a
    generated identifier, whatever the note declares. *)
Lemma index_note_spec (f : pystr * pystr) (d : dict) (st : state) :
  index_note NFD args world f d st
  = (inr (dict_set d (clean_filename NFD (Py.path_stem (fst f))) (generated args world (fst f) st)),
     {| stdout := stdout st ++ [fst f; snd f];
        ticks := if creationdate args then ticks st else S (ticks st);
        written := written st |}).
Proof.
  unfold index_note, generated, create_id, fh_read, bind, print, now, ret.
  cbn [fst snd stdout ticks written].
  replace (parse_org_frontmatter []) with {| m_title := None; m_tags := []; m_id := None |}
    by (vm_compute; reflexivity).
  cbn [m_title m_id Py.or_else]. destruct (creationdate args); cbn;
    rewrite <- app_assoc; reflexivity.
Qed.

(** Step 2 never raises; its index holds generated identifiers only, has a
    key for the cleaned stem of every file, and nothing is written. *)
Lemma index_pass (files : list (pystr * pystr)) (d : dict) (st : state) :
  tokens d ->
  exists d' st',
    for_each files (index_note NFD args world) d st = (inr d', st')
    /\ tokens d'
    /\ written st' = written st
    /\ (forall k, dict_get d k <> None -> dict_get d' k <> None)
    /\ (forall f, In f files ->
          dict_get d' (clean_filename NFD (Py.path_stem (fst f))) <> None).
Proof.
  revert d st. induction files as [|f files IH]; intros d st Hd.
  - exists d, st. cbn. repeat split; auto; try (intros f []).
  - cbn [for_each]. unfold bind at 1. rewrite index_note_spec.
    set (d1 := dict_set d _ _). set (st1 := Build_state _ _ _).
    assert (H1 : tokens d1).
    { intros k v. unfold d1. rewrite dict_get_set.
      destruct (Py.eqs k _); [|apply Hd]. intros E. injection E as <-.
      apply strftime_token. }
    destruct (IH d1 st1 H1) as (d' & st' & E & T & W & K & F).
    exists d', st'. rewrite E. repeat split; [exact T | exact W | |].
    + intros k Hk. apply K. unfold d1. rewrite dict_get_set.
      destruct (Py.eqs k _); [discriminate | exact Hk].
    + intros g [<-|Hg]; [|now apply F]. apply K. unfold d1.
      rewrite dict_get_set, eqs_refl. discriminate.
Qed.

End Index.

(** A note with neither title nor identifier is written under the stem of its
    file name, with the identifier that Step 2 generated for that stem. *)
Lemma headerless_note_is_written (NFD : pystr -> pystr) (args : Args) (world : World)
    (files : list (pystr * pystr)) (st st1 : state) (idx : dict) (path content : pystr) :
  for_each files (index_note NFD args world) [] st = (inr idx, st1) ->
  In (path, content) files ->
  m_title (parse_org_frontmatter content) = None ->
  m_id (parse_org_frontmatter content) = None ->
  exists id_,
    note_id NFD idx path content = Some id_ /\ is_token id_ = true
    /\ note_title path content = Py.path_stem path.
Proof.
  intros E Hin Ht Hi.
  destruct (index_pass NFD args world files [] st) as (d' & st' & E' & T & _ & _ & F);
    [intros k v; discriminate|].
  rewrite E in E'. injection E' as <- <-.
  unfold note_id, note_title. rewrite Hi, Ht. cbn [Py.or_else].
  specialize (F (path, content) Hin). cbn [fst] in F.
  destruct (dict_get idx (clean_filename NFD (Py.path_stem path))) as [v|] eqn:G;
    [|congruence].
  exists v. repeat split. now apply (T _ _ G).
Qed.

(** ** The run *)

(** The run is Step 2, which never raises and leaves an index of generated
    identifiers with a key for the cleaned stem of every collected file,
    followed by Step 3 and Step 4 with that index. *)
Lemma main_steps (NFD : pystr -> pystr) (args : Args) (world : World)
    (walk : list file_entry) (st : state) :
  exists idx st1,
    tokens idx
    /\ written st1 = written st
    /\ (forall f, In f (collect walk) ->
          dict_get idx (clean_filename NFD (Py.path_stem (fst f))) <> None)
    /\ main NFD args world walk st
       = bind (for_each (collect walk) (export_note NFD args idx) tt)
           (fun _ =>
              bind (write_file (Py.path_join (output_folder args) (u "_title2id.csv"))
                      (Rows idx))
                (fun _ =>
                   printv args ([9989; 32]%N ++ u "Conversion complete! "
                                ++ Py.str_of_nat (length (collect walk))
                                ++ u " notes processed.")))
           st1.
Proof.
  unfold main. unfold bind at 1.
  destruct (printv args _ st) as [[e|[]] st0] eqn:E0.
  - unfold printv, print, ret in E0. destruct (verbose args); discriminate.
  - assert (W0 : written st0 = written st).
    { unfold printv, print, ret in E0. destruct (verbose args); injection E0 as <-; reflexivity. }
    destruct (index_pass NFD args world (collect walk) [] st0) as (idx & st1 & E & T & W & _ & F);
      [intros k v; discriminate|].
    exists idx, st1. repeat split; [exact T | congruence | exact F |].
    unfold bind at 1. rewrite E. reflexivity.
Qed.

(** C1 fails on the code: [note.org] declares the identifier [abc], which
    is the [id] of its front matter, and the link to it from [other.org] is
    rewritten with the identifier that Step 2 generated for the file; the
    index maps the stem of the file name to that generated identifier. *)
Theorem file_link_misses_declared_id :
  main NFD_ascii args0 world0 walk1 init
  = (inr tt,
     {| stdout := [u "notes/note.org"; fe_text (nth 0 walk1 (Build_file_entry [] [] []));
                   u "notes/other.org"; fe_text (nth 1 walk1 (Build_file_entry [] [] []))];
        ticks := 2;
        written :=
          [(u "out/note.md",
            Text (text_of [u "---"; u "title: note"; u "id: abc"; u "---"; u ""; u "body"]));
           (u "out/other.md",
            Text (text_of [u "---"; u "title: other"; u "id: 20251104120001"; u "---"; u "";
                           u "see [[20251104120000|Label]]"]));
           (u "out/_title2id.csv",
            Rows [(u "note", u "20251104120000"); (u "other", u "20251104120001")])] |}).
Proof. vm_compute. reflexivity. Qed.

(** C2 fails on the code: a note with a title and no identifier, in a file
    whose stem is not its title, ends the run with [KeyError]. *)
Theorem titled_note_without_id_aborts :
  main NFD_ascii args0 world0 walk2 init
  = (inl (KeyError (u "Foo")),
     {| stdout := [u "notes/bar.org"; text_of [u "#+title: Foo"]];
        ticks := 1;
        written := [] |}).
Proof. vm_compute. reflexivity. Qed.

(** C5 fails on the code: for the same note Step 2 generates an identifier
    under the key [bar], Step 3 looks for the key [Foo], finds none, and
    no front matter is written. *)
Theorem note_without_id_gets_no_front_matter :
  fst (for_each (collect walk2) (index_note NFD_ascii args0 world0) [] init)
  = inr [(u "bar", u "20251104120000")]
  /\ note_id NFD_ascii [(u "bar", u "20251104120000")]
       (u "notes/bar.org") (text_of [u "#+title: Foo"]) = None
  /\ written (snd (main NFD_ascii args0 world0 walk2 init)) = [].
Proof. repeat split; vm_compute; reflexivity. Qed.

(** C9 fails on the code: the note of [walk3] declares the tags [a] and
    [b] and has no identifier; Step 2 enters it under the key [bar], Step 3
    looks for the key [Foo], and the run ends with [KeyError] before any
    front matter is written, so that no [tags] line is written either. *)
Theorem tagged_note_without_id_gets_no_front_matter :
  declares_tags tagged_note [u "a"; u "b"]
  /\ m_tags (parse_org_frontmatter tagged_note) = [u "a"; u "b"]
  /\ main NFD_ascii args0 world0 walk3 init
     = (inl (KeyError (u "Foo")),
        {| stdout := [u "notes/bar.org"; tagged_note]; ticks := 1; written := [] |}).
Proof.
  split; [|split; vm_compute; reflexivity].
  exists (text_of [u "#+title: Foo"]), (u " "), ([newline] ++ text_of [u "text"]).
  repeat split; try reflexivity. discriminate.
Qed.

(** C8: two command lines that differ at most in [--tags] give the same
    run: the same messages, the same files with the same contents, the same
    index file, the same outcome. *)
Theorem tags_option_is_ignored (NFD : pystr -> pystr) (a1 a2 : Args) (world : World)
    (walk : list file_entry) (st : state) :
  input_folder a1 = input_folder a2 -> output_folder a1 = output_folder a2 ->
  creationdate a1 = creationdate a2 -> zettlr a1 = zettlr a2 ->
  verbose a1 = verbose a2 ->
  main NFD a1 world walk st = main NFD a2 world walk st.
Proof.
  destruct a1 as [i1 o1 t1 c1 z1 v1], a2 as [i2 o2 t2 c2 z2 v2]. cbn.
  intros -> -> -> -> ->. reflexivity.
Qed.

(** ** File names *)

Lemma replace_space (s : pystr) : Py.replace (u " ") (u "-") s = map hyphenate s.
Proof.
  unfold Py.replace. induction s as [|c s IH]; [reflexivity|].
  change (Py.replace_from (u " ") (u "-") 0 (c :: s))
    with (if Py.eqc 32%N c && true
          then 45%N :: Py.replace_from (u " ") (u "-") 0 s
          else c :: Py.replace_from (u " ") (u "-") 0 s).
  rewrite andb_true_r, IH. cbn [map]. unfold hyphenate, Py.eqc. rewrite (N.eqb_sym c 32%N).
  now destruct (32 =? c)%N.
Qed.

Lemma hyphenate_ascii (c : char) : is_ascii c = true -> is_ascii (hyphenate c) = true.
Proof. unfold hyphenate. now destruct (Py.eqc c 32%N). Qed.

Lemma hyphenate_not_space (c : char) : hyphenate c <> 32%N.
Proof.
  unfold hyphenate. destruct (Py.eqc c 32%N) eqn:E; [discriminate|].
  intros ->. discriminate.
Qed.

Lemma hyphenate_idem (c : char) : hyphenate (hyphenate c) = hyphenate c.
Proof.
  unfold hyphenate at 1. destruct (Py.eqc (hyphenate c) 32%N) eqn:E; [|reflexivity].
  apply eqc_eq in E. now apply hyphenate_not_space in E.
Qed.

Section FileNames.

Variable NFD : pystr -> pystr.

Lemma clean_filename_map (name : pystr) :
  clean_filename NFD name = map hyphenate (filter is_ascii (NFD name)).
Proof. unfold clean_filename. apply replace_space. Qed.

Lemma cleaned_is_ascii (name : pystr) :
  forallb is_ascii (clean_filename NFD name) = true.
Proof.
  rewrite clean_filename_map, forallb_forall. intros c Hc. apply in_map_iff in Hc.
  destruct Hc as (d & <- & Hd). apply filter_In in Hd. now apply hyphenate_ascii.
Qed.

(** X1: A cleaned name is all ASCII and has no space, whatever the name. *)
Theorem clean_filename_is_clean (name : pystr) :
  forallb is_ascii (clean_filename NFD name) = true
  /\ ~ In 32%N (clean_filename NFD name).
Proof.
  split; [apply cleaned_is_ascii|]. rewrite clean_filename_map.
  intros H. apply in_map_iff in H. destruct H as (d & E & _).
  now apply hyphenate_not_space in E.
Qed.

Hypothesis NFD_ascii_ok : preserves_ascii NFD.

Lemma filter_all (s : pystr) : forallb is_ascii s = true -> filter is_ascii s = s.
Proof.
  induction s as [|c s IH]; simpl; [reflexivity|]. intros H.
  apply andb_prop in H. destruct H as [Hc H]. now rewrite Hc, (IH H).
Qed.

(** X2: On a name that is all ASCII, cleaning only turns each space into a
    hyphen: the length is kept, and so is every other character. *)
Theorem clean_filename_ascii (name : pystr) :
  forallb is_ascii name = true -> clean_filename NFD name = map hyphenate name.
Proof.
  intros H. rewrite clean_filename_map, (NFD_ascii_ok name H). now rewrite filter_all.
Qed.

(** X3: Cleaning a cleaned name changes nothing. *)
Theorem clean_filename_idempotent (name : pystr) :
  clean_filename NFD (clean_filename NFD name) = clean_filename NFD name.
Proof.
  pose proof (cleaned_is_ascii name) as A.
  rewrite (clean_filename_map (clean_filename NFD name)), (NFD_ascii_ok _ A), (filter_all _ A).
  rewrite clean_filename_map, map_map.
  apply map_ext. intros c. apply hyphenate_idem.
Qed.

End FileNames.

(** ** The index, from the paths *)

Section IndexFold.

Variable NFD : pystr -> pystr.
Variable args : Args.
Variable world : World.

(** The loop of Step 2, in closed form. *)
Lemma step2_spec (files : list (pystr * pystr)) (d : dict) (st : state) :
  for_each files (index_note NFD args world) d st
  = (inr (index_fold NFD args world (map fst files) (ticks st) d),
     {| stdout := stdout st ++ shown files;
        ticks := ticks st + (if creationdate args then 0 else length files);
        written := written st |}).
Proof.
  revert d st. induction files as [|f files IH]; intros d st.
  - cbn. unfold ret, shown. cbn. rewrite app_nil_r. destruct st as [o t w]. cbn.
    destruct (creationdate args); now rewrite Nat.add_0_r.
  - cbn [for_each]. unfold bind at 1. rewrite index_note_spec, IH.
    cbn [stdout ticks written map length index_fold]. unfold generated, stem_key, shown.
    cbn [map concat]. rewrite <- app_assoc. cbn [app].
    destruct (creationdate args); [reflexivity | now rewrite Nat.add_succ_r].
Qed.

(** X5: Step 2 never raises and writes no file. It prints the path and the
    text of every file, reads the clock once for each file (and not at all
    under [--creationdate]), and the index that it builds is a function of
    the paths: the text of the notes plays no part in it. *)
Theorem step2_builds_index_from_paths (files : list (pystr * pystr)) (d : dict)
    (st : state) :
  for_each files (index_note NFD args world) d st
  = (inr (index_fold NFD args world (map fst files) (ticks st) d),
     {| stdout := stdout st ++ shown files;
        ticks := ticks st + (if creationdate args then 0 else length files);
        written := written st |}).
Proof. apply step2_spec. Qed.

(** X6: Two trees with the same paths give the same index, whatever the
    notes contain. *)
Theorem index_ignores_text (files files' : list (pystr * pystr)) (st st' : state) :
  map fst files = map fst files' -> ticks st = ticks st' ->
  fst (for_each files (index_note NFD args world) [] st)
  = fst (for_each files' (index_note NFD args world) [] st').
Proof.
  intros E T. rewrite !step2_spec. cbn [fst]. now rewrite E, T.
Qed.

Lemma eqs_neq (a b : pystr) : a <> b -> Py.eqs a b = false.
Proof.
  intros H. destruct (Py.eqs a b) eqn:E; [|reflexivity]. now apply eqs_eq in E.
Qed.

Lemma dict_set_keys (d : dict) (k v : pystr) :
  NoDup (map fst d) -> NoDup (map fst (dict_set d k v))
  /\ forall x, In x (map fst (dict_set d k v)) <-> x = k \/ In x (map fst d).
Proof.
  induction d as [|[k0 v0] d IH]; intros N.
  - cbn. split; [constructor; [tauto | constructor] | intros x; intuition].
  - cbn [dict_set]. destruct (Py.eqs k k0) eqn:E.
    + apply eqs_eq in E. subst k0. cbn in *. split; [exact N | intros x; intuition].
    + inversion N as [|? ? N1 N2]; subst. destruct (IH N2) as [I1 I2]. cbn. split.
      * constructor; [|exact I1]. intros H. apply I2 in H. destruct H as [->|H];
          [now rewrite eqs_refl in E | contradiction].
      * intros x. rewrite I2. intuition.
Qed.

Lemma dict_get_key (d : dict) (k : pystr) :
  dict_get d k <> None <-> In k (map fst d).
Proof.
  induction d as [|[k0 v0] d IH]; cbn; [tauto|].
  destruct (Py.eqs k k0) eqn:E.
  - apply eqs_eq in E. subst. split; [now left | discriminate].
  - rewrite IH. split; [now right|]. intros [->|H]; [now rewrite eqs_refl in E | exact H].
Qed.

Lemma index_fold_keys (paths : list pystr) (n : nat) (d : dict) :
  NoDup (map fst d) ->
  NoDup (map fst (index_fold NFD args world paths n d))
  /\ forall x, In x (map fst (index_fold NFD args world paths n d))
               <-> In x (map (stem_key NFD) paths) \/ In x (map fst d).
Proof.
  revert n d. induction paths as [|p ps IH]; intros n d N; cbn [index_fold map].
  - split; [exact N | intros x; cbn; tauto].
  - destruct (dict_set_keys d (stem_key NFD p)
                (strftime (if creationdate args then stat_time world p else wall_clock world n))
                N) as [N1 K1].
    destruct (IH (if creationdate args then n else S n) _ N1) as [N2 K2].
    split; [exact N2|]. intros x. rewrite K2, K1. cbn. intuition.
Qed.

Lemma index_has_stem (paths : list pystr) (n : nat) (k : pystr) :
  dict_get (index_fold NFD args world paths n []) k <> None
  <-> In k (map (stem_key NFD) paths).
Proof.
  destruct (index_fold_keys paths n [] (NoDup_nil _)) as [_ K].
  rewrite dict_get_key, K. cbn. tauto.
Qed.

(** X7: The keys of the index are the cleaned stems of the file names, each
    once: files whose cleaned stems are equal share one entry, and the index
    has no more entries than there are files. *)
Theorem index_keys_are_stems (paths : list pystr) (n : nat) :
  let idx := index_fold NFD args world paths n [] in
  NoDup (map fst idx)
  /\ (forall k, dict_get idx k <> None <-> In k (map (stem_key NFD) paths))
  /\ length idx <= length paths.
Proof.
  intros idx. destruct (index_fold_keys paths n [] (NoDup_nil _)) as [N K].
  fold idx in N, K. split; [exact N|]. split.
  - intros k. apply index_has_stem.
  - rewrite <- (length_map fst idx), <- (length_map (stem_key NFD) paths).
    apply NoDup_incl_length; [exact N|]. intros x Hx. apply K in Hx. cbn in Hx. tauto.
Qed.

Lemma index_fold_app (p1 p2 : list pystr) (n : nat) (d : dict) :
  index_fold NFD args world (p1 ++ p2) n d
  = index_fold NFD args world p2 (if creationdate args then n else n + length p1)
      (index_fold NFD args world p1 n d).
Proof.
  revert n d. induction p1 as [|p p1 IH]; intros n d; cbn [app index_fold length].
  - destruct (creationdate args); [reflexivity | now rewrite Nat.add_0_r].
  - rewrite IH. destruct (creationdate args); [reflexivity|].
    now rewrite Nat.add_succ_r.
Qed.

Lemma index_fold_other (paths : list pystr) (n : nat) (d : dict) (k : pystr) :
  ~ In k (map (stem_key NFD) paths) ->
  dict_get (index_fold NFD args world paths n d) k = dict_get d k.
Proof.
  revert n d. induction paths as [|p ps IH]; intros n d H; cbn [index_fold]; [reflexivity|].
  cbn in H. rewrite IH by tauto. rewrite dict_get_set.
  rewrite eqs_neq; [reflexivity|]. intros ->. tauto.
Qed.

(** X8: Where several files have the same cleaned stem, the last one met
    gives the entry: the identifier generated when that file was reached. *)
Theorem index_last_file_wins (before after : list pystr) (p : pystr) (n : nat) :
  ~ In (stem_key NFD p) (map (stem_key NFD) after) ->
  dict_get (index_fold NFD args world (before ++ p :: after) n []) (stem_key NFD p)
  = Some (strftime (if creationdate args then stat_time world p
                    else wall_clock world (n + length before))).
Proof.
  intros H. rewrite index_fold_app. cbn [index_fold].
  rewrite index_fold_other by exact H. rewrite dict_get_set, eqs_refl.
  now destruct (creationdate args).
Qed.

(** Every identifier of the index is a generated one. *)
Lemma index_fold_tokens (paths : list pystr) (n : nat) (d : dict) :
  tokens d -> tokens (index_fold NFD args world paths n d).
Proof.
  revert n d. induction paths as [|p ps IH]; intros n d T; cbn [index_fold]; [exact T|].
  apply IH. intros k v. rewrite dict_get_set. destruct (Py.eqs k _); [|apply T].
  intros E. injection E as <-. apply strftime_token.
Qed.

End IndexFold.

(** ** The run, in closed form *)

Section Run.

Variable NFD : pystr -> pystr.
Variable args : Args.
Variable world : World.

(** The loop of Step 3, in closed form. *)
Lemma step3_spec (title2id : dict) (files : list (pystr * pystr)) (st : state) :
  for_each files (export_note NFD args title2id) tt st
  = match exported NFD args title2id files with
    | (w, o, e) =>
        (match e with None => inr tt | Some k => inl (KeyError k) end,
         {| stdout := stdout st ++ o; ticks := ticks st; written := written st ++ w |})
    end.
Proof.
  revert st. induction files as [|f files IH]; intros st.
  - cbn. unfold ret. rewrite !app_nil_r. now destruct st.
  - cbn [for_each exported]. unfold bind at 1. destruct f as [path content].
    rewrite export_note_spec. cbn [fst snd].
    destruct (note_id NFD title2id path content) as [id_|].
    + rewrite IH. destruct (exported NFD args title2id files) as [[w o] e].
      cbn [stdout ticks written]. unfold note_file. cbn [fst snd].
      now rewrite <- !app_assoc.
    + rewrite !app_nil_r. now destruct st.
Qed.

(** X10: Step 3 writes the notes in order until one has no identifier to be
    found, and then raises [KeyError] with the files written so far left in
    place; it never reads the clock. *)
Theorem step3_writes_until_key_error (title2id : dict) (files : list (pystr * pystr))
    (st : state) :
  for_each files (export_note NFD args title2id) tt st
  = match exported NFD args title2id files with
    | (w, o, e) =>
        (match e with None => inr tt | Some k => inl (KeyError k) end,
         {| stdout := stdout st ++ o; ticks := ticks st; written := written st ++ w |})
    end.
Proof. apply step3_spec. Qed.

(** [main], in closed form. *)
Lemma main_spec (walk : list file_entry) (st : state) :
  let files := collect walk in
  let idx := index_fold NFD args world (map fst files) (ticks st) [] in
  main NFD args world walk st
  = match exported NFD args idx files with
    | (w, o, e) =>
        let ticks' := ticks st + (if creationdate args then 0 else length files) in
        match e with
        | None =>
            (inr tt,
             {| stdout := stdout st ++ banner args ++ shown files ++ o
                          ++ farewell args (length files);
                ticks := ticks';
                written := written st ++ w
                  ++ [(Py.path_join (output_folder args) (u "_title2id.csv"), Rows idx)] |})
        | Some k =>
            (inl (KeyError k),
             {| stdout := stdout st ++ banner args ++ shown files ++ o;
                ticks := ticks';
                written := written st ++ w |})
        end
    end.
Proof.
  intros files idx. unfold main. fold files.
  unfold bind at 1.
  assert (B : printv args (u "Converting Org-roam notes from " ++ input_folder args
                           ++ [32; 8594; 32]%N ++ output_folder args) st
              = (inr tt, {| stdout := stdout st ++ banner args; ticks := ticks st;
                            written := written st |})).
  { unfold printv, print, ret, banner. destruct (verbose args); [reflexivity|].
    rewrite app_nil_r. now destruct st. }
  rewrite B. unfold bind at 1. rewrite step2_spec.
  cbn [stdout ticks written]. fold idx.
  unfold bind at 1. rewrite step3_spec.
  destruct (exported NFD args idx files) as [[w o] e]. cbn [stdout ticks written].
  destruct e as [k|].
  - now rewrite <- !app_assoc.
  - unfold bind, write_file, printv, print, ret, farewell. cbn [stdout ticks written].
    destruct (verbose args); cbn [stdout ticks written];
      rewrite <- ?app_assoc, ?app_nil_r; reflexivity.
Qed.

(** X11: The whole run: it ends with [KeyError] for the first note that has
    no identifier to be found, with the notes before it written and no index
    file; otherwise every collected note is written, in order, and the index
    file last. *)
Theorem main_in_closed_form (walk : list file_entry) (st : state) :
  let files := collect walk in
  let idx := index_fold NFD args world (map fst files) (ticks st) [] in
  main NFD args world walk st
  = match exported NFD args idx files with
    | (w, o, e) =>
        let ticks' := ticks st + (if creationdate args then 0 else length files) in
        match e with
        | None =>
            (inr tt,
             {| stdout := stdout st ++ banner args ++ shown files ++ o
                          ++ farewell args (length files);
                ticks := ticks';
                written := written st ++ w
                  ++ [(Py.path_join (output_folder args) (u "_title2id.csv"), Rows idx)] |})
        | Some k =>
            (inl (KeyError k),
             {| stdout := stdout st ++ banner args ++ shown files ++ o;
                ticks := ticks';
                written := written st ++ w |})
        end
    end.
Proof. apply main_spec. Qed.

Lemma exported_quiet (title2id : dict) (files : list (pystr * pystr)) :
  verbose args = false -> snd (fst (exported NFD args title2id files)) = [].
Proof.
  intros V. induction files as [|f files IH]; [reflexivity|]. cbn [exported].
  destruct (note_id NFD title2id (fst f) (snd f)); [|reflexivity].
  destruct (exported NFD args title2id files) as [[w o] e]. cbn in *.
  unfold note_log. now rewrite V, IH.
Qed.

(** X12: Without [--verbose] the run still prints the path and the whole
    text of every collected note, and nothing else, whether it completes or
    not. *)
Theorem quiet_run_prints_every_note (walk : list file_entry) (st : state) :
  verbose args = false ->
  stdout (snd (main NFD args world walk st)) = stdout st ++ shown (collect walk).
Proof.
  intros V. rewrite main_spec.
  pose proof (exported_quiet
                (index_fold NFD args world (map fst (collect walk)) (ticks st) [])
                (collect walk) V) as Q.
  destruct (exported NFD args _ (collect walk)) as [[w o] e]. cbn in Q. subst o.
  unfold banner, farewell. rewrite V. destruct e; cbn; now rewrite ?app_nil_r.
Qed.

Lemma exported_all (title2id : dict) (files : list (pystr * pystr)) :
  (forall f, In f files -> note_id NFD title2id (fst f) (snd f) <> None) ->
  snd (exported NFD args title2id files) = None
  /\ length (fst (fst (exported NFD args title2id files))) = length files.
Proof.
  induction files as [|f files IH]; intros H; [now split|]. cbn [exported].
  destruct (note_id NFD title2id (fst f) (snd f)) eqn:E.
  - destruct IH as [I1 I2]; [intros g Hg; apply H; now right|].
    destruct (exported NFD args title2id files) as [[w o] e]. cbn in *. now rewrite I2.
  - exfalso. apply (H f); [now left | exact E].
Qed.

Lemma parse_no_title (content : pystr) :
  no_line_starts_with (u "#+title:") None content = true ->
  m_title (parse_org_frontmatter content) = None.
Proof.
  intros H. unfold parse_org_frontmatter. cbn [m_title].
  replace (search title_re content) with (@None rmatch); [reflexivity|].
  symmetry. apply search_no_line; [discriminate | reflexivity | exact H].
Qed.

Lemma parse_no_id (content : pystr) :
  no_line_starts_with (u ":ID:") None content = true ->
  no_line_starts_with (u "#+roam_key:") None content = true ->
  m_id (parse_org_frontmatter content) = None.
Proof.
  intros H1 H2. unfold parse_org_frontmatter. cbn [m_id].
  replace (search id_re content) with (@None rmatch)
    by (symmetry; apply search_no_line; [discriminate | reflexivity | exact H1]).
  replace (search roamkey_re content) with (@None rmatch)
    by (symmetry; apply search_no_line; [discriminate | reflexivity | exact H2]).
  reflexivity.
Qed.

(** A self-contained note finds its identifier in any index that has the
    cleaned stem of its file name for a key. *)
Lemma self_contained_resolves (title2id : dict) (path content : pystr) :
  self_contained content ->
  dict_get title2id (stem_key NFD path) <> None ->
  note_id NFD title2id path content <> None.
Proof.
  intros [[v D]|(T & I & R)] K; unfold note_id.
  - rewrite (parse_id content v D).
    destruct D as (_ & _ & _ & _ & _ & _ & _ & _ & Hv & _).
    destruct (trimmed_cons v Hv) as (c & s & ->). discriminate.
  - rewrite (parse_no_id content I R). unfold note_title.
    rewrite (parse_no_title content T). exact K.
Qed.

(** X13: In a tree all of whose notes are self-contained every note finds
    an identifier in Step 3, its own or that of the index of Step 2, and
    the run does not end with [KeyError]. *)
Theorem self_contained_notes_raise_no_key_error (walk : list file_entry) (st : state) :
  (forall f, In f (collect walk) -> self_contained (snd f)) ->
  (forall idx, fst (for_each (collect walk) (index_note NFD args world) [] st) = inr idx ->
     forall f, In f (collect walk) -> note_id NFD idx (fst f) (snd f) <> None)
  /\ forall k, fst (main NFD args world walk st) <> inl (KeyError k).
Proof.
  intros H.
  assert (R : forall f, In f (collect walk) ->
                note_id NFD (index_fold NFD args world (map fst (collect walk)) (ticks st) [])
                  (fst f) (snd f) <> None).
  { intros f Hf. apply self_contained_resolves; [now apply H|].
    apply (index_has_stem NFD args world). apply in_map, in_map, Hf. }
  split.
  - intros idx E. rewrite step2_spec in E. cbn [fst] in E. injection E as <-. exact R.
  - intros k. rewrite main_spec.
    destruct (exported_all (index_fold NFD args world (map fst (collect walk)) (ticks st) [])
                (collect walk) R) as [E _].
    destruct (exported NFD args _ (collect walk)) as [[w o] e]. cbn in E. subst e.
    discriminate.
Qed.

End Run.

(** ** Links of every kind *)

Lemma startswith_split (p s : pystr) :
  Py.startswith p s = true -> exists r, s = p ++ r.
Proof.
  revert s. induction p as [|x p IH]; intros s H; [now exists s|].
  destruct s as [|y s]; [discriminate|]. simpl in H. apply andb_prop in H.
  destruct H as [E H]. apply eqc_eq in E. subst y.
  destruct (IH s H) as [r ->]. now exists r.
Qed.

Lemma startswith_app_same (a b s : pystr) :
  Py.startswith (a ++ b) (a ++ s) = Py.startswith b s.
Proof. induction a as [|x a IH]; [reflexivity|]. simpl. now rewrite eqc_refl. Qed.

Lemma lit_lit_fail (s1 s2 : pystr) (k : conts) (pv : option char) (a : pystr)
    (n : nat) (g : list (nat * pystr)) :
  Py.startswith (s1 ++ s2) a = false ->
  lit s1 (fun c => lit s2 k (prev c) (ahead c) (pos c) (groups c)) pv a n g = None.
Proof.
  intros H. destruct (Py.startswith s1 a) eqn:H1; [|now apply lit_fail].
  destruct (startswith_split _ _ H1) as [r ->]. rewrite lit_app. cbn [prev ahead pos groups].
  apply lit_fail. now rewrite startswith_app_same in H.
Qed.

(** [re.match] of the web address pattern succeeds exactly on the two
    prefixes. *)
Lemma url_match (t : pystr) :
  rematch url_re t = None
  <-> Py.startswith (u "http://") t = false /\ Py.startswith (u "https://") t = false.
Proof.
  unfold rematch, match_at, url_re. cbn [run prev ahead pos groups].
  destruct (Py.startswith (u "http") t) eqn:H.
  - destruct (startswith_split _ _ H) as [r ->]. rewrite lit_app.
    cbn [prev ahead pos groups].
    change (u "http://") with (u "http" ++ u "://").
    change (u "https://") with (u "http" ++ u "s://").
    rewrite !startswith_app_same.
    destruct (Py.startswith (u "s://") r) eqn:H1.
    + destruct (startswith_split _ _ H1) as [r' ->].
      change (u "s://" ++ r') with (u "s" ++ u "://" ++ r').
      rewrite lit_app. cbn [prev ahead pos groups]. rewrite lit_app. unfold first_of, accept.
      split; [discriminate | intros [_ X]; discriminate].
    + rewrite lit_lit_fail by exact H1.
      unfold first_of. destruct (Py.startswith (u "://") r) eqn:H2.
      * destruct (startswith_split _ _ H2) as [r' ->]. rewrite lit_app.
        unfold accept. split; [discriminate | intros [X _]; discriminate].
      * rewrite (lit_fail accept _ _ _ _ _ H2). now split.
  - rewrite (lit_fail _ _ _ _ _ _ H). split; [intros _|reflexivity].
    change (u "http://") with (u "http" ++ u "://").
    change (u "https://") with (u "http" ++ u "s://").
    split.
    + destruct (Py.startswith (u "http" ++ u "://") t) eqn:X; [|reflexivity].
      destruct (startswith_split _ _ X) as [r ->]. rewrite <- app_assoc in H.
      now rewrite startswith_app in H.
    + destruct (Py.startswith (u "http" ++ u "s://") t) eqn:X; [|reflexivity].
      destruct (startswith_split _ _ X) as [r ->]. rewrite <- app_assoc in H.
      now rewrite startswith_app in H.
Qed.

(** An unlabeled link whose target has no closing bracket is matched
    whole, with no second group. *)
Lemma match_unlabelled_link (t post : pystr) (pv : option char) :
  t <> [] -> forallb not_rbracket t = true ->
  match_at link_re pv (u "[[" ++ t ++ u "]]" ++ post)
  = Some (Match (length (u "[[" ++ t ++ u "]]")) [(1, t)]).
Proof.
  intros Ht Ft. destruct t as [|c t]; [congruence|].
  simpl in Ft. apply andb_prop in Ft. destruct Ft as [Fc Ft].
  unfold match_at, link_re, Plus. cbn [run prev ahead pos groups].
  rewrite lit_app. cbn [prev ahead pos groups app]. rewrite Fc.
  literals. cbn [app length lastc].
  change (t ++ 93%N :: 93%N :: post) with (t ++ (93%N :: 93%N :: post)).
  rewrite star_lazy_skip.
  - apply star_lazy_stop. cbn [prev ahead pos groups lit]. rewrite !eqc_refl.
    cbn [prev ahead pos groups lit].
    replace (Py.eqc 91%N 93%N) with false by reflexivity.
    unfold first_of, accept. cbn [pos groups].
    f_equal. f_equal.
    + rewrite !length_app. cbn [length]. lia.
    + f_equal. f_equal. apply (firstn_prefix _ (c :: t)). cbn [length]. lia.
  - exact Ft.
  - intros w1 x w2 E. cbn [prev ahead pos groups lit].
    assert (Hx : not_rbracket x = true).
    { rewrite forallb_forall in Ft. apply Ft. rewrite E. apply in_or_app. right. now left. }
    unfold not_rbracket in Hx. apply negb_true_iff in Hx.
    unfold Py.eqc in *. rewrite N.eqb_sym, Hx. reflexivity.
Qed.

Section AllLinks.

Variable NFD : pystr -> pystr.
Variable args : Args.
Variable title2id : dict.

(** Link translation at a labeled link, whatever its target. *)
Lemma convert_labelled_link (pre post t l : pystr) :
  no_lbracket pre = true ->
  t <> [] -> forallb not_rbracket t = true ->
  l <> [] -> forallb not_rbracket l = true ->
  convert_org_links NFD args (pre ++ (u "[[" ++ t ++ u "][" ++ l ++ u "]]") ++ post) title2id
  = pre
    ++ link_repl NFD args title2id
         (Match (length (u "[[" ++ t ++ u "][" ++ l ++ u "]]")) [(2, l); (1, t)])
    ++ convert_org_links NFD args post title2id.
Proof.
  intros Hpre Ht Ft Hl Fl. apply convert_org_links_at.
  - exact Hpre.
  - intros pv.
    replace ((u "[[" ++ t ++ u "][" ++ l ++ u "]]") ++ post)
      with (u "[[" ++ t ++ u "][" ++ l ++ u "]]" ++ post)
      by (now rewrite <- !app_assoc).
    now apply match_labelled_link.
  - reflexivity.
  - discriminate.
Qed.

Lemma replace_after_prefix (p s : pystr) :
  p <> [] -> Py.find p s = None -> Py.replace p [] (p ++ s) = s.
Proof.
  intros Hp Hs. unfold Py.replace. destruct p as [|x p]; [congruence|].
  cbn [app Py.replace_from]. 
  change (x :: p ++ s) with ((x :: p) ++ s). rewrite startswith_app. cbn [app length Nat.sub].
  rewrite Nat.sub_0_r.
  assert (K : forall q, Py.replace_from (x :: p) [] (length q) (q ++ s)
                        = Py.replace_from (x :: p) [] 0 s).
  { induction q as [|y q IH]; [reflexivity|]. exact IH. }
  rewrite (K p). now apply (replace_none _ _ _ 0).
Qed.

(** X15: A labeled file link is resolved by the cleaned stem of the file
    name: to a reference to the identifier of the index where the stem is a
    key, and otherwise to the placeholder made of the label alone, which
    carries no identifier. *)
Theorem file_link_resolves_by_stem (pre post p l : pystr) :
  no_lbracket pre = true ->
  forallb not_rbracket p = true -> Py.find (u "file:") p = None ->
  l <> [] -> forallb not_rbracket l = true ->
  convert_org_links NFD args (pre ++ (u "[[file:" ++ p ++ u "][" ++ l ++ u "]]") ++ post)
    title2id
  = pre
    ++ match dict_get title2id (stem_key NFD p) with
       | Some id_ =>
           if zettlr args then u "[" ++ l ++ u "]([[" ++ id_ ++ u "]])"
           else u "[[" ++ id_ ++ u "|" ++ l ++ u "]]"
       | None => u "[[" ++ l ++ u "]]"
       end
    ++ convert_org_links NFD args post title2id.
Proof.
  intros Hpre Fp Hp Hl Fl.
  replace (u "[[file:" ++ p ++ u "][" ++ l ++ u "]]")
    with (u "[[" ++ (u "file:" ++ p) ++ u "][" ++ l ++ u "]]") by reflexivity.
  rewrite convert_labelled_link;
    [ | exact Hpre | discriminate | rewrite forallb_app, Fp; reflexivity | exact Hl | exact Fl ].
  f_equal. f_equal. destruct l as [|d l]; [congruence|].
  unfold link_repl, group_str, group. cbn [mgroups group_of Nat.eqb Py.or_else].
  replace (Py.startswith (u "id:") (u "file:" ++ p)) with false by reflexivity.
  replace (Py.startswith (u "file:") (u "file:" ++ p)) with true
    by (symmetry; apply startswith_app).
  rewrite replace_after_prefix; [|discriminate | exact Hp].
  unfold stem_key, link_ref. reflexivity.
Qed.

(** X16: A labeled link to a web address becomes an inline hyperlink with
    the address unchanged. *)
Theorem web_link_becomes_hyperlink (pre post s l : pystr) (secure : bool) :
  let t := (if secure then u "https://" else u "http://") ++ s in
  no_lbracket pre = true ->
  forallb not_rbracket s = true ->
  l <> [] -> forallb not_rbracket l = true ->
  convert_org_links NFD args (pre ++ (u "[[" ++ t ++ u "][" ++ l ++ u "]]") ++ post) title2id
  = pre ++ (u "[" ++ l ++ u "](" ++ t ++ u ")") ++ convert_org_links NFD args post title2id.
Proof.
  intros t Hpre Fs Hl Fl.
  assert (Ft : forallb not_rbracket t = true).
  { unfold t. rewrite forallb_app, Fs. now destruct secure. }
  assert (Ht : t <> []) by (unfold t; destruct secure; discriminate).
  rewrite convert_labelled_link by assumption.
  f_equal. f_equal. destruct l as [|d l]; [congruence|].
  unfold link_repl, group_str, group. cbn [mgroups group_of Nat.eqb Py.or_else].
  assert (I : Py.startswith (u "id:") t = false) by (unfold t; now destruct secure).
  assert (F : Py.startswith (u "file:") t = false) by (unfold t; now destruct secure).
  rewrite I, F. destruct (rematch url_re t) eqn:E; [reflexivity|].
  apply url_match in E. destruct E as [E1 E2]. unfold t in E1, E2.
  destruct secure; [now rewrite startswith_app in E2 | now rewrite startswith_app in E1].
Qed.

Lemma other_target_parts (t : pystr) :
  other_target t = true ->
  Py.startswith (u "id:") t = false /\ Py.startswith (u "file:") t = false
  /\ rematch url_re t = None.
Proof.
  unfold other_target. intros H.
  apply andb_prop in H. destruct H as [H H4]. apply andb_prop in H. destruct H as [H H3].
  apply andb_prop in H. destruct H as [H1 H2].
  apply negb_true_iff in H1, H2, H3, H4. repeat split; try assumption.
  apply url_match. now split.
Qed.

(** X17: A labeled link to anything else becomes the placeholder made of the
    label alone: the target is dropped. *)
Theorem other_link_keeps_label_only (pre post t l : pystr) :
  no_lbracket pre = true ->
  t <> [] -> forallb not_rbracket t = true -> other_target t = true ->
  l <> [] -> forallb not_rbracket l = true ->
  convert_org_links NFD args (pre ++ (u "[[" ++ t ++ u "][" ++ l ++ u "]]") ++ post) title2id
  = pre ++ (u "[[" ++ l ++ u "]]") ++ convert_org_links NFD args post title2id.
Proof.
  intros Hpre Ht Ft Ho Hl Fl. rewrite convert_labelled_link by assumption.
  f_equal. f_equal. destruct l as [|d l]; [congruence|].
  destruct (other_target_parts t Ho) as (I & F & U).
  unfold link_repl, group_str, group. cbn [mgroups group_of Nat.eqb Py.or_else].
  now rewrite I, F, U.
Qed.

(** X18: An unlabeled link takes its target for label: to anything else than
    an identifier, a file or a web address it is left as it is, and to an
    identifier it becomes a reference labeled by the whole target. *)
Theorem unlabelled_link_is_labelled_by_target (pre post t : pystr) :
  no_lbracket pre = true ->
  t <> [] -> forallb not_rbracket t = true ->
  (other_target t = true ->
   convert_org_links NFD args (pre ++ (u "[[" ++ t ++ u "]]") ++ post) title2id
   = pre ++ (u "[[" ++ t ++ u "]]") ++ convert_org_links NFD args post title2id)
  /\ (Py.find (u "id:") t = None ->
      convert_org_links NFD args (pre ++ (u "[[id:" ++ t ++ u "]]") ++ post) title2id
      = pre ++ (if zettlr args then u "[id:" ++ t ++ u "]([[" ++ t ++ u "]])"
                else u "[[" ++ t ++ u "|id:" ++ t ++ u "]]")
        ++ convert_org_links NFD args post title2id).
Proof.
  intros Hpre Ht Ft. split.
  - intros Ho.
    rewrite convert_org_links_at with
      (M := Match (length (u "[[" ++ t ++ u "]]")) [(1, t)]);
      [ | exact Hpre | | reflexivity | discriminate ].
    + f_equal. f_equal. destruct t as [|c t]; [congruence|].
      destruct (other_target_parts _ Ho) as (I & F & U).
      unfold link_repl, group_str, group. cbn [mgroups group_of Nat.eqb Py.or_else].
      now rewrite I, F, U.
    + intros pv.
      replace ((u "[[" ++ t ++ u "]]") ++ post) with (u "[[" ++ t ++ u "]]" ++ post)
        by (now rewrite <- !app_assoc).
      now apply match_unlabelled_link.
  - intros Hi.
    replace (u "[[id:" ++ t ++ u "]]") with (u "[[" ++ (u "id:" ++ t) ++ u "]]") by reflexivity.
    rewrite convert_org_links_at with
      (M := Match (length (u "[[" ++ (u "id:" ++ t) ++ u "]]")) [(1, u "id:" ++ t)]);
      [ | exact Hpre | | reflexivity | discriminate ].
    + f_equal. f_equal.
      unfold link_repl, group_str, group. cbn [mgroups group_of Nat.eqb].
      replace (Py.or_else None (u "id:" ++ t)) with (u "id:" ++ t) by reflexivity.
      replace (Py.startswith (u "id:") (u "id:" ++ t)) with true
        by (symmetry; apply startswith_app).
      rewrite replace_after_prefix; [|discriminate | exact Hi].
      unfold link_ref. destruct (zettlr args); literals; cbn [app];
        rewrite <- ?app_assoc; reflexivity.
    + intros pv.
      replace ((u "[[" ++ (u "id:" ++ t) ++ u "]]") ++ post)
        with (u "[[" ++ (u "id:" ++ t) ++ u "]]" ++ post)
        by (now rewrite <- !app_assoc).
      apply match_unlabelled_link; [discriminate|].
      rewrite forallb_app, Ft. reflexivity.
Qed.

(** X19: Text without an opening bracket goes through link translation and
    image translation unchanged. *)
Theorem text_without_brackets_is_kept (s : pystr) :
  no_lbracket s = true ->
  convert_org_links NFD args s title2id = s /\ convert_images s = s.
Proof.
  intros H. split.
  - unfold convert_org_links, sub. rewrite <- (app_nil_r s) at 1.
    rewrite sub_dead by (now apply link_re_dead). cbn. now rewrite app_nil_r.
  - unfold convert_images, sub. rewrite <- (app_nil_r s) at 1.
    rewrite sub_dead by (now apply image_re_dead). cbn. now rewrite app_nil_r.
Qed.

End AllLinks.

(** ** Labeled file links and image translation *)

(** A prefix that is not found in [l] is not found once a character that it
    does not hold is put after [l]. *)
Lemma startswith_closed (k l : pystr) (c : char) (t : pystr) :
  Py.startswith k l = false -> forallb (fun x => negb (Py.eqc x c)) k = true ->
  Py.startswith k (l ++ c :: t) = false.
Proof.
  revert l. induction k as [|x k IH]; intros l H Hk; [discriminate|].
  cbn [forallb] in Hk. apply andb_prop in Hk. destruct Hk as [Hx Hk].
  apply negb_true_iff in Hx.
  destruct l as [|y l]; cbn [app].
  - rewrite startswith_cons, Hx. reflexivity.
  - rewrite startswith_cons in *. destruct (Py.eqc x y); [|reflexivity].
    cbn [andb] in *. now apply IH.
Qed.

Lemma startswith_digits (k : pystr) (x : char) (id_ : pystr) (c : char) (t : pystr) :
  is_digit x = false -> Py.eqc x c = false -> forallb is_digit id_ = true ->
  Py.startswith (x :: k) (id_ ++ c :: t) = false.
Proof.
  intros Hx Hc Hd. destruct id_ as [|d s]; cbn [app]; rewrite startswith_cons.
  - now rewrite Hc.
  - cbn [forallb] in Hd. apply andb_prop in Hd. destruct Hd as [Hd _].
    now rewrite (digit_neq x d Hd Hx).
Qed.

(** No image reference starts in two opening brackets and a text without
    opening bracket that does not start with [file:]. *)
Lemma image_dead_brackets (x post : pystr) (pv : option char) :
  x <> [] -> no_lbracket x = true -> Py.startswith (u "file:") (x ++ post) = false ->
  dead image_re pv (u "[[" ++ x) post.
Proof.
  intros Hx Hb Hf. literals. cbn [app].
  apply image_dead_lbracket.
  - revert Hf. literals. intros Hf. cbn [app]. rewrite startswith_cons, Hf. apply andb_false_r.
  - apply image_dead_lbracket; [|now apply image_re_dead].
    destruct x as [|c x]; [congruence|]. cbn [no_lbracket forallb] in Hb.
    unfold no_lbracket in Hb. cbn [forallb] in Hb.
    apply andb_prop in Hb. destruct Hb as [Hc _]. apply negb_true_iff in Hc.
    literals. cbn [app]. rewrite startswith_cons.
    unfold Py.eqc in *. rewrite N.eqb_sym, Hc. reflexivity.
Qed.

Lemma no_lbracket_app (a b : pystr) :
  no_lbracket a = true -> no_lbracket b = true -> no_lbracket (a ++ b) = true.
Proof. unfold no_lbracket. intros Ha Hb. now rewrite forallb_app, Ha, Hb. Qed.

Section LabelledFileLinks.

Variable NFD : pystr -> pystr.
Variable args : Args.
Variable title2id : dict.

(** No image reference starts in a placeholder whose label has no opening
    bracket and does not start with [file:]. *)
Lemma image_dead_in_placeholder (l post : pystr) (pv : option char) :
  l <> [] -> no_lbracket l = true -> Py.startswith (u "file:") l = false ->
  dead image_re pv (u "[[" ++ l ++ u "]]") post.
Proof.
  intros Hl Hb Hf. apply image_dead_brackets.
  - destruct l; [congruence | discriminate].
  - now apply no_lbracket_app.
  - rewrite <- app_assoc. literals. cbn [app].
    revert Hf. literals. intros Hf. now apply startswith_closed.
Qed.

(** Nor in a reference whose identifier is made of digits, in either style. *)
Lemma image_dead_in_reference (id_ l post : pystr) (pv : option char) :
  forallb is_digit id_ = true -> l <> [] -> no_lbracket l = true ->
  dead image_re pv (if zettlr args then u "[" ++ l ++ u "]([[" ++ id_ ++ u "]])"
                    else u "[[" ++ id_ ++ u "|" ++ l ++ u "]]") post.
Proof.
  intros Hd Hl Hb. assert (Hi := digits_no_lbracket _ Hd).
  destruct (zettlr args).
  - replace (u "[" ++ l ++ u "]([[" ++ id_ ++ u "]])")
      with ((u "[" ++ l ++ u "](") ++ (u "[[" ++ (id_ ++ u "]])")))
      by (now rewrite <- !app_assoc).
    apply dead_app.
    + literals. cbn [app]. apply image_dead_lbracket; [|apply image_re_dead].
      * destruct l as [|c l]; [congruence|]. unfold no_lbracket in Hb. cbn [forallb] in Hb.
        apply andb_prop in Hb. destruct Hb as [Hc _]. apply negb_true_iff in Hc.
        literals. cbn [app]. rewrite startswith_cons. unfold Py.eqc in *.
        rewrite N.eqb_sym, Hc. reflexivity.
      * apply no_lbracket_app; [exact Hb | reflexivity].
    + apply image_dead_brackets.
      * destruct id_; discriminate.
      * apply no_lbracket_app; [exact Hi | reflexivity].
      * rewrite <- app_assoc. literals. cbn [app].
        apply startswith_digits; [reflexivity | reflexivity | exact Hd].
  - apply image_dead_brackets.
    + destruct id_; discriminate.
    + apply no_lbracket_app; [exact Hi|]. apply no_lbracket_app; [reflexivity|].
      apply no_lbracket_app; [exact Hb | reflexivity].
    + rewrite <- app_assoc. literals. cbn [app].
      apply startswith_digits; [reflexivity | reflexivity | exact Hd].
Qed.

(** C10, as amended: a labeled file link [[file:p][l]], the labeled image
    reference [[file:pic.png][caption]] among them, whose label has no
    opening bracket and does not start with [file:], is taken by link
    translation, and image translation leaves what it has become as it is:
    the placeholder [[l]] where the index has no entry for the cleaned stem
    of [p], and a reference to the identifier of the index otherwise (the
    identifiers that the index holds are strings of digits).  It does not
    become an image embed.  The link stands after text without an opening
    bracket, and what follows it is rewritten on its own. *)
Theorem labelled_image_reference_is_a_link (pre post p l : pystr) :
  no_lbracket pre = true ->
  forallb not_rbracket p = true -> Py.find (u "file:") p = None ->
  l <> [] -> forallb not_rbracket l = true ->
  no_lbracket l = true -> Py.startswith (u "file:") l = false ->
  (forall id_, dict_get title2id (stem_key NFD p) = Some id_ ->
               forallb is_digit id_ = true) ->
  convert_images
    (convert_org_links NFD args (pre ++ (u "[[file:" ++ p ++ u "][" ++ l ++ u "]]") ++ post)
       title2id)
  = pre
    ++ match dict_get title2id (stem_key NFD p) with
       | Some id_ =>
           if zettlr args then u "[" ++ l ++ u "]([[" ++ id_ ++ u "]])"
           else u "[[" ++ id_ ++ u "|" ++ l ++ u "]]"
       | None => u "[[" ++ l ++ u "]]"
       end
    ++ convert_images (convert_org_links NFD args post title2id).
Proof.
  intros Hpre Fp Hp Hl Fl Bl Sl Hidx.
  replace (u "[[file:" ++ p ++ u "][" ++ l ++ u "]]")
    with (u "[[" ++ (u "file:" ++ p) ++ u "][" ++ l ++ u "]]") by reflexivity.
  rewrite convert_labelled_link;
    [ | exact Hpre | discriminate | rewrite forallb_app, Fp; reflexivity | exact Hl | exact Fl ].
  match goal with
  | |- context [link_repl NFD args title2id ?m] =>
      assert (R : link_repl NFD args title2id m
                  = match dict_get title2id (stem_key NFD p) with
                    | Some id_ =>
                        if zettlr args then u "[" ++ l ++ u "]([[" ++ id_ ++ u "]])"
                        else u "[[" ++ id_ ++ u "|" ++ l ++ u "]]"
                    | None => u "[[" ++ l ++ u "]]"
                    end)
  end.
  { destruct l as [|d l']; [congruence|].
    unfold link_repl, group_str, group. cbn [mgroups group_of Nat.eqb Py.or_else].
    replace (Py.startswith (u "id:") (u "file:" ++ p)) with false by reflexivity.
    replace (Py.startswith (u "file:") (u "file:" ++ p)) with true
      by (symmetry; apply startswith_app).
    rewrite replace_after_prefix; [|discriminate | exact Hp].
    unfold stem_key, link_ref. reflexivity. }
  rewrite R. rewrite app_assoc.
  rewrite convert_images_dead; [now rewrite <- app_assoc|].
  intros pv. apply dead_app; [now apply image_re_dead|].
  destruct (dict_get title2id (stem_key NFD p)) as [id_|] eqn:E.
  - apply image_dead_in_reference; [now apply Hidx | exact Hl | exact Bl].
  - now apply image_dead_in_placeholder.
Qed.

End LabelledFileLinks.

(** C10 fails on the code where the label is itself a reference to an image
    file, as in a thumbnail that links to a picture: the placeholder made
    of the label is an image reference, and image translation embeds it. *)
Lemma image_label_is_embedded :
  convert_images
    (convert_org_links NFD_ascii args0 (u "[[file:pic.png][file:thumb.png]]") [])
  = u "![](thumb.png)".
Proof. vm_compute. reflexivity. Qed.

(** ** Generated identifiers *)

Lemma digit_inj (a b : N) : digit a = digit b -> (a mod 10 = b mod 10)%N.
Proof. unfold digit. lia. Qed.

Lemma two_digits (n m : N) :
  (n < 100)%N -> (m < 100)%N ->
  digit (n / 10) = digit (m / 10) -> digit n = digit m -> n = m.
Proof.
  intros Hn Hm E1 E2. apply digit_inj in E1, E2.
  pose proof (N.div_mod n 10 ltac:(lia)). pose proof (N.div_mod m 10 ltac:(lia)).
  assert (n / 10 < 10)%N by (apply N.Div0.div_lt_upper_bound; lia).
  assert (m / 10 < 10)%N by (apply N.Div0.div_lt_upper_bound; lia).
  rewrite N.mod_small in E1 by assumption. rewrite (N.mod_small (m / 10)) in E1 by assumption.
  lia.
Qed.

Lemma four_digits (n m : N) :
  (n < 10000)%N -> (m < 10000)%N ->
  digit (n / 1000) = digit (m / 1000) -> digit (n / 100) = digit (m / 100) ->
  digit (n / 10) = digit (m / 10) -> digit n = digit m -> n = m.
Proof.
  intros Hn Hm E1 E2 E3 E4. apply digit_inj in E1, E2, E3, E4.
  pose proof (N.div_mod n 10 ltac:(lia)). pose proof (N.div_mod m 10 ltac:(lia)).
  pose proof (N.div_mod (n/10) 10 ltac:(lia)). pose proof (N.div_mod (m/10) 10 ltac:(lia)).
  pose proof (N.div_mod (n/100) 10 ltac:(lia)). pose proof (N.div_mod (m/100) 10 ltac:(lia)).
  assert (n / 10 / 10 = n / 100)%N by (rewrite N.Div0.div_div; reflexivity).
  assert (m / 10 / 10 = m / 100)%N by (rewrite N.Div0.div_div; reflexivity).
  assert (n / 100 / 10 = n / 1000)%N by (rewrite N.Div0.div_div; reflexivity).
  assert (m / 100 / 10 = m / 1000)%N by (rewrite N.Div0.div_div; reflexivity).
  assert (n / 1000 < 10)%N by (apply N.Div0.div_lt_upper_bound; lia).
  assert (m / 1000 < 10)%N by (apply N.Div0.div_lt_upper_bound; lia).
  rewrite N.mod_small in E1 by assumption. rewrite (N.mod_small (m / 1000)) in E1 by assumption.
  lia.
Qed.

(** X21: Two dates give the same identifier only if they agree to the
    second: the identifier loses nothing but what is below the second. *)
Theorem strftime_injective (d1 d2 : datetime) :
  valid_datetime d1 -> valid_datetime d2 -> strftime d1 = strftime d2 -> d1 = d2.
Proof.
  intros ((_ & Y1) & M1 & D1 & H1 & I1 & S1) ((_ & Y2) & M2 & D2 & H2 & I2 & S2) E.
  destruct d1 as [y1 m1 a1 h1 i1 s1], d2 as [y2 m2 a2 h2 i2 s2].
  cbn [year month day hour minute second] in *.
  unfold strftime, pad4, pad2 in E. cbn [year month day hour minute second app] in E.
  injection E as e1 e2 e3 e4 e5 e6 e7 e8 e9 e10 e11 e12 e13 e14.
  rewrite (four_digits _ _ Y1 Y2 e1 e2 e3 e4), (two_digits _ _ M1 M2 e5 e6),
    (two_digits _ _ D1 D2 e7 e8), (two_digits _ _ H1 H2 e9 e10),
    (two_digits _ _ I1 I2 e11 e12), (two_digits _ _ S1 S2 e13 e14).
  reflexivity.
Qed.

(** ** Metadata lines *)

Lemma startswith_before_newline (key l rest : pystr) :
  ~ In newline key -> Py.startswith key (l ++ newline :: rest) = true ->
  Py.startswith key l = true.
Proof.
  intros Hk. revert l. induction key as [|k key IH]; intros l H; [reflexivity|].
  destruct l as [|c l]; simpl in *.
  - apply andb_prop in H. destruct H as [E _]. apply eqc_eq in E. subst k.
    exfalso. apply Hk. now left.
  - apply andb_prop in H. destruct H as [E H]. rewrite E. simpl.
    apply IH; [|exact H]. intros X. apply Hk. now right.
Qed.

(** Inside a line no line starts. *)
Lemma no_line_starts_inside (key l : pystr) (c : char) (tail : pystr) :
  any_but_newline c = true -> forallb any_but_newline l = true ->
  (tail = [] \/ tail = [newline]) ->
  no_line_starts_with key (Some c) (l ++ tail) = true.
Proof.
  intros Hc Hl Ht. revert c Hc. induction l as [|x l IH]; intros c Hc.
  - unfold any_but_newline in Hc. apply negb_true_iff in Hc.
    destruct Ht as [->| ->]; cbn; [reflexivity|]. now rewrite Hc.
  - simpl in Hl. apply andb_prop in Hl. destruct Hl as [Hx Hl]. cbn.
    unfold any_but_newline in Hc. apply negb_true_iff in Hc. rewrite Hc. cbn.
    now apply IH.
Qed.

Lemma no_line_starts_in_line (key l : pystr) (pv : option char) (tail : pystr) :
  ~ In newline key -> key <> [] ->
  forallb any_but_newline l = true -> Py.startswith key l = false ->
  (tail = [] \/ tail = [newline]) ->
  no_line_starts_with key pv (l ++ tail) = true.
Proof.
  intros Hk Hn Hl Hs Ht. destruct l as [|x l].
  - destruct Ht as [->| ->]; cbn; [reflexivity|].
    destruct key as [|k key]; [congruence|].
    replace (Py.startswith (k :: key) [newline]) with false; [now rewrite andb_false_r|].
    symmetry. cbn. destruct (Py.eqc k newline) eqn:E; [|reflexivity].
    apply eqc_eq in E. subst k. exfalso. apply Hk. now left.
  - simpl in Hl. apply andb_prop in Hl. destruct Hl as [Hx Hl].
    cbn [app no_line_starts_with].
    rewrite (no_line_starts_inside key l x tail Hx Hl Ht), andb_true_r.
    replace (Py.startswith key (x :: l ++ tail)) with false; [now rewrite andb_false_r|].
    symmetry. destruct Ht as [->| ->].
    + now rewrite app_nil_r.
    + destruct (Py.startswith key (x :: l ++ [newline])) eqn:E; [|reflexivity].
      apply (startswith_before_newline key (x :: l) [] Hk) in E. congruence.
Qed.

(** A metadata line is matched from its start to its end. *)
Lemma match_meta_line (r rest : pystr) (pv : option char) :
  bolb pv = true -> forallb any_but_newline r = true -> line_end rest = true ->
  match_at meta_line_re pv ((u "#+" ++ r) ++ rest)
  = Some (Match (length (u "#+" ++ r)) []).
Proof.
  intros B Hr He. unfold match_at, meta_line_re. cbn [run prev ahead pos groups].
  unfold at_bol. cbn [prev]. rewrite B. rewrite <- app_assoc, lit_app.
  cbn [prev ahead pos groups].
  apply star_greedy_all; [exact Hr | |].
  - destruct rest as [|x rest]; [exact I|]. unfold line_end in He.
    unfold stops, any_but_newline. now rewrite He.
  - cbn [prev ahead pos groups]. unfold at_eol. cbn [ahead]. unfold line_end in He.
    rewrite He. unfold accept. cbn [pos groups]. now rewrite length_app.
Qed.

Lemma lastc_last_char (pv : option char) (l : pystr) (x : char) :
  lastc pv (l ++ [x]) = Some x.
Proof. now rewrite lastc_app. Qed.

Lemma sub_meta_end (pv : option char) : sub_from meta_line_re (fun _ => []) 0 pv [] = [].
Proof. cbn [sub_from]. now destruct (match_at meta_line_re pv []). Qed.

Lemma meta_line_not_at_newline (c : char) (rest : pystr) :
  any_but_newline c = true -> match_at meta_line_re (Some c) (newline :: rest) = None.
Proof.
  intros Hc. unfold match_at, meta_line_re. cbn [run prev ahead pos groups].
  unfold at_bol, bolb. cbn [prev]. unfold any_but_newline in Hc.
  apply negb_true_iff in Hc. now rewrite Hc.
Qed.

Lemma strip_meta_from (lines : list pystr) (last : pystr) (pv : option char) :
  bolb pv = true ->
  forallb (forallb any_but_newline) lines = true -> forallb any_but_newline last = true ->
  sub_from meta_line_re (fun _ => []) 0 pv (text_of lines ++ last)
  = text_of (map blank_meta lines) ++ blank_meta last.
Proof.
  revert pv. induction lines as [|l lines IH]; intros pv B Hl Hlast.
  - cbn [text_of map concat app]. unfold blank_meta.
    destruct (Py.startswith (u "#+") last) eqn:S.
    + destruct (startswith_split _ _ S) as [r ->].
      rewrite <- (app_nil_r (u "#+" ++ r)).
      rewrite sub_match with (M := Match (length (u "#+" ++ r)) []);
        [ | apply match_meta_line; [exact B | | reflexivity] | reflexivity | discriminate ].
      * cbn [app]. apply sub_meta_end.
      * rewrite forallb_app in Hlast. apply andb_prop in Hlast. tauto.
    + rewrite <- (app_nil_r last) at 1. rewrite sub_dead.
      * rewrite sub_meta_end. apply app_nil_r.
      * apply dead_line_key; [reflexivity | | now left].
        rewrite <- (app_nil_r last).
        apply no_line_starts_in_line; try assumption; try discriminate; [|now left].
        apply newline_free_notin. reflexivity.
  - simpl in Hl. apply andb_prop in Hl. destruct Hl as [Hline Hl].
    unfold text_of in *. cbn [map concat]. rewrite <- !app_assoc.
    cbn [app]. unfold blank_meta at 1.
    destruct (Py.startswith (u "#+") l) eqn:S.
    + destruct (startswith_split _ _ S) as [r ->].
      rewrite sub_match with (M := Match (length (u "#+" ++ r)) []);
        [ | apply match_meta_line; [exact B | | reflexivity] | reflexivity | discriminate ].
      * cbn [app sub_from].
        assert (L : exists c, lastc pv (u "#+" ++ r) = Some c /\ any_but_newline c = true).
        { destruct (@exists_last _ (u "#+" ++ r)) as (w & x & E); [discriminate|].
          exists x. rewrite E, lastc_last_char. split; [reflexivity|].
          rewrite forallb_forall in Hline. apply Hline. rewrite E.
          apply in_or_app. right. now left. }
        destruct L as (c & -> & Hc). rewrite (meta_line_not_at_newline c _ Hc).
        f_equal. now apply IH.
      * rewrite forallb_app in Hline. apply andb_prop in Hline. tauto.
    + change (l ++ newline :: concat (map (fun l0 => l0 ++ [newline]) lines) ++ last)
        with (l ++ [newline] ++ (concat (map (fun l0 => l0 ++ [newline]) lines) ++ last)).
      rewrite app_assoc. rewrite sub_dead.
      * rewrite lastc_last_char, <- app_assoc. f_equal. cbn [app]. f_equal. now apply IH.
      * apply dead_line_key; [reflexivity | | right; now rewrite lastc_last_char].
        apply no_line_starts_in_line; try assumption; try discriminate; [|now right].
        apply newline_free_notin. reflexivity.
Qed.

(** X22: The substitution that removes the metadata lines empties every line
    that starts with [#+], whatever follows on the line, and keeps every
    other line; the line breaks stay, so that no line is taken away. *)
Theorem meta_lines_are_blanked (lines : list pystr) (last : pystr) :
  forallb (forallb any_but_newline) lines = true -> forallb any_but_newline last = true ->
  strip_meta_lines (text_of lines ++ last) = text_of (map blank_meta lines) ++ blank_meta last.
Proof. intros H1 H2. unfold strip_meta_lines, sub. now apply strip_meta_from. Qed.

(** ** Unclosed property blocks, and header values on a later line *)

Lemma lit_some (s : pystr) (k : conts) (pv : option char) (a : pystr) (n : nat)
    (g : list (nat * pystr)) (m : rmatch) :
  lit s k pv a n g = Some m -> Py.startswith s a = true.
Proof.
  intros H. destruct (Py.startswith s a) eqn:E; [reflexivity|].
  now rewrite (lit_fail k s a pv n g E) in H.
Qed.

Lemma star_some (gr : greed) (p : char -> bool) (k : conts) (pv : option char)
    (a : pystr) (n : nat) (g : list (nat * pystr)) (m : rmatch) :
  star gr p k pv a n g = Some m ->
  exists a1 a2 pv' n', a = a1 ++ a2 /\ k (Cursor pv' a2 n' g) = Some m.
Proof.
  revert pv n. induction a as [|c a IH]; intros pv n H; simpl in H.
  - now exists [], [], pv, n.
  - assert (Here : k (Cursor pv (c :: a) n g) = Some m ->
                   exists a1 a2 pv' n', c :: a = a1 ++ a2 /\ k (Cursor pv' a2 n' g) = Some m)
      by (intros K; now exists [], (c :: a), pv, n).
    assert (There : star gr p k (Some c) a (S n) g = Some m ->
                    exists a1 a2 pv' n', c :: a = a1 ++ a2
                                         /\ k (Cursor pv' a2 n' g) = Some m).
    { intros K. destruct (IH _ _ K) as (a1 & a2 & pv' & n' & -> & K').
      now exists (c :: a1), a2, pv', n'. }
    destruct (p c); [|now apply Here].
    destruct gr; unfold first_of in H.
    + destruct (star Greedy p k (Some c) a (S n) g) eqn:E;
        [apply There; congruence | now apply Here].
    + destruct (k (Cursor pv (c :: a) n g)) eqn:E;
        [apply Here; congruence | now apply There].
Qed.

Lemma find_from_some (pat a1 a2 : pystr) (i : nat) :
  Py.startswith pat a2 = true -> Py.find_from pat (a1 ++ a2) i <> None.
Proof.
  intros H. revert i. induction a1 as [|c a1 IH]; intros i.
  - destruct a2; cbn [app Py.find_from]; rewrite H; discriminate.
  - cbn [app Py.find_from]. destruct (Py.startswith pat (c :: a1 ++ a2)); [discriminate|].
    apply IH.
Qed.

(** A match of the property block pattern ends with an end marker. *)
Lemma properties_match_has_end (pv : option char) (s : pystr) (m : rmatch) :
  match_at properties_re pv s = Some m -> Py.find (u ":END:") s <> None.
Proof.
  unfold match_at, properties_re. cbn [run prev ahead pos groups]. intros H.
  destruct (at_bol (Cursor pv s 0 [])); [|discriminate].
  pose proof (lit_some _ _ _ _ _ _ _ H) as P.
  destruct (startswith_split _ _ P) as [r ->]. rewrite lit_app in H.
  cbn [prev ahead pos groups] in H.
  destruct (star_some _ _ _ _ _ _ _ _ H) as (a1 & a2 & pv' & n' & -> & K).
  cbn [prev ahead pos groups] in K. apply lit_some in K.
  unfold Py.find. rewrite app_assoc. now apply find_from_some.
Qed.

Lemma find_from_suffix (pat a1 a2 : pystr) (i : nat) :
  Py.find_from pat (a1 ++ a2) i = None -> Py.find_from pat a2 (i + length a1) = None.
Proof.
  revert i. induction a1 as [|c a1 IH]; intros i H.
  - now rewrite Nat.add_0_r.
  - cbn [app Py.find_from] in H.
    destruct (Py.startswith pat (c :: a1 ++ a2)); [discriminate|].
    apply IH in H. cbn [length]. now rewrite Nat.add_succ_r.
Qed.

Lemma find_from_shift (pat s : pystr) (i j : nat) :
  Py.find_from pat s i = None -> Py.find_from pat s j = None.
Proof.
  revert i j. induction s as [|c s IH]; intros i j H; cbn [Py.find_from] in *.
  - now destruct (Py.startswith pat []).
  - destruct (Py.startswith pat (c :: s)); [discriminate|]. now apply (IH (S i)).
Qed.

Lemma strip_properties_without_end (s : pystr) :
  Py.find (u ":END:") s = None -> strip_properties s = s.
Proof.
  intros H. unfold strip_properties, sub. rewrite <- (app_nil_r s) at 1.
  rewrite sub_dead.
  - cbn [sub_from]. destruct (match_at properties_re (lastc None s) []) eqn:E.
    + apply properties_match_has_end in E. now contradiction E.
    + apply app_nil_r.
  - intros p1 c p2 -> . rewrite app_nil_r.
    destruct (match_at properties_re (lastc None p1) (c :: p2)) eqn:E; [|reflexivity].
    apply properties_match_has_end in E. exfalso. apply E.
    unfold Py.find in *. apply find_from_suffix in H.
    now apply (find_from_shift _ _ (0 + length p1) 0).
Qed.

(** X23: Where no end marker follows, nothing is removed: a property block
    that is not closed stays in the text. *)
Theorem unclosed_block_is_kept (s : pystr) :
  Py.find (u ":END:") s = None -> strip_properties s = s.
Proof. apply strip_properties_without_end. Qed.

(** X25: The value of a header field is looked for across line breaks: after
    a key with nothing on its line, the next text that is not white space is
    taken for the title, and likewise for the identifier. *)
Theorem header_value_may_follow_on_a_later_line (content v : pystr) :
  (declares_after (u "#+title:") content v ->
   m_title (parse_org_frontmatter content) = Some v)
  /\ (declares_after (u ":ID:") content v ->
      m_id (parse_org_frontmatter content) = Some v).
Proof.
  assert (F : forall key, forallb any_but_newline key = true ->
              declares_after key content v ->
              exists n,
                search (Seq Bol (Seq (Lit key) (Seq (Star Greedy Py.isspace)
                          (Seq (Grp 1 (Plus Greedy any_but_newline)) Eol)))) content
                = Some (Match n [(1, v)])).
  { intros key Hk (pre & ws & rest & -> & Hs & Hp & Hws & Hv & Hl & Hr).
    exists (length key + length ws + length v). unfold search.
    rewrite search_dead by (apply dead_line_key; [exact Hk | exact Hp | now right]).
    apply search_here. now apply match_field. }
  split; intros D.
  - destruct (F (u "#+title:") eq_refl D) as [n E].
    destruct D as (pre & ws & rest & _ & _ & _ & _ & Hv & _).
    unfold parse_org_frontmatter. cbn [m_title].
    change (search title_re content) with
      (search (Seq Bol (Seq (Lit (u "#+title:")) (Seq (Star Greedy Py.isspace)
                (Seq (Grp 1 (Plus Greedy any_but_newline)) Eol)))) content).
    rewrite E. cbn [option_map]. unfold group_str, group. cbn [mgroups group_of Nat.eqb].
    now rewrite (strip_trimmed v Hv).
  - destruct (F (u ":ID:") eq_refl D) as [n E].
    destruct D as (pre & ws & rest & _ & _ & _ & _ & Hv & _).
    unfold parse_org_frontmatter. cbn [m_id].
    change (search id_re content) with
      (search (Seq Bol (Seq (Lit (u ":ID:")) (Seq (Star Greedy Py.isspace)
                (Seq (Grp 1 (Plus Greedy any_but_newline)) Eol)))) content).
    rewrite E. cbn [option_map]. unfold group_str, group. cbn [mgroups group_of Nat.eqb].
    rewrite (strip_trimmed v Hv). destruct (trimmed_cons v Hv) as (c & s & ->). reflexivity.
Qed.

(** X26: A text with no header line has no title, no tag and no identifier. *)
Theorem headerless_text_has_no_metadata (content : pystr) :
  no_line_starts_with (u "#+title:") None content = true ->
  no_line_starts_with (u "#+filetags:") None content = true ->
  no_line_starts_with (u ":ID:") None content = true ->
  no_line_starts_with (u "#+roam_key:") None content = true ->
  parse_org_frontmatter content = {| m_title := None; m_tags := []; m_id := None |}.
Proof.
  intros T G I R.
  pose proof (parse_no_title content T) as E1. pose proof (parse_no_tags content G) as E2.
  pose proof (parse_no_id content I R) as E3.
  destruct (parse_org_frontmatter content) as [t g i]. cbn in *. now subst.
Qed.

(** ** The files of Step 1 *)

Lemma startswith_app_l (p s t : pystr) :
  Py.startswith p s = true -> Py.startswith p (s ++ t) = true.
Proof.
  intros H. destruct (startswith_split p s H) as [r ->].
  rewrite <- app_assoc. apply startswith_app.
Qed.

Lemma endswith_app_r (p a b : pystr) :
  Py.endswith p b = true -> Py.endswith p (a ++ b) = true.
Proof. unfold Py.endswith. intros H. rewrite rev_app_distr. now apply startswith_app_l. Qed.

Lemma path_join_ends (a b : pystr) : exists x, Py.path_join a b = x ++ b.
Proof.
  unfold Py.path_join. destruct (Py.startswith [Py.slash] b); [now exists []|].
  destruct (negb (Py.truthy a) || Py.endswith [Py.slash] a); [now exists a|].
  exists (a ++ [Py.slash]). now rewrite <- app_assoc.
Qed.

(** X4: Step 1 keeps the files whose name ends in [.org], in the order of
    the walk and with their text; the path of each ends with the name of the
    file, and so in [.org]. *)
Theorem collect_keeps_org_files (walk : list file_entry) :
  forallb (fun f => Py.endswith (u ".org") (fst f)) (collect walk) = true
  /\ map snd (collect walk) = map fe_text (filter org_name walk)
  /\ length (collect walk) <= length walk.
Proof.
  unfold collect. fold org_name. split; [|split].
  - rewrite forallb_forall. intros f Hf. apply in_map_iff in Hf.
    destruct Hf as (e & <- & He). apply filter_In in He. destruct He as [_ He].
    cbn [fst]. destruct (path_join_ends (fe_root e) (fe_name e)) as [x ->].
    now apply endswith_app_r.
  - rewrite map_map. reflexivity.
  - rewrite length_map. apply filter_length_le.
Qed.

Lemma collect_none (walk : list file_entry) :
  forallb (fun e => negb (org_name e)) walk = true -> collect walk = [].
Proof.
  intros H. unfold collect. fold org_name.
  induction walk as [|e walk IH]; [reflexivity|]. cbn [forallb] in H. cbn [filter].
  apply andb_prop in H. destruct H as [He H].
  destruct (org_name e); [discriminate | now apply IH].
Qed.

(** X14: A tree without a file whose name ends in [.org]: the run succeeds,
    reads no clock, and writes the index file alone, with no row. *)
Theorem empty_vault_writes_empty_index (NFD : pystr -> pystr) (args : Args)
    (world : World) (walk : list file_entry) (st : state) :
  forallb (fun e => negb (org_name e)) walk = true ->
  main NFD args world walk st
  = (inr tt,
     {| stdout := stdout st ++ banner args ++ farewell args 0;
        ticks := ticks st;
        written := written st
          ++ [(Py.path_join (output_folder args) (u "_title2id.csv"), Rows [])] |}).
Proof.
  intros H. rewrite main_spec, (collect_none walk H). cbn.
  destruct (creationdate args); now rewrite Nat.add_0_r.
Qed.

(** ** Image references *)

Lemma lit_inv (k : conts) (s a : pystr) (pv : option char) (n : nat)
    (g : list (nat * pystr)) (m : rmatch) :
  lit s k pv a n g = Some m ->
  exists r, a = s ++ r /\ k (Cursor (lastc pv s) r (n + length s) g) = Some m.
Proof.
  intros H. pose proof (lit_some _ _ _ _ _ _ _ H) as P.
  destruct (startswith_split _ _ P) as [r ->]. rewrite lit_app in H. now exists r.
Qed.

(** Inside a name without a closing bracket no extension followed by two
    closing brackets is to be found before the last dot. *)
Lemma no_early_extension (x w tail : pystr) :
  image_ext x = true -> forallb not_rbracket w = true ->
  Py.startswith (x ++ u "]]") (w ++ Py.dot :: tail) = false.
Proof.
  intros Hx Hw. unfold image_ext in Hx.
  assert (R : forall d, not_rbracket d = true -> Py.eqc 93%N d = false).
  { intros d H. unfold not_rbracket in H. apply negb_true_iff in H.
    unfold Py.eqc in *. now rewrite N.eqb_sym. }
  assert (E : exists p, x ++ u "]]" = p /\ In p [u "png]]"; u "jpg]]"; u "jpeg]]"; u "gif]]"]).
  { repeat (apply orb_prop in Hx; destruct Hx as [Hx|Hx]);
      apply eqs_eq in Hx; subst x; eexists; (split; [reflexivity|]); cbn; tauto. }
  destruct E as (p & -> & Hp). clear Hx.
  assert (K : forall w' : pystr, Py.startswith p (w' ++ Py.dot :: tail) = false
              \/ exists c, In c w' /\ Py.eqc 93%N c = true).
  { cbn [In] in Hp. destruct Hp as [<-|[<-|[<-|[<-|[]]]]]; intros w'; literals;
      do 6 (try (destruct w' as [|? w']));
      cbn [app]; rewrite ?startswith_cons;
      repeat match goal with
             | |- context [Py.eqc ?a Py.dot] => change (Py.eqc a Py.dot) with false
             end;
      first [ left; cbn [andb]; rewrite ?andb_false_r; reflexivity
            | match goal with
              | |- context [Py.eqc 93%N ?c] =>
                  destruct (Py.eqc 93%N c) eqn:Ec;
                  [ right; exists c; split; [cbn; tauto | exact Ec]
                  | left; cbn [andb]; rewrite ?andb_false_r; reflexivity ]
              end ]. }
  destruct (K w) as [F|(c & Hc & Ec)]; [exact F|].
  rewrite forallb_forall in Hw. apply Hw in Hc. apply R in Hc. congruence.
Qed.
Lemma lit_lit_none (x y : pystr) (k : conts) (G : cursor -> list (nat * pystr))
    (pv : option char) (r : pystr) (n : nat) (g : list (nat * pystr)) :
  Py.startswith (x ++ y) r = false ->
  lit x (fun c' => lit y k (prev c') (ahead c') (pos c') (G c')) pv r n g = None.
Proof.
  intros H.
  destruct (lit x _ pv r n g) as [m|] eqn:E; [|reflexivity].
  apply lit_inv in E. destruct E as (r1 & -> & E). cbn [prev ahead pos groups] in E.
  apply lit_some in E. destruct (startswith_split _ _ E) as [r2 ->].
  now rewrite app_assoc, startswith_app in H.
Qed.

Lemma firstn_name (n : nat) (c0 : char) (name e rest : pystr) :
  n = S (length name + 1 + length e) ->
  firstn n (c0 :: name ++ Py.dot :: e ++ rest) = c0 :: name ++ Py.dot :: e.
Proof.
  intros ->.
  replace (c0 :: name ++ Py.dot :: e ++ rest) with ((c0 :: name ++ Py.dot :: e) ++ rest)
    by (cbn [app]; now rewrite <- app_assoc).
  apply firstn_prefix. cbn [length]. rewrite length_app. cbn [length]. lia.
Qed.

Ltac image_done e :=
  unfold accept; cbn [prev ahead pos groups first_of];
  apply f_equal; apply f_equal2;
  [ literals; cbn [length]; lia
  | apply f_equal2; [|reflexivity]; apply f_equal;
    match goal with
    | |- firstn _ (?c0 :: ?name ++ _) = _ =>
        apply (firstn_name _ c0 name e (u "]]" ++ _))
    end; literals; cbn [length]; lia ].

Lemma match_image (name e post : pystr) (pv : option char) :
  name <> [] -> forallb any_but_newline name = true -> forallb not_rbracket name = true ->
  image_ext e = true ->
  match_at image_re pv (u "[[file:" ++ name ++ Py.dot :: e ++ u "]]" ++ post)
  = Some (Match (7 + length name + 1 + length e + 2) [(1, name ++ Py.dot :: e)]).
Proof.
  intros Hn Hl Hb He. destruct name as [|c0 name]; [congruence|]. clear Hn.
  cbn [forallb] in Hl, Hb. apply andb_prop in Hl, Hb. destruct Hl as [Hc Hl], Hb as [_ Hb].
  unfold match_at, image_re, Plus. cbn [run prev ahead pos groups]. rewrite lit_app.
  cbn [prev ahead pos groups app]. rewrite Hc.
  rewrite star_lazy_skip; [ | exact Hl | ].
  - apply star_lazy_stop. cbn [prev ahead pos groups].
    change (Py.dot :: e ++ u "]]" ++ post) with (u "." ++ e ++ u "]]" ++ post).
    rewrite lit_app. cbn [prev ahead pos groups].
    unfold image_ext in He.
    repeat (apply orb_prop in He; destruct He as [He|He]); apply eqs_eq in He; subst e.
    + rewrite lit_app. cbn [prev ahead pos groups first_of]. rewrite lit_app.
      image_done (u "png").
    + rewrite (lit_fail _ (u "png")) by reflexivity. cbn [first_of].
      rewrite lit_app. cbn [prev ahead pos groups first_of]. rewrite lit_app.
      image_done (u "jpg").
    + rewrite (lit_fail _ (u "png")) by reflexivity. cbn [first_of].
      rewrite (lit_lit_none (u "jpg") (u "]]")) by reflexivity. cbn [first_of].
      rewrite lit_app. cbn [prev ahead pos groups first_of]. rewrite lit_app.
      image_done (u "jpeg").
    + rewrite (lit_fail _ (u "png")) by reflexivity. cbn [first_of].
      rewrite (lit_fail _ (u "jpg")) by reflexivity. cbn [first_of].
      rewrite (lit_fail _ (u "jpeg")) by reflexivity. cbn [first_of].
      rewrite lit_app. cbn [prev ahead pos groups first_of]. rewrite lit_app.
      image_done (u "gif").
  - intros w1 c w2 E. cbn [prev ahead pos groups].
    assert (Hw2 : forallb not_rbracket w2 = true).
    { rewrite E, forallb_app in Hb. apply andb_prop in Hb. destruct Hb as [_ Hb].
      cbn [forallb] in Hb. apply andb_prop in Hb. tauto. }
    destruct (Py.startswith (u ".") (c :: w2 ++ Py.dot :: e ++ u "]]" ++ post)) eqn:D;
      [|now apply lit_fail].
    destruct (startswith_split _ _ D) as [r Er]. injection Er as -> <-.
    change (46%N :: w2 ++ Py.dot :: e ++ u "]]" ++ post)
      with (u "." ++ w2 ++ Py.dot :: e ++ u "]]" ++ post).
    rewrite lit_app. cbn [prev ahead pos groups].
    rewrite !lit_lit_none;
      [reflexivity | | | | ]; apply no_early_extension; try reflexivity; exact Hw2.
Qed.

(** X20: Image translation turns a reference to a file with one of the four
    extensions into an embed of that file, with an empty caption. The name
    is not empty, stands on one line and has no closing bracket; the
    reference stands after text without an opening bracket, and what follows
    it is translated on its own. *)
Theorem image_reference_is_embedded (pre post name e : pystr) :
  no_lbracket pre = true ->
  name <> [] -> forallb any_but_newline name = true ->
  forallb not_rbracket name = true -> image_ext e = true ->
  convert_images (pre ++ (u "[[file:" ++ name ++ u "." ++ e ++ u "]]") ++ post)
  = pre ++ (u "![](" ++ name ++ u "." ++ e ++ u ")") ++ convert_images post.
Proof.
  intros Hpre Hn Hl Hb He.
  rewrite convert_images_at
    with (M := Match (7 + length name + 1 + length e + 2) [(1, name ++ Py.dot :: e)]).
  - unfold image_repl, group_str, group. cbn [mgroups group_of Nat.eqb].
    now rewrite <- !app_assoc.
  - exact Hpre.
  - intros pv. rewrite <- !app_assoc. now apply match_image.
  - cbn [mlen]. rewrite !length_app. cbn. lia.
  - discriminate.
Qed.

(** ** Plain text *)

Lemma strip_meta_lines_plain (s : pystr) :
  no_line_starts_with (u "#+") None s = true -> strip_meta_lines s = s.
Proof.
  intros H. unfold strip_meta_lines, sub. rewrite <- (app_nil_r s) at 1.
  rewrite sub_dead.
  - rewrite sub_meta_end. apply app_nil_r.
  - apply dead_line_key; [reflexivity | exact H | now left].
Qed.

(** X24: A text with no opening bracket, no line that starts with [#+] and
    no end marker of a property block goes through the four rewriting steps
    of Step 3 unchanged: all that is done to it is to strip the white space
    at both ends. *)
Theorem plain_text_is_only_trimmed (NFD : pystr -> pystr) (args : Args) (title2id : dict)
    (s : pystr) :
  no_lbracket s = true ->
  no_line_starts_with (u "#+") None s = true ->
  Py.find (u ":END:") s = None ->
  note_body NFD args title2id s = Py.strip s.
Proof.
  intros B L E. unfold note_body.
  assert (E1 : convert_org_links NFD args s title2id = s).
  { unfold convert_org_links, sub. rewrite <- (app_nil_r s) at 1.
    rewrite sub_dead by (now apply link_re_dead). cbn. now rewrite app_nil_r. }
  assert (E2 : convert_images s = s).
  { unfold convert_images, sub. rewrite <- (app_nil_r s) at 1.
    rewrite sub_dead by (now apply image_re_dead). cbn. now rewrite app_nil_r. }
  now rewrite E1, E2, (strip_meta_lines_plain s L), (strip_properties_without_end s E).
Qed.

(** ** Where the identifiers of the index come from *)

Lemma index_fold_generated (NFD : pystr -> pystr) (args : Args) (world : World)
    (all paths : list pystr) (n : nat) (d : dict) :
  (forall p, In p paths -> In p all) ->
  (forall k v, dict_get d k = Some v -> generated_for args world all v) ->
  forall k v, dict_get (index_fold NFD args world paths n d) k = Some v ->
              generated_for args world all v.
Proof.
  revert n d. induction paths as [|p ps IH]; intros n d Hin Hd k v; cbn [index_fold].
  - apply Hd.
  - apply IH; [intros q Hq; apply Hin; now right|].
    intros k' v'. rewrite dict_get_set. destruct (Py.eqs k' _); [|apply Hd].
    intros E. injection E as <-. exists p, n. split; [apply Hin; now left | reflexivity].
Qed.

(** X9: After Step 2 every identifier of the index is a generated one, made
    from the time of a collected file or from a reading of the clock,
    whatever the notes contain: an identifier that a note declares does not
    enter the index. *)
Theorem index_holds_generated_identifiers_only (NFD : pystr -> pystr) (args : Args)
    (world : World) (files : list (pystr * pystr)) (st : state) :
  exists idx,
    fst (for_each files (index_note NFD args world) [] st) = inr idx
    /\ forall k v, dict_get idx k = Some v -> generated_for args world (map fst files) v.
Proof.
  rewrite step2_spec. eexists. split; [reflexivity|]. intros k v H.
  apply (index_fold_generated NFD args world (map fst files) (map fst files)
           (ticks st) [] (fun p Hp => Hp)) with (k := k); [|exact H].
  intros k' v' H'. discriminate.
Qed.

(** ** Instances *)

(** The statements above, at the sample runs. *)

Lemma NFD_ascii_preserves : preserves_ascii NFD_ascii.
Proof. intros s _. reflexivity. Defined.

(** The link [[id:123][Foo]] with an index that has the key [123]. *)
Lemma id_link_uses_its_identifier_witness :
  no_lbracket (u "see ") = true
  /\ Py.find (u "id:") (u "123") = None
  /\ convert_org_links NFD_ascii args0 (u "see " ++ u "[[id:123][Foo]]" ++ u " now")
       [(u "123", u "other")]
     = u "see " ++ u "[[123|Foo]]"
       ++ convert_org_links NFD_ascii args0 (u " now") [(u "123", u "other")].
Proof.
  split; [reflexivity|]. split; [reflexivity|].
  apply (id_link_uses_its_identifier NFD_ascii args0 [(u "123", u "other")]
           (u "see ") (u " now") (u "123") (u "Foo")); try reflexivity.
  discriminate.
Defined.

(** The image reference with an index that does not know [pic]. *)
Lemma image_reference_becomes_embed_witness :
  no_lbracket (u "figure: ") = true
  /\ dict_get [(u "note", u "20251104120000")] (u "pic") = None
  /\ convert_images
       (convert_org_links NFD_ascii args0 (u "figure: " ++ u "[[file:pic.png]]" ++ u " (a)")
          [(u "note", u "20251104120000")])
     = u "figure: " ++ u "![](pic.png)"
       ++ convert_images
            (convert_org_links NFD_ascii args0 (u " (a)") [(u "note", u "20251104120000")]).
Proof.
  split; [reflexivity|]. split; [reflexivity|].
  apply (image_reference_becomes_embed NFD_ascii NFD_ascii_preserves args0
           [(u "note", u "20251104120000")] (u "figure: ") (u " (a)"));
    reflexivity.
Defined.

(** C7, as stated, fails: where the index knows a note called [pic], link
    translation rewrites the image reference to a reference to that note,
    and image translation no longer finds it. *)
Lemma image_reference_with_known_stem :
  convert_images (convert_org_links NFD_ascii args0 (u "[[file:pic.png]]") pic_index)
  = u "[[20251104120000|file:pic.png]]"
  /\ convert_images (convert_org_links NFD_ascii args0 (u "[[file:pic.png]]") pic_index)
     <> u "![](pic.png)".
Proof. split; [vm_compute; reflexivity | vm_compute; discriminate]. Qed.

(** Nor is the reference turned into the embed of [pic.png] after any text
    whatever: after an opening bracket pair that is not closed, link
    translation takes both together, and the embed is of another name. *)
Lemma image_reference_inside_open_brackets :
  convert_images (convert_org_links NFD_ascii args0 (u "[[file:x [[file:pic.png]]") [])
  = u "![](x [[file:pic.png)".
Proof. vm_compute. reflexivity. Qed.

(** The labeled image reference with an index that knows [pic], and with
    one that does not. *)
Lemma labelled_image_reference_is_a_link_witness :
  convert_images
    (convert_org_links NFD_ascii args0
       (u "figure: " ++ (u "[[file:" ++ u "img/pic.png" ++ u "][" ++ u "caption" ++ u "]]")
        ++ u " (a)") pic_index)
  = u "figure: " ++ u "[[20251104120000|caption]]"
    ++ convert_images (convert_org_links NFD_ascii args0 (u " (a)") pic_index).
Proof.
  apply (labelled_image_reference_is_a_link NFD_ascii args0 pic_index
           (u "figure: ") (u " (a)") (u "img/pic.png") (u "caption"));
    try reflexivity; try discriminate.
  intros id_ E. injection E as <-. reflexivity.
Defined.

(** The two blocks of [two_blocks]. *)
Lemma every_property_block_is_deleted_witness :
  let l := [([], [newline] ++ u ":ID: a" ++ [newline]);
            ([newline] ++ u "first" ++ [newline], [newline] ++ u ":ID: b" ++ [newline])] in
  let tail := [newline] ++ u "second" ++ [newline] in
  blocks_ok None l = true
  /\ no_line_starts_with (u ":PROPERTIES:") (after_blocks None l) tail = true
  /\ with_blocks l tail = two_blocks
  /\ strip_properties (with_blocks l tail) = concat (map fst l) ++ tail.
Proof.
  intros l tail. split; [reflexivity|]. split; [reflexivity|]. split; [reflexivity|].
  apply (every_property_block_is_deleted l tail); reflexivity.
Defined.


(** The first sample run, with and without [--tags work]. *)
Lemma tags_option_is_ignored_witness :
  main NFD_ascii args0 world0 walk1 init
  = main NFD_ascii (with_tags args0 (Some (u "work"))) world0 walk1 init.
Proof.
  apply (tags_option_is_ignored NFD_ascii args0 (with_tags args0 (Some (u "work")))
           world0 walk1 init); reflexivity.
Defined.

(** A name with spaces and no accent, and its cleaned form. *)
Lemma clean_filename_ascii_witness :
  clean_filename NFD_ascii (u "My first note") = u "My-first-note".
Proof.
  apply (clean_filename_ascii NFD_ascii NFD_ascii_preserves (u "My first note")).
  reflexivity.
Defined.

Lemma clean_filename_idempotent_witness :
  clean_filename NFD_ascii (clean_filename NFD_ascii (u "My first note"))
  = clean_filename NFD_ascii (u "My first note").
Proof.
  apply (clean_filename_idempotent NFD_ascii NFD_ascii_preserves (u "My first note")).
Defined.

(** Two trees with the paths of the first sample run and other texts. *)
Lemma index_ignores_text_witness :
  fst (for_each (collect walk1) (index_note NFD_ascii args0 world0) [] init)
  = fst (for_each [(u "notes/note.org", u "x"); (u "notes/other.org", [])]
           (index_note NFD_ascii args0 world0) [] init).
Proof.
  apply (index_ignores_text NFD_ascii args0 world0 (collect walk1)
           [(u "notes/note.org", u "x"); (u "notes/other.org", [])] init init);
    reflexivity.
Defined.

(** Two files called [note.org] in two folders: the second gives the entry. *)
Lemma index_last_file_wins_witness :
  dict_get (index_fold NFD_ascii args0 world0
              ([u "a/note.org"] ++ u "b/note.org" :: [u "b/other.org"]) 0 [])
    (stem_key NFD_ascii (u "b/note.org"))
  = Some (u "20251104120001").
Proof.
  apply (index_last_file_wins NFD_ascii args0 world0 [u "a/note.org"] [u "b/other.org"]
           (u "b/note.org") 0).
  intros [H|[]]. revert H. vm_compute. discriminate.
Defined.

(** The first sample run, which prints its two notes. *)
Lemma quiet_run_prints_every_note_witness :
  stdout (snd (main NFD_ascii args0 world0 walk1 init)) = shown (collect walk1).
Proof.
  apply (quiet_run_prints_every_note NFD_ascii args0 world0 walk1 init). reflexivity.
Defined.

(** A tree of one note with an identifier and one with no header at all. *)
Lemma self_contained_notes_raise_no_key_error_witness :
  let walk :=
    [ {| fe_root := u "notes"; fe_name := u "a.org";
         fe_text := [] ++ u ":ID:" ++ u " " ++ u "abc" ++ u "  "
                    ++ ([newline] ++ u "#+title: T") |};
      {| fe_root := u "notes"; fe_name := u "b.org"; fe_text := u "plain text" |} ] in
  (forall f, In f (collect walk) -> self_contained (snd f))
  /\ forall k, fst (main NFD_ascii args0 world0 walk init) <> inl (KeyError k).
Proof.
  intros walk.
  assert (H : forall f, In f (collect walk) -> self_contained (snd f)).
  { intros f Hf. vm_compute in Hf. destruct Hf as [<-|[<-|[]]].
    - left. exists (u "abc"). exists [], (u " "), (u "  "), ([newline] ++ u "#+title: T").
      repeat split; reflexivity.
    - right. repeat split; reflexivity. }
  split; [exact H|].
  apply (proj2 (self_contained_notes_raise_no_key_error NFD_ascii args0 world0 walk init H)).
Defined.

(** A link to the file of a note of the index, and one to a file that the
    index does not know. *)
Lemma file_link_resolves_by_stem_witness :
  convert_org_links NFD_ascii args0
    (u "see " ++ (u "[[file:" ++ u "note.org" ++ u "][" ++ u "Label" ++ u "]]") ++ [])
    [(u "note", u "20251104120000")]
  = u "see " ++ u "[[20251104120000|Label]]" ++ []
  /\ convert_org_links NFD_ascii args0
       (u "see " ++ (u "[[file:" ++ u "gone.org" ++ u "][" ++ u "Label" ++ u "]]") ++ [])
       [(u "note", u "20251104120000")]
     = u "see " ++ u "[[Label]]" ++ [].
Proof.
  split.
  - apply (file_link_resolves_by_stem NFD_ascii args0 [(u "note", u "20251104120000")]
             (u "see ") [] (u "note.org") (u "Label")); try reflexivity. discriminate.
  - apply (file_link_resolves_by_stem NFD_ascii args0 [(u "note", u "20251104120000")]
             (u "see ") [] (u "gone.org") (u "Label")); try reflexivity. discriminate.
Defined.

Lemma web_link_becomes_hyperlink_witness :
  convert_org_links NFD_ascii args0
    ([] ++ (u "[[" ++ (u "https://" ++ u "cosma.graphlab.fr/en/") ++ u "][" ++ u "Cosma"
            ++ u "]]") ++ [])
    []
  = [] ++ u "[Cosma](https://cosma.graphlab.fr/en/)" ++ [].
Proof.
  apply (web_link_becomes_hyperlink NFD_ascii args0 [] [] [] (u "cosma.graphlab.fr/en/")
           (u "Cosma") true); try reflexivity. discriminate.
Defined.

Lemma other_link_keeps_label_only_witness :
  convert_org_links NFD_ascii args0
    ([] ++ (u "[[" ++ u "mailto:a@b.c" ++ u "][" ++ u "write" ++ u "]]") ++ []) []
  = [] ++ u "[[write]]" ++ [].
Proof.
  apply (other_link_keeps_label_only NFD_ascii args0 [] [] [] (u "mailto:a@b.c")
           (u "write")); try reflexivity; discriminate.
Defined.

Lemma unlabelled_link_is_labelled_by_target_witness :
  convert_org_links NFD_ascii args0 ([] ++ (u "[[" ++ u "Some note" ++ u "]]") ++ []) []
  = [] ++ u "[[Some note]]" ++ []
  /\ convert_org_links NFD_ascii args0 ([] ++ (u "[[id:" ++ u "123" ++ u "]]") ++ []) []
     = [] ++ u "[[123|id:123]]" ++ [].
Proof.
  split.
  - apply (proj1 (unlabelled_link_is_labelled_by_target NFD_ascii args0 [] [] []
                    (u "Some note") eq_refl ltac:(discriminate) eq_refl) eq_refl).
  - apply (proj2 (unlabelled_link_is_labelled_by_target NFD_ascii args0 [] [] []
                    (u "123") eq_refl ltac:(discriminate) eq_refl) eq_refl).
Defined.

Lemma text_without_brackets_is_kept_witness :
  convert_org_links NFD_ascii args0 (u "plain text") [] = u "plain text"
  /\ convert_images (u "plain text") = u "plain text".
Proof.
  apply (text_without_brackets_is_kept NFD_ascii args0 [] (u "plain text")). reflexivity.
Defined.

(** The first reading of the sample clock. *)
Lemma strftime_injective_witness :
  valid_datetime (wall_clock world0 0)
  /\ wall_clock world0 0 = Build_datetime 2025 11 4 12 0 0.
Proof.
  assert (V : valid_datetime (wall_clock world0 0)) by (unfold valid_datetime; cbn; lia).
  split; [exact V|].
  apply (strftime_injective (wall_clock world0 0) (Build_datetime 2025 11 4 12 0 0) V).
  - unfold valid_datetime; cbn; lia.
  - reflexivity.
Defined.

(** A header, a source block and a last line without line break. *)
Lemma meta_lines_are_blanked_witness :
  strip_meta_lines
    (text_of [u "#+title: T"; u "text"; u "#+begin_src c"; u "int x;"; u "#+end_src"]
     ++ u "end")
  = text_of [u ""; u "text"; u ""; u "int x;"; u ""] ++ u "end".
Proof.
  apply (meta_lines_are_blanked
           [u "#+title: T"; u "text"; u "#+begin_src c"; u "int x;"; u "#+end_src"]
           (u "end")); reflexivity.
Defined.

(** A property block that is opened and not closed. *)
Lemma unclosed_block_is_kept_witness :
  strip_properties (text_of [u ":PROPERTIES:"; u ":ID: abc"; u "text"])
  = text_of [u ":PROPERTIES:"; u ":ID: abc"; u "text"].
Proof.
  apply (unclosed_block_is_kept (text_of [u ":PROPERTIES:"; u ":ID: abc"; u "text"])).
  reflexivity.
Defined.

(** An identifier left empty in its block: the end marker is read as the
    identifier. *)
Lemma header_value_may_follow_on_a_later_line_witness :
  let content := (u ":PROPERTIES:" ++ [newline]) ++ u ":ID:" ++ [newline] ++ u ":END:"
                 ++ ([newline] ++ u "text") in
  declares_after (u ":ID:") content (u ":END:")
  /\ m_id (parse_org_frontmatter content) = Some (u ":END:").
Proof.
  intros content.
  assert (D : declares_after (u ":ID:") content (u ":END:")).
  { exists (u ":PROPERTIES:" ++ [newline]), [newline], ([newline] ++ u "text").
    repeat split; reflexivity. }
  split; [exact D|].
  apply (proj2 (header_value_may_follow_on_a_later_line content (u ":END:")) D).
Defined.

Lemma headerless_text_has_no_metadata_witness :
  parse_org_frontmatter (text_of [u "Just a note."; u "No header: at all."])
  = {| m_title := None; m_tags := []; m_id := None |}.
Proof.
  apply (headerless_text_has_no_metadata
           (text_of [u "Just a note."; u "No header: at all."])); reflexivity.
Defined.

(** A tree that holds a single file, which is no note. *)
Lemma empty_vault_writes_empty_index_witness :
  main NFD_ascii args0 world0
    [ {| fe_root := u "notes"; fe_name := u "readme.md"; fe_text := u "hello" |} ] init
  = (inr tt,
     {| stdout := []; ticks := 0; written := [(u "out/_title2id.csv", Rows [])] |}).
Proof.
  apply (empty_vault_writes_empty_index NFD_ascii args0 world0
           [ {| fe_root := u "notes"; fe_name := u "readme.md"; fe_text := u "hello" |} ] init).
  reflexivity.
Defined.

(** A photograph in a folder, after some text. *)
Lemma image_reference_is_embedded_witness :
  convert_images (u "see " ++ (u "[[file:" ++ u "img/my photo" ++ u "." ++ u "jpeg" ++ u "]]")
                  ++ u " here")
  = u "see " ++ (u "![](" ++ u "img/my photo" ++ u "." ++ u "jpeg" ++ u ")")
    ++ convert_images (u " here").
Proof.
  apply (image_reference_is_embedded (u "see ") (u " here") (u "img/my photo") (u "jpeg"));
    try reflexivity.
  discriminate.
Defined.

(** Two lines of text between blank lines. *)
Lemma plain_text_is_only_trimmed_witness :
  note_body NFD_ascii args0 pic_index
    (text_of [[]; u "  A first line."; u "A second: line #+ two."; []])
  = u "A first line." ++ [newline] ++ u "A second: line #+ two.".
Proof.
  rewrite (plain_text_is_only_trimmed NFD_ascii args0 pic_index
             (text_of [[]; u "  A first line."; u "A second: line #+ two."; []]));
    reflexivity.
Defined.
